(** * LelyIntegration: CANopen DCF configuration engine and CiA-402 motor driver

    A shallow embedding of the parts of
    - [LelyIntegration/src/MotorDriver.cpp]      (CiA-402 state tracker, jobs,
      idle queue, NMT handlers, fault recovery),
    - [LelyIntegration/src/DCFDriver.cpp]        (SDO configuration engine,
      follower inference),
    - [LelyIntegration/src/DCFConfigMaster.cpp]  (master: creation of the
      drivers, boot bookkeeping, COB-ID registry),
    - [LelyIntegration/src/DCFDriverConfig.cpp]  (the configured objects of a
      device description)
    together with the properties the specification states about them and
    further properties of the code.

    Conventions.  Fixed-width C++ integers are [Z]; bit tests are written with
    [Z.land]/[Z.lor].  [std::map] is stdpp's [gmap], [std::set] is [gset].
    Asynchronous completions ([std::function] callbacks) are continuations:
    the engine is written in continuation-passing style exactly as the source
    is, over a world that records every SDO request put on the bus. *)

From Stdlib Require Import ZArith List Bool Lia Sorted.
From Stdlib Require String.
From stdpp Require Import base decidable option list gmap fin_sets.
Import ListNotations.
Import String.StringSyntax.
Delimit Scope string_scope with string.

Local Open Scope Z_scope.

(* ===================================================================== *)
(** * std::error_code as the library uses it                              *)
(* ===================================================================== *)

Module ErrorCode.

(** [DCFDriver::ConfigErrorCategory::Step] of DCFDriver.h. *)
Inductive Step : Set := READ_LOCAL_VALUE | READ_REMOTE_SDO | WRITE_REMOTE_SDO.

(** The error categories an [std::error_code] of this code base can carry.
    [ConfigErrorCategory] is the class of DCFDriver.h with its four members;
    the original error code it stores is given by its value and category. *)
Inductive error_category : Set :=
  | generic_category
  | system_category
  | SdoCategory
  | ConfigErrorCategory (m_step : Step) (m_index m_subIndex : Z)
      (originalValue : Z) (originalCategory : error_category).

Record error_code : Set := mk_error_code
  { ec_value : Z; ec_category : error_category }.

#[export] Instance Step_eq_dec : EqDecision Step.
Proof. solve_decision. Defined.
#[export] Instance error_category_eq_dec : EqDecision error_category.
Proof. solve_decision. Defined.
#[export] Instance error_code_eq_dec : EqDecision error_code.
Proof. solve_decision. Defined.

(** [std::error_code()] *)
Definition no_error : error_code := mk_error_code 0 system_category.

(** [explicit operator bool]: the value is not zero. *)
Definition is_error (ec : error_code) : bool := negb (ec_value ec =? 0).

(** [ECANCELED] of <errno.h> (Linux). *)
Definition ECANCELED : Z := 125.

(** [ec == std::errc::operation_canceled]: the error condition
    (ECANCELED, generic) is matched by the generic and the system category. *)
Definition is_operation_canceled (ec : error_code) : bool :=
  (ec_value ec =? ECANCELED)
  && match ec_category ec with
     | generic_category | system_category => true
     | _ => false
     end.

(** [lely::canopen::SdoErrc::DATA] (CO_SDO_AC_DATA). *)
Definition SdoErrc_DATA : Z := 0x08000020.

(** [std::error_code(ec.value(), ConfigErrorCategory(step, index, subIndex, ec))] *)
Definition config_error (step : Step) (index subIndex : Z) (ec : error_code)
  : error_code :=
  mk_error_code (ec_value ec)
    (ConfigErrorCategory step index subIndex (ec_value ec) (ec_category ec)).

End ErrorCode.

(* ===================================================================== *)
(** * MotorDriver.h / MotorDriver.cpp : the CiA-402 state derivation      *)
(* ===================================================================== *)

Module MotorState.

(** [enum State] of MotorDriver.h, in declaration order. *)
Inductive State : Set :=
  | INITIAL_STATE
  | INITIAL_POWER_ON
  | INITIAL_POWER_OFF
  | CYCLE_POWER_SHUTDOWN
  | POWER_ON_DISABLE_OPERATION
  | IDLE
  | PREPARE_MOVE
  | READY_TO_MOVE
  | MOVING
  | PREPARE_HOMING
  | READY_FOR_HOMING
  | HOMING
  | FAULT_STATE
  | FAULT_RESET
  | NODE_RESET.

#[export] Instance State_eq_dec : EqDecision State.
Proof. solve_decision. Defined.

(** [enum StatusWordFlags] of MotorDriver.h. *)
Definition READY_TO_SWITCH_ON       : Z := 0x0001.
Definition SWITCHED_ON              : Z := 0x0002.
Definition OPERATION_ENABLED        : Z := 0x0004.
Definition FAULT                    : Z := 0x0008.
Definition VOLTAGE_ENABLED          : Z := 0x0010.
Definition QUICK_STOP               : Z := 0x0020.
Definition SWITCH_ON_DISABLED       : Z := 0x0040.
Definition WARNING                  : Z := 0x0080.
Definition MANUFACTURER_SPECIFIC1   : Z := 0x0100.
Definition REMOTE                   : Z := 0x0200.
Definition TARGET_REACHED           : Z := 0x0400.
Definition INTERNAL_LIMIT_ACTIVE    : Z := 0x0800.
Definition OPERATION_MODE_SPECIFIC1 : Z := 0x1000.
Definition OPERATION_MODE_SPECIFIC2 : Z := 0x2000.
Definition MANUFACTURER_SPECIFIC2   : Z := 0x4000.
Definition MANUFACTURER_SPECIFIC3   : Z := 0x8000.

(** The C++ condition [statusWord & FLAG]: an integer used as a truth value. *)
Definition has (statusWord flag : Z) : bool :=
  negb (Z.land statusWord flag =? 0).

(** [MotorDriver::determineStateFromStatusWord].  The [diag] calls only log;
    [nodeID] is used by nothing else. *)
Definition determineStateFromStatusWord
    (currentState : State) (statusWord : Z) (nodeID : Z) : State :=
  if has statusWord FAULT then
    FAULT_STATE
  else if has statusWord READY_TO_SWITCH_ON
          && negb (has statusWord SWITCHED_ON)
          && negb (has statusWord OPERATION_ENABLED) then
    (* Drive switched off *)
    if bool_decide (currentState = INITIAL_STATE) then INITIAL_POWER_OFF
    else POWER_ON_DISABLE_OPERATION
  else
    if bool_decide (currentState = INITIAL_STATE) then INITIAL_POWER_ON
    else if has statusWord READY_TO_SWITCH_ON
            && has statusWord SWITCHED_ON
            && has statusWord VOLTAGE_ENABLED then
      (* Drive switched on *)
      if negb (has statusWord OPERATION_ENABLED) then
        (* Operation not enabled *)
        if bool_decide (currentState = POWER_ON_DISABLE_OPERATION) then IDLE
        else if bool_decide (currentState = FAULT_STATE)
                && negb (has statusWord MANUFACTURER_SPECIFIC1) then FAULT_RESET
        else if bool_decide (currentState = FAULT_RESET)
                && negb (has statusWord MANUFACTURER_SPECIFIC1) then CYCLE_POWER_SHUTDOWN
        else currentState
      else
        (* Operation enabled *)
        if bool_decide (currentState = PREPARE_HOMING) then READY_FOR_HOMING
        else if bool_decide (currentState = READY_FOR_HOMING)
                && negb (has statusWord TARGET_REACHED)
                && negb (has statusWord OPERATION_MODE_SPECIFIC1)
                && negb (has statusWord OPERATION_MODE_SPECIFIC2) then HOMING
        else if bool_decide (currentState = HOMING)
                && has statusWord TARGET_REACHED then
          if has statusWord OPERATION_MODE_SPECIFIC1 then POWER_ON_DISABLE_OPERATION
          else if has statusWord OPERATION_MODE_SPECIFIC2 then FAULT_STATE
          else currentState
        else if bool_decide (currentState = PREPARE_MOVE)
                && has statusWord OPERATION_MODE_SPECIFIC1 then READY_TO_MOVE
        else if bool_decide (currentState = READY_TO_MOVE)
                && negb (has statusWord TARGET_REACHED)
                && negb (has statusWord OPERATION_MODE_SPECIFIC1) then MOVING
        else if bool_decide (currentState = MOVING)
                && has statusWord TARGET_REACHED then POWER_ON_DISABLE_OPERATION
        else currentState
    else currentState.

(** ** The transition table of the specification (section 4.3)

    This second definition follows the words of the specification, one
    constructor per table row; it is compared with the code below.  The two
    named conditions are those of the "CiA-402 mapping" paragraph. *)

(** "READY_TO_SWITCH_ON without SWITCHED_ON and without OPERATION_ENABLED" *)
Definition switched_off_branch (sw : Z) : Prop :=
  has sw READY_TO_SWITCH_ON = true /\ has sw SWITCHED_ON = false
  /\ has sw OPERATION_ENABLED = false.

(** "the READY+SWITCHED+VOLTAGE triple" *)
Definition switched_on_branch (sw : Z) : Prop :=
  has sw READY_TO_SWITCH_ON = true /\ has sw SWITCHED_ON = true
  /\ has sw VOLTAGE_ENABLED = true.

Inductive admissible : State -> Z -> State -> Prop :=
  | row_fault cur sw :
      has sw FAULT = true ->
      admissible cur sw FAULT_STATE
  | row_initial_off sw :
      switched_off_branch sw ->
      admissible INITIAL_STATE sw INITIAL_POWER_OFF
  | row_initial_on sw :
      ~ switched_off_branch sw ->
      admissible INITIAL_STATE sw INITIAL_POWER_ON
  | row_switched_off cur sw :
      cur <> INITIAL_STATE -> switched_off_branch sw ->
      admissible cur sw POWER_ON_DISABLE_OPERATION
  | row_idle sw :
      switched_on_branch sw -> has sw OPERATION_ENABLED = false ->
      admissible POWER_ON_DISABLE_OPERATION sw IDLE
  | row_fault_reset sw :
      switched_on_branch sw -> has sw OPERATION_ENABLED = false ->
      has sw MANUFACTURER_SPECIFIC1 = false ->
      admissible FAULT_STATE sw FAULT_RESET
  | row_cycle_power sw :
      switched_on_branch sw -> has sw OPERATION_ENABLED = false ->
      has sw MANUFACTURER_SPECIFIC1 = false ->
      admissible FAULT_RESET sw CYCLE_POWER_SHUTDOWN
  | row_ready_for_homing sw :
      has sw OPERATION_ENABLED = true ->
      admissible PREPARE_HOMING sw READY_FOR_HOMING
  | row_homing sw :
      has sw OPERATION_ENABLED = true -> has sw TARGET_REACHED = false ->
      has sw OPERATION_MODE_SPECIFIC1 = false ->
      has sw OPERATION_MODE_SPECIFIC2 = false ->
      admissible READY_FOR_HOMING sw HOMING
  | row_homing_attained sw :
      has sw OPERATION_ENABLED = true -> has sw TARGET_REACHED = true ->
      has sw OPERATION_MODE_SPECIFIC1 = true ->
      admissible HOMING sw POWER_ON_DISABLE_OPERATION
  | row_homing_error sw :
      has sw OPERATION_ENABLED = true -> has sw TARGET_REACHED = true ->
      has sw OPERATION_MODE_SPECIFIC2 = true ->
      admissible HOMING sw FAULT_STATE
  | row_ready_to_move sw :
      has sw OPERATION_ENABLED = true ->
      has sw OPERATION_MODE_SPECIFIC1 = true ->
      admissible PREPARE_MOVE sw READY_TO_MOVE
  | row_moving sw :
      has sw OPERATION_ENABLED = true -> has sw TARGET_REACHED = false ->
      has sw OPERATION_MODE_SPECIFIC1 = false ->
      admissible READY_TO_MOVE sw MOVING
  | row_move_done sw :
      has sw OPERATION_ENABLED = true -> has sw TARGET_REACHED = true ->
      admissible MOVING sw POWER_ON_DISABLE_OPERATION.

End MotorState.

(* ===================================================================== *)
(** * DCFConfigMaster.h / DCFConfigMaster.cpp                              *)
(* ===================================================================== *)

Module DCFConfigMaster.
Import ErrorCode.

(** The two members of [DCFDriver] other objects write to
    ([setFollowingNodeID], [setFollowsNodeID]); 0 means "none". *)
Record DCFDriver : Set := mk_DCFDriver
  { m_followingNodeID : Z;
    m_followsNodeID : Z }.

Definition setFollowingNodeID (nodeID : Z) (d : DCFDriver) : DCFDriver :=
  mk_DCFDriver nodeID (m_followsNodeID d).

Definition setFollowsNodeID (nodeID : Z) (d : DCFDriver) : DCFDriver :=
  mk_DCFDriver (m_followingNodeID d) nodeID.

(** What the master does that the outside can observe. *)
Inductive MasterEvent : Set :=
  | BootCompletedCallback (id : Z)      (* m_bootCompletedCallback(id) *)
  | NmtResetNode.                       (* Command(NmtCommand::RESET_NODE) *)

#[export] Instance MasterEvent_eq_dec : EqDecision MasterEvent.
Proof. solve_decision. Defined.

(** The members of [DCFConfigMaster] and, in [od], the master's own object
    dictionary as [master.Read<uint32_t>(idx, subidx, error)] answers. *)
Record Master : Type := mk_Master
  { m_drivers : gmap Z DCFDriver;
    m_firstNodeIDUsing_RPDO_COB_ID : gmap Z Z;
    m_devicesToBoot : gset Z;
    m_bootCompletedCallback : bool;          (* false: nullptr *)
    od : Z -> Z -> error_code * Z;
    events : list MasterEvent }.             (* oldest first *)

Definition with_drivers (f : gmap Z DCFDriver -> gmap Z DCFDriver) (m : Master) : Master :=
  mk_Master (f (m_drivers m)) (m_firstNodeIDUsing_RPDO_COB_ID m) (m_devicesToBoot m)
            (m_bootCompletedCallback m) (od m) (events m).

Definition with_registry (f : gmap Z Z -> gmap Z Z) (m : Master) : Master :=
  mk_Master (m_drivers m) (f (m_firstNodeIDUsing_RPDO_COB_ID m)) (m_devicesToBoot m)
            (m_bootCompletedCallback m) (od m) (events m).

Definition with_devicesToBoot (f : gset Z -> gset Z) (m : Master) : Master :=
  mk_Master (m_drivers m) (m_firstNodeIDUsing_RPDO_COB_ID m) (f (m_devicesToBoot m))
            (m_bootCompletedCallback m) (od m) (events m).

Definition emit (e : MasterEvent) (m : Master) : Master :=
  mk_Master (m_drivers m) (m_firstNodeIDUsing_RPDO_COB_ID m) (m_devicesToBoot m)
            (m_bootCompletedCallback m) (od m) (events m ++ [e]).

(** [DCFConfigMaster::registerDriver] *)
Definition registerDriver (id : Z) (driver : DCFDriver) (m : Master) : Master :=
  with_devicesToBoot (fun s => {[ id ]} ∪ s) (with_drivers (insert id driver) m).

(** [DCFConfigMaster::getDriver]: [None] is the null pointer. *)
Definition getDriver (m : Master) (nodeID : Z) : option DCFDriver :=
  m_drivers m !! nodeID.

(** [DCFConfigMaster::getFirstNodeIDUsing_RPDO_COB_ID] *)
Definition getFirstNodeIDUsing_RPDO_COB_ID (m : Master) (cobID : Z) : Z :=
  match m_firstNodeIDUsing_RPDO_COB_ID m !! cobID with
  | None => 0
  | Some nodeID => nodeID
  end.

(** [DCFConfigMaster::setFirstNodeIDUsing_RPDO_COB_ID] *)
Definition setFirstNodeIDUsing_RPDO_COB_ID (nodeID cobID : Z) (m : Master) : Master :=
  with_registry (insert cobID nodeID) m.

(** [DCFConfigMaster::reset] *)
Definition reset (m : Master) : Master :=
  emit NmtResetNode (with_devicesToBoot (fun s => dom (m_drivers m) ∪ s) m).

(** [DCFConfigMaster::OnBoot].  [AsyncMaster::OnBoot] forwards the event to
    the driver of the node and touches none of the members above;
    [onSystemBootCompleted] is empty in every driver class of the library. *)
Definition OnBoot (id : Z) (es : Z) (m : Master) : Master :=
  let m := if m_bootCompletedCallback m then emit (BootCompletedCallback id) m else m in
  if (es =? 0) && (0 <? Z.of_nat (size (m_devicesToBoot m))) then
    (* find + erase: removing an absent element changes nothing *)
    let m := with_devicesToBoot (fun s => s ∖ {[ id ]}) m in
    if (Z.of_nat (size (m_devicesToBoot m)) =? 0) && m_bootCompletedCallback m
    then emit (BootCompletedCallback 0) m
    else m
  else m.

End DCFConfigMaster.

(* ===================================================================== *)
(** * DCFDriverConfig.h, DCFDriver.h / DCFDriver.cpp                       *)
(* ===================================================================== *)

Module DCFDriver.
Import ErrorCode DCFConfigMaster.

(** [enum StandardSDO] *)
Definition RECEIVE_PDO_CONTROL_START  : Z := 0x1400.
Definition RECEIVE_PDO_CONTROL_END    : Z := 0x15FF.
Definition RECEIVE_PDO_MAPPING_START  : Z := 0x1600.
Definition RECEIVE_PDO_MAPPING_END    : Z := 0x17FF.
Definition TRANSMIT_PDO_CONTROL_START : Z := 0x1800.
Definition TRANSMIT_PDO_CONTROL_END   : Z := 0x19FF.
Definition TRANSMIT_PDO_MAPPING_START : Z := 0x1A00.
Definition TRANSMIT_PDO_MAPPING_END   : Z := 0x1BFF.

(** The CANopen basic data types of lely/co/type.h (CiA 301, object 0001..0007). *)
Definition CO_DEFTYPE_BOOLEAN    : Z := 0x0001.
Definition CO_DEFTYPE_INTEGER8   : Z := 0x0002.
Definition CO_DEFTYPE_INTEGER16  : Z := 0x0003.
Definition CO_DEFTYPE_INTEGER32  : Z := 0x0004.
Definition CO_DEFTYPE_UNSIGNED8  : Z := 0x0005.
Definition CO_DEFTYPE_UNSIGNED16 : Z := 0x0006.
Definition CO_DEFTYPE_UNSIGNED32 : Z := 0x0007.

(** The template argument [T] of [copyObject<T>], [setObject<T>],
    [SubmitRead<T>] and [SubmitWrite<T>]. *)
Inductive CType : Set :=
  | bool_t | int8_t | int16_t | int32_t | uint8_t | uint16_t | uint32_t.

#[export] Instance CType_eq_dec : EqDecision CType.
Proof. solve_decision. Defined.

(** [DCFDriverConfig::ObjectsList]:
    [std::vector<std::tuple<uint16_t, std::vector<uint8_t>>>] *)
Definition ObjectsList : Set := list (Z * list Z).

(** What the engine uses of [DCFDriverConfig]: the node ID, the name of the
    binary DCF, the configured objects, the OD-declared type of an object and
    the typed read of a local value, [Read<T>(idx, subidx, ec)]. *)
Record DCFDriverConfig : Type := mk_DCFDriverConfig
  { getDefaultNodeID : Z;
    getBinaryDcfFile : String.string;
    getSDOIndicesForDriverConfiguration : ObjectsList;
    getTypeOfObject : Z -> Z -> Z;
    Read : CType -> Z -> Z -> error_code * Z }.

(** An SDO request put on the bus for the node of the driver. *)
Inductive SdoRequest : Set :=
  | SdoRead (T : CType) (idx subidx : Z)
  | SdoWrite (T : CType) (idx subidx : Z) (value : Z)
  | SdoWriteDcf (path : String.string).

#[export] Instance SdoRequest_eq_dec : EqDecision SdoRequest.
Proof. solve_decision. Defined.

(** The remote node: its answer (error code, and the value for a read) to a
    request, given the requests it has served before. *)
Record Node : Type := mk_Node
  { reply : list SdoRequest -> SdoRequest -> error_code * Z }.

(** What a configuration run reads and changes: the master with the drivers
    it owns, and the requests sent so far, oldest first. *)
Record World : Type := mk_World
  { master : Master;
    requests : list SdoRequest }.

(** The end of a run: the completion function [res] was called with [ec], or
    the process was lost (an exception left a [noexcept] function, or a null
    pointer or an end iterator was dereferenced). *)
Inductive Outcome : Type :=
  | Completed (ec : error_code) (w : World)
  | Crashed (w : World).

Definition Run : Type := World -> Outcome.

(** [std::function<void (std::error_code)>] *)
Definition Callback : Type := error_code -> Run.

(** [DCFDriver::ClearConfigurationStrategy] *)
Definition ClearConfigurationStrategy : Type := Callback -> Run.

Definition u16 (x : Z) : Z := x mod 65536.

Definition is_empty (s : String.string) : bool :=
  match s with String.EmptyString => true | _ => false end.

Section Engine.

Variable m_config : DCFDriverConfig.
Variable node : Node.

(** [id()]: "the node ID of master.dcf always wins" (constructor). *)
Definition id : Z := getDefaultNodeID m_config.

Definition m_sdosToConfigure : ObjectsList :=
  getSDOIndicesForDriverConfiguration m_config.

Definition submit (req : SdoRequest) (k : error_code -> Z -> Run) : Run :=
  fun w =>
    let '(ec, value) := reply node (requests w) req in
    k ec value (mk_World (master w) (requests w ++ [req])).

(** [SubmitRead<T>(idx, subidx, callback)] *)
Definition SubmitRead (T : CType) (idx subidx : Z) (k : error_code -> Z -> Run) : Run :=
  submit (SdoRead T idx subidx) k.

(** [SubmitWrite<T>(idx, subidx, value, callback)] *)
Definition SubmitWrite (T : CType) (idx subidx value : Z) (k : error_code -> Run) : Run :=
  submit (SdoWrite T idx subidx value) (fun ec _ => k ec).

(** [SubmitWriteDcf(path, callback)] *)
Definition SubmitWriteDcf (path : String.string) (k : error_code -> Run) : Run :=
  submit (SdoWriteDcf path) (fun ec _ => k ec).

(** [copyObject<T>] *)
Definition copyObject (T : CType) (index subIndex : Z)
    (onCompletedFunction : Callback) (onErrorFunction : option Callback)
    (ignoreMissingSourceSDO : bool) : Run :=
  let '(ec, value) := Read m_config T index subIndex in
  if ignoreMissingSourceSDO
     && ((ec_value ec =? 0x6020000) || (ec_value ec =? 0x6090011)) then
    onCompletedFunction no_error
  else if is_error ec then
    match onErrorFunction with
    | Some onError => onError (config_error READ_LOCAL_VALUE index subIndex ec)
    | None => onCompletedFunction (config_error READ_LOCAL_VALUE index subIndex ec)
    end
  else
    SubmitWrite T index subIndex value (fun ec =>
      match onErrorFunction with
      | Some onError =>
          if is_error ec then onError (config_error WRITE_REMOTE_SDO index subIndex ec)
          else onCompletedFunction (config_error WRITE_REMOTE_SDO index subIndex ec)
      | None => onCompletedFunction (config_error WRITE_REMOTE_SDO index subIndex ec)
      end).

(** [setObject<T>] *)
Definition setObject (T : CType) (index subIndex value : Z)
    (onCompletedFunction onErrorFunction : Callback) : Run :=
  SubmitWrite T index subIndex value (fun ec =>
    if is_error ec then onErrorFunction (config_error WRITE_REMOTE_SDO index subIndex ec)
    else onCompletedFunction (config_error WRITE_REMOTE_SDO index subIndex ec)).

(** The [switch] of [configureParameterSDO]: the C++ type to copy with. *)
Definition supported_type (type : Z) : option CType :=
  if type =? CO_DEFTYPE_BOOLEAN then Some bool_t
  else if type =? CO_DEFTYPE_INTEGER8 then Some int8_t
  else if type =? CO_DEFTYPE_INTEGER16 then Some int16_t
  else if type =? CO_DEFTYPE_INTEGER32 then Some int32_t
  else if type =? CO_DEFTYPE_UNSIGNED8 then Some uint8_t
  else if type =? CO_DEFTYPE_UNSIGNED16 then Some uint16_t
  else if type =? CO_DEFTYPE_UNSIGNED32 then Some uint32_t
  else None.

(** [DCFDriver::configureParameterSDO].  [subIndexToSend] is the iterator:
    the sub-indices from the current one on.  [configureSDO_next] stands for
    [configureSDO(objectToSend + 1, .)]. *)
Fixpoint configureParameterSDO (configureSDO_next : Callback -> Run)
    (index : Z) (subIndexToSend : list Z) (onCompletedFunction : Callback)
    (iterateSubIndicesOnly : bool) {struct subIndexToSend} : Run :=
  match subIndexToSend with
  | [] => Crashed                                   (* *subIndexToSend at end() *)
  | subIndex :: rest =>
      let writeResultHandler : Callback := fun ec =>
        if is_error ec then onCompletedFunction ec
        else match rest with
             | _ :: _ =>
                 configureParameterSDO configureSDO_next index rest
                   onCompletedFunction iterateSubIndicesOnly
             | [] =>
                 if iterateSubIndicesOnly then onCompletedFunction no_error
                 else configureSDO_next onCompletedFunction
             end in
      match supported_type (getTypeOfObject m_config index subIndex) with
      | Some T => copyObject T index subIndex writeResultHandler None false
      | None =>
          onCompletedFunction
            (config_error WRITE_REMOTE_SDO index subIndex
               (mk_error_code SdoErrc_DATA SdoCategory))
      end
  end.

(** The lambda [writeMappings] of [configurePDO]. *)
Definition writeMappings (pdoMappingIndex : Z)
    (onCompletedFunction onErrorFunction : Callback) : Run :=
  match List.find (fun sdo => fst sdo =? pdoMappingIndex) m_sdosToConfigure with
  | None => onCompletedFunction no_error             (* no mappings found *)
  | Some (_, mappingIndices) =>
      if (1 <? Z.of_nat (List.length mappingIndices)) then
        (* iterateSubIndicesOnly = true: the next object is never taken *)
        configureParameterSDO (fun _ => Crashed) pdoMappingIndex (List.tl mappingIndices)
          (fun ec =>
             if is_error ec then onErrorFunction ec
             else copyObject uint8_t pdoMappingIndex 0
                    onCompletedFunction (Some onErrorFunction) false)
          true
      else if (0 <? Z.of_nat (List.length mappingIndices)) then
        copyObject uint8_t pdoMappingIndex 0 onCompletedFunction (Some onErrorFunction) false
      else onCompletedFunction no_error
  end.

(** The innermost lambdas of [configurePDO], entered when the communication
    parameters are written: the mapping count is cleared, the mappings are
    written and the COB-ID of the DCF makes the PDO valid again. *)
Definition configurePDO_mappings (configureSDO_next : Callback -> Run) (index : Z)
    (onCompletedFunction : Callback) : Run :=
  let resultHandler : Callback := fun ec =>
    if is_error ec then onCompletedFunction ec
    else configureSDO_next onCompletedFunction in
  setObject uint8_t (u16 (index + 0x200)) 0 0x0 (fun _ =>
    writeMappings (u16 (index + 0x200)) (fun _ =>
      copyObject uint32_t index 1 resultHandler None false)
    onCompletedFunction)
  onCompletedFunction.

(** [DCFDriver::configurePDO] for the control object [index];
    [configureSDO_next] stands for [configureSDO(objectToSend + 1, .)]. *)
Definition configurePDO (configureSDO_next : Callback -> Run) (index : Z)
    (onCompletedFunction : Callback) : Run :=
  SubmitRead uint32_t index 1 (fun ec valueFromDevice =>
    if is_error ec then
      onCompletedFunction (config_error READ_REMOTE_SDO index 1 ec)
    else
      setObject uint32_t index 1 (Z.lor valueFromDevice 0x80000000) (fun _ =>
        copyObject uint8_t index 2 (fun _ =>
          copyObject uint8_t index 3 (fun _ =>
            configurePDO_mappings configureSDO_next index onCompletedFunction)
          (Some onCompletedFunction) true)
        (Some onCompletedFunction) false)
      onCompletedFunction).

(** The body of [configureFollowerRelationship(objectToSend)] once the COB-ID
    is known.  [None]: [getDriver] returned the null pointer, which is then
    dereferenced. *)
Definition resolveFollowerRelationship (cobID : Z) (m : Master) : option Master :=
  let firstNodeIDforCOB_ID := getFirstNodeIDUsing_RPDO_COB_ID m cobID in
  if firstNodeIDforCOB_ID =? 0 then
    Some (setFirstNodeIDUsing_RPDO_COB_ID id cobID m)
  else if firstNodeIDforCOB_ID <? id then
    (* This instance becomes the following motor. *)
    let m := with_drivers (alter (setFollowsNodeID firstNodeIDforCOB_ID) id) m in
    match getDriver m firstNodeIDforCOB_ID with
    | None => None
    | Some _ => Some (with_drivers (alter (setFollowingNodeID id) firstNodeIDforCOB_ID) m)
    end
  else if id <? firstNodeIDforCOB_ID then
    (* This instance becomes the main motor. *)
    let m := with_drivers (alter (setFollowingNodeID firstNodeIDforCOB_ID) id) m in
    match getDriver m firstNodeIDforCOB_ID with
    | None => None
    | Some _ => Some (with_drivers (alter (setFollowsNodeID id) firstNodeIDforCOB_ID) m)
    end
  else Some m.

(** [DCFDriver::configureFollowerRelationship(objectToSend)].  The master of
    this library is a [DCFConfigMaster], so the [dynamic_cast] succeeds.  The
    read is the throwing overload [Read<uint32_t>(index, 1)]. *)
Definition configureFollowerRelationship (index : Z) (m : Master) : option Master :=
  let '(ec, value) := Read m_config uint32_t index 1 in
  if is_error ec then None
  else resolveFollowerRelationship (Z.land value 0x1FFFFFFF) m.

(** [DCFDriver::configureSDO]; [objectToSend] is the iterator: the objects
    from the current one on. *)
Fixpoint configureSDO (objectToSend : ObjectsList) (onCompletedFunction : Callback)
    {struct objectToSend} : Run :=
  match objectToSend with
  | [] => onCompletedFunction no_error
  | (index, subIndices) :: next =>
      if (RECEIVE_PDO_CONTROL_START <=? index) && (index <=? RECEIVE_PDO_CONTROL_END) then
        fun w =>
          match configureFollowerRelationship index (master w) with
          | None => Crashed w
          | Some m =>
              configurePDO (configureSDO next) index onCompletedFunction
                (mk_World m (requests w))
          end
      else if (TRANSMIT_PDO_CONTROL_START <=? index) && (index <=? TRANSMIT_PDO_CONTROL_END) then
        configurePDO (configureSDO next) index onCompletedFunction
      else if (RECEIVE_PDO_MAPPING_START <=? index) && (index <=? TRANSMIT_PDO_MAPPING_END) then
        configureSDO next onCompletedFunction
      else
        configureParameterSDO (configureSDO next) index subIndices onCompletedFunction false
  end.

(** [DCFDriver::configure] *)
Definition configure (res : Callback) : Run :=
  if (0 <? Z.of_nat (List.length m_sdosToConfigure)) then configureSDO m_sdosToConfigure res
  else res no_error.

(** ** The inference for binary DCFs, [configureFollowerRelationship()] *)

(** How a loop body ends: with the next iteration, or with [return]
    ([None] inside: a null driver pointer was dereferenced). *)
Inductive LoopExit : Type :=
  | Continue
  | Return (m : option Master).

(** Step 5 of the function: the peer is known. *)
Definition assignRoles (otherNodeID : Z) (m : Master) : option Master :=
  if otherNodeID <? id then
    let m := with_drivers (alter (setFollowsNodeID otherNodeID) id) m in
    match getDriver m otherNodeID with
    | None => None
    | Some _ => Some (with_drivers (alter (setFollowingNodeID id) otherNodeID) m)
    end
  else if id <? otherNodeID then
    let m := with_drivers (alter (setFollowingNodeID otherNodeID) id) m in
    match getDriver m otherNodeID with
    | None => None
    | Some _ => Some (with_drivers (alter (setFollowsNodeID id) otherNodeID) m)
    end
  else Some m.

(** The inner loop (step 3 and 4) over [otherCobConfigIndex]. *)
Fixpoint scanOtherCobConfigs (m : Master) (cobConfigIndexForNode cobID : Z)
    (indices : list Z) : LoopExit :=
  match indices with
  | [] => Continue
  | otherCobConfigIndex :: more =>
      if otherCobConfigIndex =? cobConfigIndexForNode then
        scanOtherCobConfigs m cobConfigIndexForNode cobID more
      else
        let '(error, value) := od m otherCobConfigIndex 1 in
        let otherCobID := Z.land value 0x000007ff in
        if is_error error then Return (Some m)
        else if otherCobID =? cobID then
          let otherNodeConfigIndex := u16 (otherCobConfigIndex - 0x1800 + 0x5c00) in
          let '(error, value) := od m otherNodeConfigIndex 0 in
          let otherNodeConfig := Z.land value 0x0000ffff in
          if is_error error then Return (Some m)
          else if negb (Z.land otherNodeConfig 0x0000ff00 =? 0x0100) then Return (Some m)
          else Return (assignRoles (Z.land otherNodeConfig 0x000000ff) m)
        else scanOtherCobConfigs m cobConfigIndexForNode cobID more
  end.

(** The outer loop (step 1 and 2) over [nodeConfigIndex]. *)
Fixpoint scanNodeConfigs (m : Master) (indices : list Z) : option Master :=
  match indices with
  | [] => Some m
  | nodeConfigIndex :: more =>
      let '(error, value) := od m nodeConfigIndex 0 in
      if is_error error then Some m
      else if (0x00000100 + id) =? Z.land value 0x0000ffff then
        let cobConfigIndexForNode := u16 (nodeConfigIndex - 0x5C00 + 0x1800) in
        let '(error, value) := od m cobConfigIndexForNode 1 in
        let cobID := Z.land value 0x000007ff in
        if is_error error then Some m
        else
          match scanOtherCobConfigs m cobConfigIndexForNode cobID (seqZ 0x1800 0x200) with
          | Return r => r
          | Continue => scanNodeConfigs m more
          end
      else scanNodeConfigs m more
  end.

(** [DCFDriver::configureFollowerRelationship()] *)
Definition configureFollowerRelationship_binary (m : Master) : option Master :=
  scanNodeConfigs m (seqZ 0x5C00 0x200).

(** [DCFDriver::OnConfig] *)
Definition OnConfig (m_clearConfigurationStrategy : option ClearConfigurationStrategy)
    (res : Callback) : Run :=
  fun w =>
    match (if negb (is_empty (getBinaryDcfFile m_config))
           then configureFollowerRelationship_binary (master w)
           else Some (master w)) with
    | None => Crashed w
    | Some m =>
        let w := mk_World m (requests w) in
        match m_clearConfigurationStrategy with
        | None => configure res w
        | Some strategy =>
            strategy (fun ec =>
              if is_operation_canceled ec then
                res no_error              (* Cancel configuration without an error. *)
              else if is_error ec then
                res ec
              else
                configure (fun error =>
                  if negb (is_error error) && negb (is_empty (getBinaryDcfFile m_config)) then
                    SubmitWriteDcf (getBinaryDcfFile m_config) (fun ec => res ec)
                  else res error)) w
        end
    end.

End Engine.

End DCFDriver.

(* ===================================================================== *)
(** * MotorDriver.cpp : the driver object and its event handlers           *)
(* ===================================================================== *)

Module MotorDriver.
Import ErrorCode MotorState.

(** [enum AdditionalErrorCode] of DCFDriver.h *)
Definition NODE_CONFIGURATION_FAILED : Z := 0xAF01.
Definition NODE_BOOT_FAILED          : Z := 0xAF02.
Definition READ_ERROR_FAILED         : Z := 0xAF03.
Definition NODE_MISSING              : Z := 0xAF04.
Definition WRTIE_TO_NODE_ERROR       : Z := 0xAF05.
Definition FIRMWARE_UPDATE_FAILED    : Z := 0xAF06.
Definition OTHER_MOTOR_HAD_ERROR     : Z := 0xAFFF.

(** The six setters of [CommunicationConfig]. *)
Inductive Setter : Set :=
  | motorControlWordSetter
  | motorOperationModeSetter
  | motorPositionSetter
  | motorVelocitySetter
  | motorAccelerationSetter
  | motorDecelerationSetter.

(** Work handed to the executor with [GetExecutor().post]. *)
Inductive Task : Set :=
  | PostSetState (s : State)
  | PostPrepareHoming
  | PostPrepareMove.

(** An entry of [m_callbackOnIDLE]: the callback of the user, or one of the
    two lambdas [home] and [move] enqueue, which post their work. *)
Inductive IdleCallback : Set :=
  | UserCallback (tag : nat)
  | PostingCallback (t : Task).

(** What the driver does that the outside can observe, oldest first in
    [effects].  The text of a message is left out of [ErrorCallback]. *)
Inductive Effect : Set :=
  | SubmitWrite (idx subidx value : Z)           (* SubmitWrite<T>(idx, subidx, value, .) *)
  | SubmitRead (idx subidx : Z)                  (* SubmitRead<uint16_t>(idx, subidx, .) *)
  | CallSetter (s : Setter) (value : Z)          (* m_communicationConfig.<s>(value, .) *)
  | NmtCommandResetNode                          (* master.Command(RESET_NODE, id()) *)
  | Post (t : Task)
  | Invoke (cb : IdleCallback)
  | ErrorCallback (code : Z)                     (* m_errorCallback(code, message) *)
  | BadFunctionCall.                             (* an empty std::function was called *)

#[export] Instance Setter_eq_dec : EqDecision Setter.
Proof. solve_decision. Defined.
#[export] Instance Task_eq_dec : EqDecision Task.
Proof. solve_decision. Defined.
#[export] Instance IdleCallback_eq_dec : EqDecision IdleCallback.
Proof. solve_decision. Defined.
#[export] Instance Effect_eq_dec : EqDecision Effect.
Proof. solve_decision. Defined.

(** The members of [MotorDriver], those inherited from [DCFDriver] first.
    [setter_completes s v] tells how the installed strategy for [s] completes
    a call with value [v]: [Some ec] when it runs the completion callback
    before it returns (the master-SDO and mapped-TPDO strategies do), [None]
    when the callback runs later (the SDO strategy). *)
Record MotorDriver : Type := mk_MotorDriver
  { id : Z;
    m_followingNodeID : Z;
    m_followsNodeID : Z;
    m_errorCallback : bool;                      (* false: nullptr *)
    m_emergencyOccured : bool;
    setter_completes : Setter -> Z -> option error_code;
    m_mainNodeState : State;
    m_followingNodeState : State;
    m_state : State;
    m_statusWord : Z;
    m_currentMoveMode : Z;
    m_moveToPosition : Z;
    m_moveSpeed : Z;
    m_moveAcceleration : Z;
    m_moveDeacceleration : Z;
    m_callbackOnIDLE : list (option IdleCallback);   (* front first *)
    effects : list Effect }.

(** A driver as its constructor and the member initialisers leave it. *)
Definition new_MotorDriver (id : Z) (errorCallback : bool)
    (setters : Setter -> Z -> option error_code) : MotorDriver :=
  {| id := id; m_followingNodeID := 0; m_followsNodeID := 0;
     m_errorCallback := errorCallback; m_emergencyOccured := false;
     setter_completes := setters;
     m_mainNodeState := IDLE; m_followingNodeState := IDLE;
     m_state := INITIAL_STATE; m_statusWord := 0;
     m_currentMoveMode := 0; m_moveToPosition := 0; m_moveSpeed := 0;
     m_moveAcceleration := 0; m_moveDeacceleration := 0;
     m_callbackOnIDLE := []; effects := [] |}.

Definition set_m_state (s : State) (d : MotorDriver) : MotorDriver :=
  {| id := id d; m_followingNodeID := m_followingNodeID d;
     m_followsNodeID := m_followsNodeID d; m_errorCallback := m_errorCallback d;
     m_emergencyOccured := m_emergencyOccured d; setter_completes := setter_completes d;
     m_mainNodeState := m_mainNodeState d; m_followingNodeState := m_followingNodeState d;
     m_state := s; m_statusWord := m_statusWord d;
     m_currentMoveMode := m_currentMoveMode d; m_moveToPosition := m_moveToPosition d;
     m_moveSpeed := m_moveSpeed d; m_moveAcceleration := m_moveAcceleration d;
     m_moveDeacceleration := m_moveDeacceleration d;
     m_callbackOnIDLE := m_callbackOnIDLE d; effects := effects d |}.

Definition set_m_mainNodeState (s : State) (d : MotorDriver) : MotorDriver :=
  {| id := id d; m_followingNodeID := m_followingNodeID d;
     m_followsNodeID := m_followsNodeID d; m_errorCallback := m_errorCallback d;
     m_emergencyOccured := m_emergencyOccured d; setter_completes := setter_completes d;
     m_mainNodeState := s; m_followingNodeState := m_followingNodeState d;
     m_state := m_state d; m_statusWord := m_statusWord d;
     m_currentMoveMode := m_currentMoveMode d; m_moveToPosition := m_moveToPosition d;
     m_moveSpeed := m_moveSpeed d; m_moveAcceleration := m_moveAcceleration d;
     m_moveDeacceleration := m_moveDeacceleration d;
     m_callbackOnIDLE := m_callbackOnIDLE d; effects := effects d |}.

Definition set_m_followingNodeState (s : State) (d : MotorDriver) : MotorDriver :=
  {| id := id d; m_followingNodeID := m_followingNodeID d;
     m_followsNodeID := m_followsNodeID d; m_errorCallback := m_errorCallback d;
     m_emergencyOccured := m_emergencyOccured d; setter_completes := setter_completes d;
     m_mainNodeState := m_mainNodeState d; m_followingNodeState := s;
     m_state := m_state d; m_statusWord := m_statusWord d;
     m_currentMoveMode := m_currentMoveMode d; m_moveToPosition := m_moveToPosition d;
     m_moveSpeed := m_moveSpeed d; m_moveAcceleration := m_moveAcceleration d;
     m_moveDeacceleration := m_moveDeacceleration d;
     m_callbackOnIDLE := m_callbackOnIDLE d; effects := effects d |}.

Definition set_m_statusWord (sw : Z) (d : MotorDriver) : MotorDriver :=
  {| id := id d; m_followingNodeID := m_followingNodeID d;
     m_followsNodeID := m_followsNodeID d; m_errorCallback := m_errorCallback d;
     m_emergencyOccured := m_emergencyOccured d; setter_completes := setter_completes d;
     m_mainNodeState := m_mainNodeState d; m_followingNodeState := m_followingNodeState d;
     m_state := m_state d; m_statusWord := sw;
     m_currentMoveMode := m_currentMoveMode d; m_moveToPosition := m_moveToPosition d;
     m_moveSpeed := m_moveSpeed d; m_moveAcceleration := m_moveAcceleration d;
     m_moveDeacceleration := m_moveDeacceleration d;
     m_callbackOnIDLE := m_callbackOnIDLE d; effects := effects d |}.

Definition set_m_emergencyOccured (b : bool) (d : MotorDriver) : MotorDriver :=
  {| id := id d; m_followingNodeID := m_followingNodeID d;
     m_followsNodeID := m_followsNodeID d; m_errorCallback := m_errorCallback d;
     m_emergencyOccured := b; setter_completes := setter_completes d;
     m_mainNodeState := m_mainNodeState d; m_followingNodeState := m_followingNodeState d;
     m_state := m_state d; m_statusWord := m_statusWord d;
     m_currentMoveMode := m_currentMoveMode d; m_moveToPosition := m_moveToPosition d;
     m_moveSpeed := m_moveSpeed d; m_moveAcceleration := m_moveAcceleration d;
     m_moveDeacceleration := m_moveDeacceleration d;
     m_callbackOnIDLE := m_callbackOnIDLE d; effects := effects d |}.

Definition set_m_callbackOnIDLE (q : list (option IdleCallback)) (d : MotorDriver)
  : MotorDriver :=
  {| id := id d; m_followingNodeID := m_followingNodeID d;
     m_followsNodeID := m_followsNodeID d; m_errorCallback := m_errorCallback d;
     m_emergencyOccured := m_emergencyOccured d; setter_completes := setter_completes d;
     m_mainNodeState := m_mainNodeState d; m_followingNodeState := m_followingNodeState d;
     m_state := m_state d; m_statusWord := m_statusWord d;
     m_currentMoveMode := m_currentMoveMode d; m_moveToPosition := m_moveToPosition d;
     m_moveSpeed := m_moveSpeed d; m_moveAcceleration := m_moveAcceleration d;
     m_moveDeacceleration := m_moveDeacceleration d;
     m_callbackOnIDLE := q; effects := effects d |}.

Definition emit (e : Effect) (d : MotorDriver) : MotorDriver :=
  {| id := id d; m_followingNodeID := m_followingNodeID d;
     m_followsNodeID := m_followsNodeID d; m_errorCallback := m_errorCallback d;
     m_emergencyOccured := m_emergencyOccured d; setter_completes := setter_completes d;
     m_mainNodeState := m_mainNodeState d; m_followingNodeState := m_followingNodeState d;
     m_state := m_state d; m_statusWord := m_statusWord d;
     m_currentMoveMode := m_currentMoveMode d; m_moveToPosition := m_moveToPosition d;
     m_moveSpeed := m_moveSpeed d; m_moveAcceleration := m_moveAcceleration d;
     m_moveDeacceleration := m_moveDeacceleration d;
     m_callbackOnIDLE := m_callbackOnIDLE d; effects := effects d ++ [e] |}.

(** [if (m_errorCallback != nullptr) m_errorCallback(code, message)] *)
Definition report (code : Z) (d : MotorDriver) : MotorDriver :=
  if m_errorCallback d then emit (ErrorCallback code) d else d.

(** [MotorDriver::isSetterOK]; it calls [m_errorCallback] without a test.
    The call of an empty [m_errorCallback] is recorded as [BadFunctionCall];
    where the exception goes from there is in [Completion.isSetterOK]
    below. *)
Definition isSetterOK (error : error_code) (d : MotorDriver) : bool * MotorDriver :=
  if negb (is_error error) then (true, d)
  else (false, if m_errorCallback d then emit (ErrorCallback WRTIE_TO_NODE_ERROR) d
               else emit BadFunctionCall d).

(** A call [m_communicationConfig.<s>(value, callback)].  The callback runs
    here when the strategy completes before it returns.  A later completion
    is an event of its own, which this function leaves out: what the
    callback does then is in [Completion.callSetter] below.  [None] for
    [callback] is [nullptr]. *)
Definition callSetter (s : Setter) (value : Z)
    (callback : option (error_code -> MotorDriver -> MotorDriver))
    (d : MotorDriver) : MotorDriver :=
  let d := emit (CallSetter s value) d in
  match setter_completes d s value, callback with
  | Some error, Some k => k error d
  | _, _ => d
  end.

(** [MotorDriver::prepareMove] *)
Definition prepareMove (d : MotorDriver) : MotorDriver :=
  let d := if negb (m_followingNodeID d =? 0)
           then set_m_followingNodeState PREPARE_MOVE d else d in
  callSetter motorOperationModeSetter 1 (Some (fun error d =>
    let '(ok, d) := isSetterOK error d in
    if negb ok then d else
    callSetter motorControlWordSetter 7 (Some (fun error d =>
      let '(ok, d) := isSetterOK error d in
      if negb ok then d else
      callSetter motorPositionSetter (m_moveToPosition d) (Some (fun error d =>
        let '(ok, d) := isSetterOK error d in
        if negb ok then d else
        callSetter motorVelocitySetter (m_moveSpeed d) (Some (fun error d =>
          let '(ok, d) := isSetterOK error d in
          if negb ok then d else
          callSetter motorAccelerationSetter (m_moveAcceleration d) (Some (fun error d =>
            let '(ok, d) := isSetterOK error d in
            if negb ok then d else
            callSetter motorDecelerationSetter (m_moveDeacceleration d) (Some (fun error d =>
              let '(ok, d) := isSetterOK error d in
              if negb ok then d else
              callSetter motorControlWordSetter (Z.lor (m_currentMoveMode d) 0x011f)
                (Some (fun error d => snd (isSetterOK error d))) d)) d)) d)) d)) d)) d)) d.

(** [MotorDriver::executeMove] *)
Definition executeMove (d : MotorDriver) : MotorDriver :=
  callSetter motorControlWordSetter (Z.lor (m_currentMoveMode d) 0x000f)
    (Some (fun error d => snd (isSetterOK error d))) d.

(** [MotorDriver::processOldestCallbackOnIdle]: the back of the deque. *)
Definition processOldestCallbackOnIdle (d : MotorDriver) : MotorDriver :=
  match List.rev (m_callbackOnIDLE d) with
  | [] => d
  | back :: _ =>
      let d := match back with
               | Some (UserCallback tag) => emit (Invoke (UserCallback tag)) d
               | Some (PostingCallback t) => emit (Post t) d
               | None => d
               end in
      set_m_callbackOnIDLE (List.removelast (m_callbackOnIDLE d)) d
  end.

(** [MotorDriver::handleFault]: the read of the error code object 0x603F. *)
Definition handleFault (d : MotorDriver) : MotorDriver :=
  if negb (m_emergencyOccured d) then emit (SubmitRead 0x603F 0) d else d.

(** The completion lambda of the read in [handleFault]. *)
Definition handleFault_completion (ec : error_code) (value : Z) (d : MotorDriver)
  : MotorDriver :=
  if negb (is_error ec) then
    if negb (value =? 0) then report value d else d
  else report READ_ERROR_FAILED d.

(** [MotorDriver::performFaultReset] *)
Definition performFaultReset (d : MotorDriver) : MotorDriver :=
  let recoveryFrom := determineStateFromStatusWord INITIAL_STATE (m_statusWord d) (id d) in
  if bool_decide (recoveryFrom = FAULT_STATE) then emit (SubmitWrite 0x6040 0 0x0080) d
  else if bool_decide (recoveryFrom = INITIAL_POWER_ON) then
    emit (Post (PostSetState CYCLE_POWER_SHUTDOWN)) d
  else if bool_decide (recoveryFrom = INITIAL_POWER_OFF) then
    emit (Post (PostSetState POWER_ON_DISABLE_OPERATION)) d
  else d.

(** [MotorDriver::setState].  The time stamps kept for logging are left out. *)
Definition setState (newState : State) (d : MotorDriver) : MotorDriver :=
  if bool_decide (m_state d <> newState) then
    let d :=
      match newState with
      | INITIAL_STATE | INITIAL_POWER_ON | INITIAL_POWER_OFF => d
      | CYCLE_POWER_SHUTDOWN => emit (SubmitWrite 0x6040 0 0x0006) d
      | POWER_ON_DISABLE_OPERATION => callSetter motorControlWordSetter 0x0007 None d
      | PREPARE_MOVE => prepareMove d
      | READY_TO_MOVE => executeMove d
      | MOVING => d
      | PREPARE_HOMING => d
      | READY_FOR_HOMING => emit (SubmitWrite 0x6040 0 0x001f) d
      | HOMING => d
      | IDLE => processOldestCallbackOnIdle d
      | FAULT_STATE =>
          let d := set_m_callbackOnIDLE [] d in
          if bool_decide (m_state d <> INITIAL_STATE) then handleFault d else d
      | FAULT_RESET => performFaultReset d
      | NODE_RESET => emit NmtCommandResetNode d
      end in
    set_m_state newState d
  else d.

(** The lambda [isRelevantStateForFollowerRelationship]. *)
Definition isRelevantStateForFollowerRelationship (s : State) : bool :=
  bool_decide (s = PREPARE_MOVE) || bool_decide (s = READY_TO_MOVE)
  || bool_decide (s = MOVING) || bool_decide (s = IDLE).

(** [MotorDriver::handleStatusWordChange] *)
Definition handleStatusWordChange (statusWord : Z) (statusWordOfFollowerChanged : bool)
    (d : MotorDriver) : MotorDriver :=
  let d := if negb statusWordOfFollowerChanged then set_m_statusWord statusWord d else d in
  if m_followsNodeID d =? 0 then
    if m_followingNodeID d =? 0 then
      (* no follower *)
      setState (determineStateFromStatusWord (m_state d) statusWord (id d)) d
    else
      let d :=
        if negb statusWordOfFollowerChanged then
          set_m_mainNodeState
            (determineStateFromStatusWord (m_mainNodeState d) statusWord (id d)) d
        else
          set_m_followingNodeState
            (determineStateFromStatusWord (m_followingNodeState d) statusWord
               (m_followingNodeID d)) d in
      if bool_decide (m_mainNodeState d = READY_TO_MOVE)
         && bool_decide (m_followingNodeState d = READY_TO_MOVE)
         && bool_decide (m_state d = PREPARE_MOVE) then
        setState READY_TO_MOVE d
      else if (bool_decide (m_mainNodeState d = MOVING)
               || bool_decide (m_followingNodeState d = MOVING))
              && bool_decide (m_state d = READY_TO_MOVE) then
        setState MOVING d
      else if bool_decide (m_mainNodeState d = IDLE)
              && bool_decide (m_followingNodeState d = IDLE)
              && bool_decide (m_state d = POWER_ON_DISABLE_OPERATION) then
        setState IDLE d
      else if negb statusWordOfFollowerChanged
              && negb (isRelevantStateForFollowerRelationship (m_mainNodeState d)) then
        setState (m_mainNodeState d) d
      else d
  else
    if negb statusWordOfFollowerChanged then
      (* Handle the local state machine of a follower *)
      let nextState := determineStateFromStatusWord (m_state d) statusWord (id d) in
      if negb (isRelevantStateForFollowerRelationship nextState)
         || (bool_decide (m_state d = POWER_ON_DISABLE_OPERATION)
             && bool_decide (nextState = IDLE)) then
        setState nextState d
      else d
    else d.

(** [DCFDriver::OnEmcy], inherited.  The error register and the five
    manufacturer bytes only go into the text of the message. *)
Definition OnEmcy (emergencyErrorCode : Z) (d : MotorDriver) : MotorDriver :=
  let d := set_m_emergencyOccured (negb (emergencyErrorCode =? 0)) d in
  if m_errorCallback d && m_emergencyOccured d
  then emit (ErrorCallback emergencyErrorCode) d
  else d.

(** ** The setter chain with its completions

    A strategy made by [createSDOSetter] returns when the SDO is submitted
    and runs the completion callback on the confirmation.  Here the callback
    handed to a setter is kept until then, and the exception of an empty
    [m_errorCallback] leaves the chain. *)
Module Completion.

(** What a chain of setter calls has come to: the last callback has
    returned; a strategy holds [callback] until the confirmation of its
    request; or [std::bad_function_call] was thrown. *)
Inductive Chain : Type :=
  | Returned (d : MotorDriver)
  | Awaiting (d : MotorDriver) (callback : error_code -> MotorDriver -> Chain)
  | Thrown (d : MotorDriver).

(** How [isSetterOK] ends: with [return ok], or with the exception of the
    empty [m_errorCallback], before [return false]. *)
Inductive SetterOK : Type :=
  | Value (ok : bool) (d : MotorDriver)
  | Throws (d : MotorDriver).

(** [MotorDriver::isSetterOK] *)
Definition isSetterOK (error : error_code) (d : MotorDriver) : SetterOK :=
  if negb (is_error error) then Value true d
  else if m_errorCallback d then Value false (emit (ErrorCallback WRTIE_TO_NODE_ERROR) d)
  else Throws d.

(** A call [m_communicationConfig.<s>(value, callback)], the last statement
    of its caller. *)
Definition callSetter (s : Setter) (value : Z)
    (callback : error_code -> MotorDriver -> Chain) (d : MotorDriver) : Chain :=
  let d := emit (CallSetter s value) d in
  match setter_completes d s value with
  | Some error => callback error d
  | None => Awaiting d callback
  end.

(** [if (!isSetterOK(error, message)) return;] and then [next]. *)
Definition whenSetterOK (error : error_code) (next : MotorDriver -> Chain)
    (d : MotorDriver) : Chain :=
  match isSetterOK error d with
  | Value true d => next d
  | Value false d => Returned d
  | Throws d => Thrown d
  end.

(** [MotorDriver::prepareMove] *)
Definition prepareMove (d : MotorDriver) : Chain :=
  let d := if negb (m_followingNodeID d =? 0)
           then set_m_followingNodeState PREPARE_MOVE d else d in
  callSetter motorOperationModeSetter 1 (fun error =>
    whenSetterOK error (
    callSetter motorControlWordSetter 7 (fun error =>
      whenSetterOK error (fun d =>
      callSetter motorPositionSetter (m_moveToPosition d) (fun error =>
        whenSetterOK error (fun d =>
        callSetter motorVelocitySetter (m_moveSpeed d) (fun error =>
          whenSetterOK error (fun d =>
          callSetter motorAccelerationSetter (m_moveAcceleration d) (fun error =>
            whenSetterOK error (fun d =>
            callSetter motorDecelerationSetter (m_moveDeacceleration d) (fun error =>
              whenSetterOK error (fun d =>
              callSetter motorControlWordSetter (Z.lor (m_currentMoveMode d) 0x011f)
                (fun error => whenSetterOK error Returned) d)) d)) d)) d)) d)))) d.

(** The confirmation of the pending request arrives with [error]: the
    strategy runs the callback it holds. *)
Definition confirm (error : error_code) (c : Chain) : Chain :=
  match c with
  | Awaiting d callback => callback error d
  | _ => c
  end.

End Completion.

End MotorDriver.

(* ===================================================================== *)
(** * DCFDriverConfig.cpp : the configured objects of a dictionary         *)
(* ===================================================================== *)

Module DCFDriverConfigImpl.

(** What the two functions read of a sub-object ([lely::COSub]) and of an
    object ([lely::COObj]) of the device description. *)
Record COSub : Set := mk_COSub
  { getSubidx : Z; getAccess : Z; getFlags : Z; getType : Z }.

Record COObj : Set := mk_COObj
  { getIdx : Z; subs : list COSub }.

(** [lely::CODev]: the objects in the order [getIdx()] lists them. *)
Definition CODev : Set := list COObj.

(** [CODev::find(idx)], [COObj::find(subidx)]: [None] is the null pointer. *)
Definition find_obj (dev : CODev) (idx : Z) : option COObj :=
  List.find (fun o => getIdx o =? idx) dev.

Definition find_sub (obj : COObj) (subidx : Z) : option COSub :=
  List.find (fun s => getSubidx s =? subidx) (subs obj).

Section Flags.

(** The access and flag bits of lely/co/obj.h the filter tests. *)
Variable CO_ACCESS_READ : Z.
Variable CO_ACCESS_WRITE : Z.
Variable CO_OBJ_FLAGS_VAL_SET_EXPLICITLY : Z.

(** The condition of the inner loop: readable, writable, value set
    explicitly in the DCF. *)
Definition is_configured (sub : COSub) : bool :=
  negb (Z.land (getAccess sub) CO_ACCESS_READ =? 0)
  && negb (Z.land (getAccess sub) CO_ACCESS_WRITE =? 0)
  && negb (Z.land (getFlags sub) CO_OBJ_FLAGS_VAL_SET_EXPLICITLY =? 0).

(** The sub-indices of [sdoObject] that pass the condition, in the order
    [getSubidx()] lists them; each is looked up again with [find]. *)
Definition configured_subIndices (sdoObject : COObj) : list Z :=
  List.filter
    (fun sdoSubIndex =>
       match find_sub sdoObject sdoSubIndex with
       | Some sdoSubObject => is_configured sdoSubObject
       | None => false                       (* not reached: the sub-index is listed *)
       end)
    (map getSubidx (subs sdoObject)).

(** [DCFDriverConfig::getSDOIndicesForDriverConfiguration]: an entry is
    pushed for every index and popped again if no sub-index was added. *)
Definition getSDOIndicesForDriverConfiguration (dev : CODev) : list (Z * list Z) :=
  fold_left
    (fun result sdoIndex =>
       match find_obj dev sdoIndex with
       | Some sdoObject =>
           let subIndexResult := configured_subIndices sdoObject in
           match subIndexResult with
           | [] => result
           | _ :: _ => result ++ [(sdoIndex, subIndexResult)]
           end
       | None => result                      (* not reached: the index is listed *)
       end)
    (map getIdx dev) [].

End Flags.

(** [DCFDriverConfig::getTypeOfObject] *)
Definition getTypeOfObject (dev : CODev) (sdoIndex sdoSubIndex : Z) : Z :=
  match find_obj dev sdoIndex with
  | None => 0
  | Some sdoObject =>
      match find_sub sdoObject sdoSubIndex with
      | None => 0
      | Some sdoSubObject => getType sdoSubObject
      end
  end.

End DCFDriverConfigImpl.

(* ===================================================================== *)
(** * DCFConfigMaster.cpp : the discovery of the slaves                    *)
(* ===================================================================== *)

Module MasterSetup.
Import DCFConfigMaster.

Section Discovery.

(** [GetUploadFile(idx, subidx, error)] on the master's dictionary: the file
    name stored there, [None] for the null pointer. *)
Variable GetUploadFile : Z -> Z -> option String.string.

(** [m_loadConfigStartedCallback != nullptr] *)
Variable m_loadConfigStartedCallback : bool.

(** [DCFDriverConfig(textualDcfFileName, binaryDcfFileName, id)] returns:
    the constructor of [lely::canopen::Device] could load the files (it
    throws otherwise). *)
Variable loadable : String.string -> String.string -> bool.

(** [m_driverFactory] holds a function (calling an empty [std::function]
    throws). *)
Variable m_driverFactory : bool.

(** The body of the two loops for one [subIndex], with the file names the
    configuration is constructed from.  [None]: an exception has left the
    function.  Second component: the arguments
    [m_loadConfigStartedCallback] was called with so far.  The driver the
    factory builds from the configuration has the node ID [subIndex] and,
    from the [DCFDriver] constructor, both follower slots 0. *)
Definition initializeDevice (idx : Z)
    (files : String.string -> String.string * String.string)
    (st : option (Master * list Z)) (subIndex : Z) : option (Master * list Z) :=
  match st with
  | None => None
  | Some (m, started) =>
      match GetUploadFile idx subIndex with
      | Some filename =>
          if negb (DCFDriver.is_empty filename) then
            let started :=
              if m_loadConfigStartedCallback then started ++ [subIndex] else started in
            if loadable (fst (files filename)) (snd (files filename)) && m_driverFactory
            then Some (registerDriver subIndex (mk_DCFDriver 0 0) m, started)
            else None
          else st
      | None => st                           (* no break: the scan goes on *)
      end
  end.

(** [DCFConfigMaster::initializeDevicesFromTextualDCF] *)
Definition initializeDevicesFromTextualDCF (st : option (Master * list Z))
  : option (Master * list Z) :=
  fold_left
    (initializeDevice 0x1F20 (fun filename => (filename, String.EmptyString)))
    (seqZ 1 127) st.

(** [DCFConfigMaster::initializeDevicesForBinaryDCF] *)
Definition initializeDevicesForBinaryDCF (st : option (Master * list Z))
  : option (Master * list Z) :=
  fold_left
    (initializeDevice 0x1F22 (fun filename => ("dummy.dcf"%string, filename)))
    (seqZ 1 127) st.

(** [DCFConfigMaster::configureDrivers] *)
Definition configureDrivers (m : Master) : option (Master * list Z) :=
  initializeDevicesForBinaryDCF (initializeDevicesFromTextualDCF (Some (m, []))).

End Discovery.

End MasterSetup.

(* ===================================================================== *)
(** * MotorDriver.cpp : the user API and the NMT events                    *)
(* ===================================================================== *)

Module MotorApi.
Import ErrorCode MotorState MotorDriver.

(** [MotorDriver::addCallbackOnIdle]: [push_front]. *)
Definition addCallbackOnIdle (callback : option IdleCallback) (d : MotorDriver)
  : MotorDriver :=
  set_m_callbackOnIDLE (callback :: m_callbackOnIDLE d) d.

(** The callback a user hands to [home], [move] or [recoverFromFault];
    [None] is [nullptr], the default. *)
Definition user (callbackOnIDLE : option nat) : option IdleCallback :=
  match callbackOnIDLE with
  | Some tag => Some (UserCallback tag)
  | None => None
  end.

(** [MotorDriver::prepareHoming] *)
Definition prepareHoming (method researchSpeed releaseSpeed accel offset : Z)
    (d : MotorDriver) : MotorDriver :=
  let d := setState PREPARE_HOMING d in
  let d := emit (SubmitWrite 0x6060 0 1) d in
  let d := emit (SubmitWrite 0x6098 0 method) d in
  let d := emit (SubmitWrite 0x6099 1 researchSpeed) d in
  let d := emit (SubmitWrite 0x6099 2 releaseSpeed) d in
  let d := emit (SubmitWrite 0x609A 0 accel) d in
  let d := emit (SubmitWrite 0x607C 0 offset) d in
  let d := emit (SubmitWrite 0x6060 0 6) d in
  emit (SubmitWrite 0x6040 0 0x000f) d.

(** [MotorDriver::home].  The lambda it enqueues outside IDLE posts
    [prepareHoming] with the arguments it captured. *)
Definition home (method researchSpeed releaseSpeed accel offset : Z)
    (callbackOnIDLE : option nat) (d : MotorDriver) : MotorDriver :=
  if bool_decide (m_state d = IDLE) then
    prepareHoming method researchSpeed releaseSpeed accel offset
      (addCallbackOnIdle (user callbackOnIDLE) d)
  else
    addCallbackOnIdle (user callbackOnIDLE)
      (addCallbackOnIdle (Some (PostingCallback PostPrepareHoming)) d).

(** The five assignments at the head of [move]. *)
Definition set_move_job (mode position speed accel deaccel : Z) (d : MotorDriver)
  : MotorDriver :=
  {| id := id d; m_followingNodeID := m_followingNodeID d;
     m_followsNodeID := m_followsNodeID d; m_errorCallback := m_errorCallback d;
     m_emergencyOccured := m_emergencyOccured d; setter_completes := setter_completes d;
     m_mainNodeState := m_mainNodeState d; m_followingNodeState := m_followingNodeState d;
     m_state := m_state d; m_statusWord := m_statusWord d;
     m_currentMoveMode := mode; m_moveToPosition := position;
     m_moveSpeed := speed; m_moveAcceleration := accel;
     m_moveDeacceleration := deaccel;
     m_callbackOnIDLE := m_callbackOnIDLE d; effects := effects d |}.

(** The lambda [prepareMove] of [move]; it is what the posted task runs. *)
Definition move_prepareMove (d : MotorDriver) : MotorDriver :=
  let d := if negb (m_followingNodeID d =? 0)
           then set_m_mainNodeState PREPARE_MOVE d else d in
  setState PREPARE_MOVE d.

(** [MotorDriver::move] *)
Definition move (mode position speed accel deaccel : Z) (callbackOnIDLE : option nat)
    (d : MotorDriver) : MotorDriver :=
  let d := set_move_job mode position speed accel deaccel d in
  if bool_decide (m_state d = IDLE) then
    move_prepareMove (addCallbackOnIdle (user callbackOnIDLE) d)
  else
    addCallbackOnIdle (user callbackOnIDLE)
      (addCallbackOnIdle (Some (PostingCallback PostPrepareMove)) d).

(** The completion lambda of the write [setState] submits on entering
    READY_FOR_HOMING; it does not look at the error code. *)
Definition homing_write_completion (d : MotorDriver) : MotorDriver :=
  setState HOMING d.

(** [DCFDriver::setFollowingNodeID] and [DCFDriver::setFollowsNodeID], as
    the follower inference calls them on a driver. *)
Definition setFollowingNodeID (nodeID : Z) (d : MotorDriver) : MotorDriver :=
  {| id := id d; m_followingNodeID := nodeID;
     m_followsNodeID := m_followsNodeID d; m_errorCallback := m_errorCallback d;
     m_emergencyOccured := m_emergencyOccured d; setter_completes := setter_completes d;
     m_mainNodeState := m_mainNodeState d; m_followingNodeState := m_followingNodeState d;
     m_state := m_state d; m_statusWord := m_statusWord d;
     m_currentMoveMode := m_currentMoveMode d; m_moveToPosition := m_moveToPosition d;
     m_moveSpeed := m_moveSpeed d; m_moveAcceleration := m_moveAcceleration d;
     m_moveDeacceleration := m_moveDeacceleration d;
     m_callbackOnIDLE := m_callbackOnIDLE d; effects := effects d |}.

Definition setFollowsNodeID (nodeID : Z) (d : MotorDriver) : MotorDriver :=
  {| id := id d; m_followingNodeID := m_followingNodeID d;
     m_followsNodeID := nodeID; m_errorCallback := m_errorCallback d;
     m_emergencyOccured := m_emergencyOccured d; setter_completes := setter_completes d;
     m_mainNodeState := m_mainNodeState d; m_followingNodeState := m_followingNodeState d;
     m_state := m_state d; m_statusWord := m_statusWord d;
     m_currentMoveMode := m_currentMoveMode d; m_moveToPosition := m_moveToPosition d;
     m_moveSpeed := m_moveSpeed d; m_moveAcceleration := m_moveAcceleration d;
     m_moveDeacceleration := m_moveDeacceleration d;
     m_callbackOnIDLE := m_callbackOnIDLE d; effects := effects d |}.

(** [MotorDriver::retriggerFaultReset] *)
Definition retriggerFaultReset (d : MotorDriver) : MotorDriver :=
  if bool_decide (m_state d = FAULT_RESET) then setState NODE_RESET d else d.

(** [MotorDriver::recoverFromFault].  Second component: the one-second
    watchdog was armed with [SubmitWait]. *)
Definition recoverFromFault (callbackOnIDLE : option nat) (d : MotorDriver)
  : MotorDriver * bool :=
  let d := addCallbackOnIdle (user callbackOnIDLE) d in
  if bool_decide (m_state d = FAULT_STATE) then (setState NODE_RESET d, false)
  else if bool_decide (m_state d = FAULT_RESET) then (d, true)
  else if bool_decide (m_state d <> IDLE) then (d, false)
  else (processOldestCallbackOnIdle d, false).

(** The completion of the watchdog armed by [recoverFromFault]. *)
Definition watchdog_fired (error : error_code) (d : MotorDriver) : MotorDriver :=
  if negb (is_error error) then retriggerFaultReset d else d.

(** [lely::canopen::NmtCommand] and [lely::canopen::NmtState]. *)
Inductive NmtCommand : Set :=
  | Command_START | Command_STOP | Command_ENTER_PREOP
  | Command_RESET_NODE | Command_RESET_COMM.

Inductive NmtState : Set :=
  | State_BOOTUP | State_STOP | State_START | State_RESET_NODE
  | State_RESET_COMM | State_PREOP.

#[export] Instance NmtCommand_eq_dec : EqDecision NmtCommand.
Proof. solve_decision. Defined.
#[export] Instance NmtState_eq_dec : EqDecision NmtState.
Proof. solve_decision. Defined.

(** The driver with the members the NMT handlers use.
    [nmtStateChangedCalls]: the arguments [m_nmtStateChangedCallback] was
    called with, oldest first. *)
Record MotorNode : Type := mk_MotorNode
  { motor : MotorDriver;
    m_masterNmtState : NmtCommand;
    m_nodeNmtState : NmtState;
    m_nmtStateChangedCallback : bool;            (* false: nullptr *)
    nmtStateChangedCalls : list NmtState }.

(** The node as constructed: both NMT members are STOP. *)
Definition new_MotorNode (d : MotorDriver) (nmtStateChangedCallback : bool) : MotorNode :=
  mk_MotorNode d Command_STOP State_STOP nmtStateChangedCallback [].

Definition with_motor (f : MotorDriver -> MotorDriver) (n : MotorNode) : MotorNode :=
  mk_MotorNode (f (motor n)) (m_masterNmtState n) (m_nodeNmtState n)
    (m_nmtStateChangedCallback n) (nmtStateChangedCalls n).

(** [MotorDriver::handleInitialStateSwitching] *)
Definition handleInitialStateSwitching (n : MotorNode) : MotorNode :=
  if bool_decide (m_masterNmtState n = Command_START)
     && bool_decide (m_nodeNmtState n = State_START) then
    if bool_decide (m_state (motor n) = FAULT_STATE)
       || bool_decide (m_state (motor n) = NODE_RESET) then
      with_motor (setState FAULT_RESET) n
    else if bool_decide (m_state (motor n) = INITIAL_POWER_ON) then
      with_motor (setState CYCLE_POWER_SHUTDOWN) n
    else if bool_decide (m_state (motor n) = INITIAL_POWER_OFF) then
      with_motor (setState POWER_ON_DISABLE_OPERATION) n
    else n
  else n.

(** [DCFDriver::OnBoot]: a boot error goes to the error callback;
    'B' (66) is "node missing". *)
Definition DCFDriver_OnBoot (es : Z) (d : MotorDriver) : MotorDriver :=
  if negb (es =? 0) && m_errorCallback d then
    if es =? 66 then emit (ErrorCallback NODE_MISSING) d
    else emit (ErrorCallback NODE_BOOT_FAILED) d
  else d.

(** [MotorDriver::OnBoot] *)
Definition OnBoot (st : NmtState) (es : Z) (n : MotorNode) : MotorNode :=
  let n := with_motor (DCFDriver_OnBoot es) n in
  if es =? 0 then
    handleInitialStateSwitching
      (mk_MotorNode (motor n) (m_masterNmtState n) State_START
         (m_nmtStateChangedCallback n) (nmtStateChangedCalls n))
  else n.

(** [MotorDriver::OnConfig]: the lambda it hands to [DCFDriver::OnConfig],
    called with the result of the configuration.  Second component: the
    error code [res] is called with; [None] when [res] is not called yet
    (the read of the status word 0x6041 is under way). *)
Definition OnConfig_configured (ec : error_code) (d : MotorDriver)
  : MotorDriver * option error_code :=
  if negb (is_error ec) then
    if bool_decide (m_state d = INITIAL_STATE) then (emit (SubmitRead 0x6041 0) d, None)
    else (d, Some ec)
  else (report NODE_CONFIGURATION_FAILED d, Some ec).

(** The completion lambda of that read; it uses [value] whatever [ec] is. *)
Definition OnConfig_statusWord_read (ec : error_code) (value : Z) (d : MotorDriver)
  : MotorDriver * option error_code :=
  let d := set_m_statusWord value d in
  (setState (determineStateFromStatusWord (m_state d) value (id d)) d, Some ec).

(** [MotorDriver::OnCommand]; the [OnCommand] of the base classes is empty. *)
Definition OnCommand (cs : NmtCommand) (n : MotorNode) : MotorNode :=
  handleInitialStateSwitching
    (mk_MotorNode (motor n) cs (m_nodeNmtState n)
       (m_nmtStateChangedCallback n) (nmtStateChangedCalls n)).

(** [MotorDriver::OnState], with [DCFDriver::OnState] first. *)
Definition OnState (st : NmtState) (n : MotorNode) : MotorNode :=
  handleInitialStateSwitching
    (mk_MotorNode (motor n) (m_masterNmtState n) st
       (m_nmtStateChangedCallback n)
       (if m_nmtStateChangedCallback n then nmtStateChangedCalls n ++ [st]
        else nmtStateChangedCalls n)).

End MotorApi.

(* ===================================================================== *)
(** * Runs and observations the statements below are about                *)
(* ===================================================================== *)

Module Boot.
Import DCFConfigMaster.

(** A boot notification [OnBoot(id, st, es, what)]: the node and its CiA-302
    error status ([es = 0]: booted successfully). *)
Definition BootEvent : Set := (Z * Z)%type.

(** The master after a sequence of boot notifications, oldest first. *)
Definition run_boots (boots : list BootEvent) (m : Master) : Master :=
  fold_left (fun m b => OnBoot (fst b) (snd b) m) boots m.

(** How often the "all booted" milestone, [m_bootCompletedCallback(0)],
    has fired. *)
Definition all_booted_count (m : Master) : nat :=
  count_occ MasterEvent_eq_dec (events m) (BootCompletedCallback 0).

(** Every pending node reports a successful boot, one after the other. *)
Definition boot_all (nodes : list Z) : list BootEvent :=
  map (fun id => (id, 0)) nodes.

(** What reaches the master over time: boot notifications and calls of
    [reset()]. *)
Inductive MasterCall : Set :=
  | CallOnBoot (id es : Z)
  | CallReset.

Definition run_call (m : Master) (c : MasterCall) : Master :=
  match c with
  | CallOnBoot id es => OnBoot id es m
  | CallReset => reset m
  end.

Definition run_calls (calls : list MasterCall) (m : Master) : Master :=
  fold_left run_call calls m.

Fixpoint resets_in (calls : list MasterCall) : nat :=
  match calls with
  | [] => 0
  | CallReset :: rest => S (resets_in rest)
  | CallOnBoot _ _ :: rest => resets_in rest
  end.

(** Boot notifications come from nodes 1..127. *)
Definition valid_call (c : MasterCall) : Prop :=
  match c with
  | CallOnBoot id _ => 1 <= id <= 127
  | CallReset => True
  end.

End Boot.

(** ** The PDO activation protocol of the specification (section 4.1)

    A second definition, after the words of the specification: the protocol
    is a list of steps that run one after the other, each started when the
    one before it has completed successfully; a failing step ends the
    configuration with the ConfigErrorContext of that step. *)
Module Protocol.
Import ErrorCode DCFConfigMaster DCFDriver.

Inductive PdoStep : Set :=
  | ReadRemote (T : CType) (index subIndex : Z)        (* the value read is kept *)
  | WriteInvalidated (T : CType) (index subIndex : Z)  (* the kept value | 0x80000000 *)
  | Write (T : CType) (index subIndex value : Z)
  | Copy (T : CType) (index subIndex : Z)              (* local value to remote *)
  | CopyIfPresent (T : CType) (index subIndex : Z)     (* skipped if locally absent *)
  | CopyDeclared (index subIndex : Z).                 (* typed as the OD declares *)

Section Steps.

Variable config : DCFDriverConfig.
Variable node : Node.

(** Send [req]; go on with [ok] if the node accepts, else abort. *)
Definition request (req : SdoRequest) (failure : error_code -> error_code)
    (abort : Callback) (ok : Z -> Run) : Run :=
  fun w =>
    let w' := mk_World (master w) (requests w ++ [req]) in
    if is_error (fst (reply node (requests w) req))
    then abort (failure (fst (reply node (requests w) req))) w'
    else ok (snd (reply node (requests w) req)) w'.

Definition copy (T : CType) (index subIndex : Z) (abort : Callback) (ok : Run) : Run :=
  if is_error (fst (Read config T index subIndex))
  then abort (config_error READ_LOCAL_VALUE index subIndex (fst (Read config T index subIndex)))
  else request (SdoWrite T index subIndex (snd (Read config T index subIndex)))
         (config_error WRITE_REMOTE_SDO index subIndex) abort (fun _ => ok).

Definition locally_absent (ec : error_code) : bool :=
  (ec_value ec =? 0x06020000) || (ec_value ec =? 0x06090011).

Fixpoint run_steps (steps : list PdoStep) (kept : Z) (abort : Callback) (done : Run)
  : Run :=
  match steps with
  | [] => done
  | ReadRemote T index subIndex :: rest =>
      request (SdoRead T index subIndex) (config_error READ_REMOTE_SDO index subIndex)
        abort (fun value => run_steps rest value abort done)
  | WriteInvalidated T index subIndex :: rest =>
      request (SdoWrite T index subIndex (Z.lor kept 0x80000000))
        (config_error WRITE_REMOTE_SDO index subIndex)
        abort (fun _ => run_steps rest kept abort done)
  | Write T index subIndex value :: rest =>
      request (SdoWrite T index subIndex value)
        (config_error WRITE_REMOTE_SDO index subIndex)
        abort (fun _ => run_steps rest kept abort done)
  | Copy T index subIndex :: rest =>
      copy T index subIndex abort (run_steps rest kept abort done)
  | CopyIfPresent T index subIndex :: rest =>
      if locally_absent (fst (Read config T index subIndex))
      then run_steps rest kept abort done
      else copy T index subIndex abort (run_steps rest kept abort done)
  | CopyDeclared index subIndex :: rest =>
      match supported_type (getTypeOfObject config index subIndex) with
      | Some T => copy T index subIndex abort (run_steps rest kept abort done)
      | None =>
          abort (config_error WRITE_REMOTE_SDO index subIndex
                   (mk_error_code SdoErrc_DATA SdoCategory))
      end
  end.

End Steps.

(** The eight steps listed one by one, each copy unconditional, for the
    control object [I] and
    the configured sub-indices of its mapping object [I + 0x200]. *)
Definition claimed_protocol (I : Z) (mappingSubIndices : list Z) : list PdoStep :=
  [ ReadRemote uint32_t I 1;
    WriteInvalidated uint32_t I 1;
    Copy uint8_t I 2;
    Copy uint8_t I 3;
    Write uint8_t (I + 0x200) 0 0 ]
  ++ map (CopyDeclared (I + 0x200)) (List.filter (fun s => 0 <? s) mappingSubIndices)
  ++ [ Copy uint8_t (I + 0x200) 0;
       Copy uint32_t I 1 ].

(** The same with step 4 as section 4.1 words it: the inhibit time is
    copied if the local dictionary has it. *)
Definition protocol (I : Z) (mappingSubIndices : list Z) : list PdoStep :=
  [ ReadRemote uint32_t I 1;
    WriteInvalidated uint32_t I 1;
    Copy uint8_t I 2;
    CopyIfPresent uint8_t I 3;
    Write uint8_t (I + 0x200) 0 0 ]
  ++ map (CopyDeclared (I + 0x200)) (List.filter (fun s => 0 <? s) mappingSubIndices)
  ++ [ Copy uint8_t (I + 0x200) 0;
       Copy uint32_t I 1 ].


(** ConfigErrorContext{phase = WriteRemote, index, subindex, underlying = SDO_DATA} *)
Definition unsupported_type_error (index subIndex : Z) : error_code :=
  config_error WRITE_REMOTE_SDO index subIndex (mk_error_code SdoErrc_DATA SdoCategory).


(** The world after further requests. *)
Definition sent (reqs : list SdoRequest) (w : World) : World :=
  mk_World (master w) (requests w ++ reqs).

(** [I] is the index of a PDO communication ("control") object. *)
Definition is_control_object (I : Z) : Prop :=
  RECEIVE_PDO_CONTROL_START <= I <= RECEIVE_PDO_CONTROL_END
  \/ TRANSMIT_PDO_CONTROL_START <= I <= TRANSMIT_PDO_CONTROL_END.

(** The mapping object of [I] is among the configured objects, with its
    sub-indices in ascending order from sub-index 0 on. *)
Definition mapping_configured (config : DCFDriverConfig) (I : Z) (subIndices : list Z)
  : Prop :=
  List.find (fun sdo => fst sdo =? I + 0x200) (getSDOIndicesForDriverConfiguration config)
  = Some (I + 0x200, subIndices)
  /\ List.hd_error subIndices = Some 0
  /\ StronglySorted Z.lt subIndices.

End Protocol.

Module Followers.
Import ErrorCode DCFConfigMaster DCFDriver.

(** One run of the follower inference: the driver configured by the first
    component handles its RPDO control object at the index given second. *)
Definition Inference : Type := (DCFDriverConfig * Z)%type.

(** The node that runs an inference and the COB-ID it claims. *)
Definition claimant (e : Inference) : Z := getDefaultNodeID (fst e).

Definition claimed_cobID (e : Inference) : Z :=
  Z.land (snd (Read (fst e) uint32_t (snd e) 1)) 0x1FFFFFFF.

(** The master after the inferences, in the order the drivers are
    configured; [None]: one of them was lost on the way. *)
Fixpoint run_inference (evs : list Inference) (m : Master) : option Master :=
  match evs with
  | [] => Some m
  | e :: rest =>
      match configureFollowerRelationship (fst e) (snd e) m with
      | None => None
      | Some m' => run_inference rest m'
      end
  end.

(** The follower-pair invariant of the specification, over the registered
    drivers: [a] follows [b] exactly when [b] is followed by [a]; the main has
    the smaller node ID; no driver has both slots set. *)
Definition follower_invariant (m : Master) : Prop :=
  (forall a b da db,
      m_drivers m !! a = Some da -> m_drivers m !! b = Some db ->
      (m_followsNodeID da = b <-> m_followingNodeID db = a))
  /\ (forall a da,
        m_drivers m !! a = Some da ->
        (m_followsNodeID da <> 0 -> m_followsNodeID da < a)
        /\ (m_followingNodeID da <> 0 -> a < m_followingNodeID da))
  /\ (forall a da,
        m_drivers m !! a = Some da ->
        ~ (m_followsNodeID da <> 0 /\ m_followingNodeID da <> 0)).

(** Two different nodes claim a common RPDO COB-ID. *)
Definition shares (evs : list Inference) (a b : Z) : Prop :=
  a <> b /\ exists e1 e2,
    e1 ∈ evs /\ e2 ∈ evs /\ claimant e1 = a /\ claimant e2 = b
    /\ claimed_cobID e1 = claimed_cobID e2.

(** The drivers as constructed, and nothing claimed yet. *)
Definition fresh (m : Master) : Prop :=
  m_firstNodeIDUsing_RPDO_COB_ID m = ∅
  /\ forall a da, m_drivers m !! a = Some da ->
       1 <= a <= 127 /\ m_followsNodeID da = 0 /\ m_followingNodeID da = 0.

(** The inference is run by a registered driver whose RPDO control object
    has a COB-ID entry to read. *)
Definition runnable (m : Master) (e : Inference) : Prop :=
  is_Some (m_drivers m !! claimant e)
  /\ is_error (fst (Read (fst e) uint32_t (snd e) 1)) = false.

(** The link [resolveFollowerRelationship] makes between a main and its
    follower, on the map of drivers. *)
Definition link (main follower : Z) (drivers : gmap Z DCFDriver) : gmap Z DCFDriver :=
  alter (setFollowingNodeID follower) main (alter (setFollowsNodeID main) follower drivers).

(** What holds of the master while the inferences [all] run from [m0]:
    the same drivers are registered, a COB-ID is registered for a node that
    claims it, and every set slot points to a peer that shares a COB-ID,
    lies on the right side and points back. *)
Definition linked (all : list Inference) (m0 m : Master) : Prop :=
  (forall a, is_Some (m_drivers m !! a) <-> is_Some (m_drivers m0 !! a))
  /\ (forall c n, m_firstNodeIDUsing_RPDO_COB_ID m !! c = Some n ->
        exists e, e ∈ all /\ claimant e = n /\ claimed_cobID e = c)
  /\ (forall a da, m_drivers m !! a = Some da -> m_followsNodeID da <> 0 ->
        shares all a (m_followsNodeID da) /\ m_followsNodeID da < a
        /\ exists db, m_drivers m !! m_followsNodeID da = Some db
                      /\ m_followingNodeID db = a)
  /\ (forall a da, m_drivers m !! a = Some da -> m_followingNodeID da <> 0 ->
        shares all a (m_followingNodeID da) /\ a < m_followingNodeID da
        /\ exists db, m_drivers m !! m_followingNodeID da = Some db
                      /\ m_followsNodeID db = a).

End Followers.

Module Fault.
Import ErrorCode MotorState MotorDriver.

(** Entering FAULT_STATE puts the read of the error code object 0x603F:0 on
    the bus, and nothing else. *)
Definition reads_fault_code (d : MotorDriver) : Prop :=
  effects (setState FAULT_STATE d) = effects d ++ [SubmitRead 0x603F 0].

(** The completion of that read with [ec] and [value] calls the error
    callback. *)
Definition surfaces_fault (ec : error_code) (value : Z) (d : MotorDriver) : Prop :=
  exists code,
    effects (handleFault_completion ec value d) = effects d ++ [ErrorCallback code].

(** The dedup rule read as an equivalence: the fault is read and
    surfaced exactly when the emergency latch is clear. *)
Definition surfaced_iff_latch_clear (ec : error_code) (value : Z) (d : MotorDriver)
  : Prop :=
  (reads_fault_code d /\ surfaces_fault ec value (setState FAULT_STATE d))
  <-> m_emergencyOccured d = false.

End Fault.

(** ** Sequences the engine and the motor driver are compared with *)
Module Sequences.
Import ErrorCode DCFConfigMaster DCFDriver Protocol.

(** [index] is the index of a PDO mapping object (0x1600..0x17FF,
    0x1A00..0x1BFF) or of what lies between the two ranges. *)
Definition in_mapping_range (index : Z) : bool :=
  (RECEIVE_PDO_MAPPING_START <=? index) && (index <=? TRANSMIT_PDO_MAPPING_END).

Definition in_control_range (index : Z) : bool :=
  ((RECEIVE_PDO_CONTROL_START <=? index) && (index <=? RECEIVE_PDO_CONTROL_END))
  || ((TRANSMIT_PDO_CONTROL_START <=? index) && (index <=? TRANSMIT_PDO_CONTROL_END)).

(** The typed copies of the configured objects, object by object and
    sub-index by sub-index; an object in the mapping range gives none. *)
Definition parameter_steps (objects : ObjectsList) : list PdoStep :=
  flat_map (fun object =>
              if in_mapping_range (fst object) then []
              else map (CopyDeclared (fst object)) (snd object))
           objects.

(** The write requests for all configured sub-indices, in the same order,
    each with the local value read with the C++ type of its declared type. *)
Definition parameter_writes (config : DCFDriverConfig) (objects : ObjectsList)
  : list SdoRequest :=
  flat_map (fun object =>
              if in_mapping_range (fst object) then []
              else flat_map
                     (fun subIndex =>
                        match supported_type (getTypeOfObject config (fst object) subIndex) with
                        | Some T =>
                            [SdoWrite T (fst object) subIndex
                               (snd (Read config T (fst object) subIndex))]
                        | None => []
                        end)
                     (snd object))
           objects.

(** The configured sub-indices of the mapping object of [I], if it is among
    the configured objects. *)
Definition configured_mapping (config : DCFDriverConfig) (I : Z) : option (list Z) :=
  option_map snd
    (List.find (fun sdo => fst sdo =? u16 (I + 0x200))
       (getSDOIndicesForDriverConfiguration config)).

(** The mapping steps as [writeMappings] takes them: the listed
    sub-indices after the first one, then sub-index 0. *)
Definition coded_mapping_steps (I : Z) (mapping : option (list Z)) : list PdoStep :=
  match mapping with
  | None => []
  | Some [] => []
  | Some (_ :: rest) =>
      map (CopyDeclared (u16 (I + 0x200))) rest ++ [Copy uint8_t (u16 (I + 0x200)) 0]
  end.

Definition coded_protocol (I : Z) (mapping : option (list Z)) : list PdoStep :=
  [ ReadRemote uint32_t I 1;
    WriteInvalidated uint32_t I 1;
    Copy uint8_t I 2;
    CopyIfPresent uint8_t I 3;
    Write uint8_t (u16 (I + 0x200)) 0 0 ]
  ++ coded_mapping_steps I mapping
  ++ [ Copy uint32_t I 1 ].

(** The node accepts every request. *)
Definition accepts_all (node : Node) : Prop :=
  forall history req, is_error (fst (reply node history req)) = false.

(** Every configured sub-index of an object outside the mapping range has a
    supported type and a readable local value. *)
Definition all_copyable (config : DCFDriverConfig) (objects : ObjectsList) : Prop :=
  Forall (fun object =>
            in_mapping_range (fst object) = false ->
            Forall (fun subIndex =>
                      exists T,
                        supported_type (getTypeOfObject config (fst object) subIndex) = Some T
                        /\ is_error (fst (Read config T (fst object) subIndex)) = false)
                   (snd object))
         objects.

(** No PDO control object among the objects, and no empty sub-index list
    outside the mapping range. *)
Definition parameters_only (objects : ObjectsList) : Prop :=
  Forall (fun object =>
            in_control_range (fst object) = false
            /\ (in_mapping_range (fst object) = false -> snd object <> []))
         objects.

End Sequences.

(** ** The slaves the master's dictionary lists *)
Module Slaves.
Import DCFConfigMaster.

Section Listed.

Variable GetUploadFile : Z -> Z -> option String.string.

(** Sub-index [subIndex] of the object [idx] names a file. *)
Definition listed (idx subIndex : Z) : bool :=
  match GetUploadFile idx subIndex with
  | Some filename => negb (DCFDriver.is_empty filename)
  | None => false
  end.

(** The node IDs 1..127 with a textual (0x1F20) or a binary (0x1F22)
    configuration file. *)
Definition slave (subIndex : Z) : bool :=
  (1 <=? subIndex) && (subIndex <=? 127)
  && (listed 0x1F20 subIndex || listed 0x1F22 subIndex).

End Listed.

End Slaves.

Module MotorSequences.
Import ErrorCode MotorState MotorDriver MotorApi.

(** Effects one after the other. *)
Definition emit_all (es : list Effect) (d : MotorDriver) : MotorDriver :=
  fold_left (fun d e => emit e d) es d.

(** What invoking an entry of the idle queue does. *)
Definition invocation (callback : option IdleCallback) : list Effect :=
  match callback with
  | Some (UserCallback tag) => [Invoke (UserCallback tag)]
  | Some (PostingCallback t) => [Post t]
  | None => []
  end.

(** Setters called one after the other: the next one when the one before
    has completed without error; an error is reported and ends the
    sequence; a setter that completes later ends what happens now. *)
Fixpoint call_in_order (calls : list (Setter * Z)) (d : MotorDriver) : MotorDriver :=
  match calls with
  | [] => d
  | (s, value) :: rest =>
      let d := emit (CallSetter s value) d in
      match setter_completes d s value with
      | None => d
      | Some error =>
          if is_error error then
            (if m_errorCallback d then emit (ErrorCallback WRTIE_TO_NODE_ERROR) d
             else emit BadFunctionCall d)
          else call_in_order rest d
      end
  end.

(** The seven setter calls of a move. *)
Definition move_sequence (d : MotorDriver) : list (Setter * Z) :=
  [ (motorOperationModeSetter, 1);
    (motorControlWordSetter, 7);
    (motorPositionSetter, m_moveToPosition d);
    (motorVelocitySetter, m_moveSpeed d);
    (motorAccelerationSetter, m_moveAcceleration d);
    (motorDecelerationSetter, m_moveDeacceleration d);
    (motorControlWordSetter, Z.lor (m_currentMoveMode d) 0x011f) ].

(** The confirmations of the pending requests arrive one after the other,
    with nothing else happening to the driver in between. *)
Definition confirm_all (completions : list error_code) (c : Completion.Chain)
  : Completion.Chain :=
  fold_left (fun c error => Completion.confirm error c) completions c.

(** The driver after the first [n] of [calls] have been made. *)
Definition called (n : nat) (calls : list (Setter * Z)) (d : MotorDriver) : MotorDriver :=
  emit_all (map (fun c => CallSetter (fst c) (snd c)) (firstn n calls)) d.

(** The driver as a chain waits for a confirmation. *)
Definition waits_in (c : Completion.Chain) : option MotorDriver :=
  match c with
  | Completion.Awaiting d _ => Some d
  | _ => None
  end.

(** A chain of setters, each called from the completion callback of the one
    before with a value taken from the driver at that time. *)
Fixpoint chain (calls : list (Setter * (MotorDriver -> Z))) (d : MotorDriver)
  : Completion.Chain :=
  match calls with
  | [] => Completion.Returned d
  | (s, value) :: rest =>
      Completion.callSetter s (value d)
        (fun error => Completion.whenSetterOK error (chain rest)) d
  end.

Definition move_chain : list (Setter * (MotorDriver -> Z)) :=
  [ (motorOperationModeSetter, fun _ => 1);
    (motorControlWordSetter, fun _ => 7);
    (motorPositionSetter, m_moveToPosition);
    (motorVelocitySetter, m_moveSpeed);
    (motorAccelerationSetter, m_moveAcceleration);
    (motorDecelerationSetter, m_moveDeacceleration);
    (motorControlWordSetter, fun d => Z.lor (m_currentMoveMode d) 0x011f) ].

(** The values of a chain do not depend on the effects of the driver. *)
Definition stable (calls : list (Setter * (MotorDriver -> Z))) : Prop :=
  Forall (fun c => forall e d, snd c (emit e d) = snd c d) calls.

Definition at_driver (d : MotorDriver) (calls : list (Setter * (MotorDriver -> Z)))
  : list (Setter * Z) :=
  map (fun c => (fst c, snd c d)) calls.

(** The eight writes of [prepareHoming]. *)
Definition homing_writes (method researchSpeed releaseSpeed accel offset : Z)
  : list Effect :=
  [ SubmitWrite 0x6060 0 1; SubmitWrite 0x6098 0 method;
    SubmitWrite 0x6099 1 researchSpeed; SubmitWrite 0x6099 2 releaseSpeed;
    SubmitWrite 0x609A 0 accel; SubmitWrite 0x607C 0 offset;
    SubmitWrite 0x6060 0 6; SubmitWrite 0x6040 0 0x000f ].

(** The driver is neither main nor follower of a pair. *)
Definition single (d : MotorDriver) : Prop :=
  m_followingNodeID d = 0 /\ m_followsNodeID d = 0.

(** Every setter completes before it returns, without error (the
    master-SDO and mapped-TPDO strategies on a working master). *)
Definition setters_complete (d : MotorDriver) : Prop :=
  forall s value, setter_completes d s value = Some no_error.

(** Patterns of the status word. *)
Definition switched_on (sw : Z) : Prop :=
  has sw FAULT = false /\ has sw READY_TO_SWITCH_ON = true
  /\ has sw SWITCHED_ON = true /\ has sw VOLTAGE_ENABLED = true.

Definition switched_off (sw : Z) : Prop :=
  has sw FAULT = false /\ has sw READY_TO_SWITCH_ON = true
  /\ has sw SWITCHED_ON = false /\ has sw OPERATION_ENABLED = false.

(** The four status words of a move, in the order a drive reports them:
    the set-point is acknowledged, the move has started, the target is
    reached, the operation is disabled again. *)
Definition acknowledged (sw : Z) : Prop :=
  switched_on sw /\ has sw OPERATION_ENABLED = true
  /\ has sw OPERATION_MODE_SPECIFIC1 = true.

Definition started (sw : Z) : Prop :=
  switched_on sw /\ has sw OPERATION_ENABLED = true
  /\ has sw TARGET_REACHED = false /\ has sw OPERATION_MODE_SPECIFIC1 = false.

Definition reached (sw : Z) : Prop :=
  switched_on sw /\ has sw OPERATION_ENABLED = true /\ has sw TARGET_REACHED = true.

Definition disabled (sw : Z) : Prop :=
  switched_on sw /\ has sw OPERATION_ENABLED = false.

(** The rules of the aggregate state of a pair, in the order
    [handleStatusWordChange] tries them: the state the driver changes to,
    from its state and the two slots after the status word is derived. *)
Definition aggregate_target (state main follower : State) (fromFollower : bool)
  : option State :=
  if bool_decide (main = READY_TO_MOVE) && bool_decide (follower = READY_TO_MOVE)
     && bool_decide (state = PREPARE_MOVE) then Some READY_TO_MOVE
  else if (bool_decide (main = MOVING) || bool_decide (follower = MOVING))
          && bool_decide (state = READY_TO_MOVE) then Some MOVING
  else if bool_decide (main = IDLE) && bool_decide (follower = IDLE)
          && bool_decide (state = POWER_ON_DISABLE_OPERATION) then Some IDLE
  else if negb fromFollower && negb (isRelevantStateForFollowerRelationship main)
  then Some main
  else None.

(** Both drives of a pair report a status word to the driver of the main
    node, the main node first or the follower first. *)
Definition both_report (ofMain ofFollower : Z) (mainFirst : bool) (d : MotorDriver)
  : MotorDriver :=
  if mainFirst
  then handleStatusWordChange ofFollower true (handleStatusWordChange ofMain false d)
  else handleStatusWordChange ofMain false (handleStatusWordChange ofFollower true d).

End MotorSequences.

(** Concrete systems for the examples: a master whose own dictionary has no
    entries, and the drivers of nodes 3, 4 and 5 as [configureDrivers]
    registers them. *)
Module Sample.
Import ErrorCode DCFConfigMaster.

Definition no_object : error_code := mk_error_code 0x06020000 SdoCategory.

Definition empty_master : Master :=
  mk_Master ∅ ∅ ∅ true (fun _ _ => (no_object, 0)) [].

Definition new_driver : DCFDriver := mk_DCFDriver 0 0.

Definition master_345 : Master :=
  registerDriver 5 new_driver
    (registerDriver 4 new_driver (registerDriver 3 new_driver empty_master)).

(** The DCF of a drive that listens to RPDO COB-ID [cobID] (object 0x1400)
    and has one mapped object. *)
Definition drive_config (nodeID cobID : Z) : DCFDriver.DCFDriverConfig :=
  DCFDriver.mk_DCFDriverConfig nodeID String.EmptyString
    [(0x1400, [1; 2]); (0x1600, [0; 1])]
    (fun idx subidx =>
       if (idx =? 0x1400) && (subidx =? 1) then DCFDriver.CO_DEFTYPE_UNSIGNED32
       else if idx =? 0x1600 then
         (if subidx =? 0 then DCFDriver.CO_DEFTYPE_UNSIGNED8
          else DCFDriver.CO_DEFTYPE_UNSIGNED32)
       else DCFDriver.CO_DEFTYPE_UNSIGNED8)
    (fun _ idx subidx =>
       if (idx =? 0x1400) && (subidx =? 1) then (no_error, cobID)
       else if (idx =? 0x1400) && (subidx =? 2) then (no_error, 255)
       else if (idx =? 0x1600) && (subidx =? 0) then (no_error, 1)
       else if (idx =? 0x1600) && (subidx =? 1) then (no_error, 0x60400010)
       else (mk_error_code 0x06090011 SdoCategory, 0)).

(** Three drives on the same RPDO COB-ID 0x203, configured in the order of
    their node IDs. *)
Definition three_on_one_cobID : list Followers.Inference :=
  [(drive_config 3 0x203, 0x1400); (drive_config 4 0x203, 0x1400);
   (drive_config 5 0x203, 0x1400)].

(** The pair of the demo: drives 3 and 4 share 0x203, drive 5 is alone. *)
Definition one_pair : list Followers.Inference :=
  [(drive_config 4 0x203, 0x1400); (drive_config 5 0x205, 0x1400);
   (drive_config 3 0x203, 0x1400)].

(** A node that accepts every request and answers every read with the
    COB-ID 0x203. *)
Definition accepting_node : DCFDriver.Node :=
  DCFDriver.mk_Node (fun _ _ => (no_error, 0x203)).

(** Nothing sent yet. *)
Definition start : DCFDriver.World := DCFDriver.mk_World master_345 [].

(** No further configured object: the completion is called. *)
Definition no_next : DCFDriver.Callback -> DCFDriver.Run := fun k => k no_error.

(** A node configuration with one parameter of a type the engine cannot
    transfer: object 0x2000:1 is declared VISIBLE_STRING (0x0009). *)
Definition string_parameter_config : DCFDriver.DCFDriverConfig :=
  DCFDriver.mk_DCFDriverConfig 3 String.EmptyString
    [(0x2000, [1; 2]); (0x2001, [0])]
    (fun idx _ => if idx =? 0x2000 then 0x0009 else DCFDriver.CO_DEFTYPE_UNSIGNED8)
    (fun _ _ _ => (no_error, 7)).


(** A clear-configuration strategy the user cancels, one that fails with a
    time-out, and one that succeeds; none sends anything itself. *)
Definition cancelled : DCFDriver.ClearConfigurationStrategy :=
  fun callback => callback (mk_error_code ECANCELED generic_category).

Definition timed_out : DCFDriver.ClearConfigurationStrategy :=
  fun callback => callback (mk_error_code 0x05040000 SdoCategory).

Definition cleared : DCFDriver.ClearConfigurationStrategy :=
  fun callback => callback no_error.

(** A motor driver with an error callback, its setters completing later,
    in the middle of a move. *)
Definition moving_motor : MotorDriver.MotorDriver :=
  MotorDriver.set_m_state MotorState.MOVING
    (MotorDriver.new_MotorDriver 3 true (fun _ _ => None)).

(** A driver just constructed, with setters that complete at once. *)
Definition new_motor : MotorDriver.MotorDriver :=
  MotorDriver.new_MotorDriver 3 true (fun _ _ => Some no_error).

(** The same driver idle, and after a fault with the FAULT bit in its
    last status word. *)
Definition idle_motor : MotorDriver.MotorDriver :=
  MotorDriver.set_m_state MotorState.IDLE new_motor.

Definition faulted_motor : MotorDriver.MotorDriver :=
  MotorDriver.set_m_state MotorState.FAULT_STATE
    (MotorDriver.set_m_statusWord 0x0218 new_motor).

(** Driver 3 as the main node of the pair (3, 4), and driver 4 as its
    follower. *)
Definition main_motor : MotorDriver.MotorDriver :=
  MotorApi.setFollowingNodeID 4 idle_motor.

Definition follower_motor : MotorDriver.MotorDriver :=
  MotorApi.setFollowsNodeID 3
    (MotorDriver.set_m_state MotorState.IDLE
       (MotorDriver.new_MotorDriver 4 true (fun _ _ => Some no_error))).

(** A node configuration with parameters only: two objects of the drive
    profile and a mapping object, which the engine passes over. *)
Definition parameter_config : DCFDriver.DCFDriverConfig :=
  DCFDriver.mk_DCFDriverConfig 3 String.EmptyString
    [(0x1600, [0; 1]); (0x6081, [0]); (0x6083, [0; 1])]
    (fun idx _ => if idx =? 0x6081 then DCFDriver.CO_DEFTYPE_UNSIGNED32
                  else DCFDriver.CO_DEFTYPE_UNSIGNED8)
    (fun _ idx subidx => (no_error, idx + subidx)).

(** A master dictionary that names textual configurations for the nodes
    3 and 4 and a binary one for node 5. *)
Definition upload_files_345 (idx subIndex : Z) : option String.string :=
  if (idx =? 0x1F20) && ((subIndex =? 3) || (subIndex =? 4)) then Some "motor.dcf"%string
  else if (idx =? 0x1F22) && (subIndex =? 5) then Some "motor.bin"%string
  else if (idx =? 0x1F20) && (subIndex =? 6) then Some String.EmptyString
  else None.

(** A master dictionary as a binary DCF leaves it: the nodes 3 and 4 are
    configured in 0x5C00 and 0x5C01, and the TPDOs 0x1800 and 0x1801 that
    feed them have the same COB-ID. *)
Definition pair_dictionary (idx subidx : Z) : error_code * Z :=
  if (idx =? 0x5C00) && (subidx =? 0) then (no_error, 0x0103)
  else if (idx =? 0x5C01) && (subidx =? 0) then (no_error, 0x0104)
  else if ((idx =? 0x1800) || (idx =? 0x1801)) && (subidx =? 1) then (no_error, 0x0183)
  else (no_object, 0).

Definition binary_master_34 : Master :=
  mk_Master (m_drivers master_345) ∅ (m_devicesToBoot master_345) true pair_dictionary [].

(** Boot notifications with duplicates. *)
Definition boots_345 : list (Z * Z) :=
  [(3, 0); (3, 0); (4, 0); (5, 0); (5, 0); (4, 0)].

End Sample.

(* ===================================================================== *)
(** * Properties of the state derivation                                  *)
(* ===================================================================== *)

Section StateDerivation.
Import MotorState.

(** Case analysis on the status-word tests of the derivation. *)
Local Ltac by_flags :=
  unfold determineStateFromStatusWord;
  repeat match goal with
         | |- context [has ?sw ?f] =>
             let E := fresh "E" in destruct (has sw f) eqn:E; cbn
         end.

Lemma has_true_iff (sw flag : Z) : has sw flag = true <-> Z.land sw flag <> 0.
Proof.
  unfold has. rewrite negb_true_iff, Z.eqb_neq. reflexivity.
Qed.

(** The result of the derivation does not depend on the node ID. *)
Lemma determineState_ignores_node (cur : State) (sw node node' : Z) :
  determineStateFromStatusWord cur sw node = determineStateFromStatusWord cur sw node'.
Proof. reflexivity. Qed.

(** Whatever the derivation returns is the current state or the target of
    a row of the table. *)
Lemma determineState_in_table (cur : State) (sw node : Z) :
  determineStateFromStatusWord cur sw node = cur
  \/ admissible cur sw (determineStateFromStatusWord cur sw node).
Proof.
  destruct cur; by_flags;
    first [ left; reflexivity
          | right; unfold switched_off_branch, switched_on_branch in *;
            (econstructor; unfold switched_off_branch, switched_on_branch; intuition congruence) ].
Qed.

(** The rows apply in the branches of the "CiA-402 mapping": a result
    other than the current state needs the FAULT bit, the switched-off
    pattern, the initial state, or the switched-on triple. *)
Lemma determineState_change_in_branch (cur : State) (sw node : Z) :
  determineStateFromStatusWord cur sw node <> cur ->
  has sw FAULT = true \/ switched_off_branch sw \/ cur = INITIAL_STATE
  \/ switched_on_branch sw.
Proof.
  destruct cur; by_flags; intros Hchange;
    unfold switched_off_branch, switched_on_branch;
    first [ congruence | tauto ].
Qed.

Example derivation_of_a_move :
  determineStateFromStatusWord PREPARE_MOVE 0x1237 3 = READY_TO_MOVE
  /\ determineStateFromStatusWord READY_TO_MOVE 0x0237 3 = MOVING
  /\ determineStateFromStatusWord MOVING 0x0637 3 = POWER_ON_DISABLE_OPERATION
  /\ determineStateFromStatusWord POWER_ON_DISABLE_OPERATION 0x0233 3 = IDLE
  /\ determineStateFromStatusWord IDLE 0x0233 3 = IDLE.
Proof. repeat split. Qed.

(** C1.  Whatever the current state and the node ID, a status word whose
    FAULT bit (0x0008) is set is derived to FAULT_STATE. *)
Theorem fault_bit_derives_FAULT_STATE (currentState : State) (statusWord nodeID : Z) :
  Z.land statusWord 0x0008 <> 0 ->
  determineStateFromStatusWord currentState statusWord nodeID = FAULT_STATE.
Proof.
  intros Hfault. apply (has_true_iff statusWord FAULT) in Hfault.
  unfold determineStateFromStatusWord. rewrite Hfault. reflexivity.
Qed.

Lemma fault_bit_derives_FAULT_STATE_witness :
  determineStateFromStatusWord MOVING 0x1238 3 = FAULT_STATE.
Proof.
  apply (fault_bit_derives_FAULT_STATE MOVING 0x1238 3).
  vm_compute. discriminate.
Defined.

(** C2.  The derivation is a total, deterministic function of its three
    arguments on all 2^16 status words: every call has exactly one result
    (which the node ID does not influence), and an input that matches no
    row of the transition table of the specification is derived to the
    current state; more, every result is the current state or the target of
    a matching row, and a result other than the current state is derived in
    one of the branches of section 4.3 (FAULT bit, switched off, initial
    state, switched-on triple). *)
Theorem determineState_total_deterministic_table (cur : State) (sw node : Z) :
  0 <= sw < 65536 ->
  (exists! next, determineStateFromStatusWord cur sw node = next)
  /\ (forall cur' sw' node',
        cur' = cur -> sw' = sw -> node' = node ->
        determineStateFromStatusWord cur' sw' node'
        = determineStateFromStatusWord cur sw node)
  /\ ((forall next, ~ admissible cur sw next) ->
      determineStateFromStatusWord cur sw node = cur)
  /\ (determineStateFromStatusWord cur sw node = cur
      \/ admissible cur sw (determineStateFromStatusWord cur sw node))
  /\ (determineStateFromStatusWord cur sw node <> cur ->
      has sw FAULT = true \/ switched_off_branch sw \/ cur = INITIAL_STATE
      \/ switched_on_branch sw).
Proof.
  intros _. split; [| split; [| split; [| split]]].
  - exists (determineStateFromStatusWord cur sw node).
    split; [reflexivity | intros next <-; reflexivity].
  - intros cur' sw' node' -> -> ->. reflexivity.
  - intros Hnone.
    destruct (determineState_in_table cur sw node) as [Hcur | Hrow]; [exact Hcur |].
    exfalso. exact (Hnone _ Hrow).
  - apply determineState_in_table.
  - apply determineState_change_in_branch.
Qed.

Lemma determineState_total_deterministic_table_witness :
  determineStateFromStatusWord IDLE 0x0237 1 = IDLE.
Proof.
  refine (proj1 (proj2 (proj2
            (determineState_total_deterministic_table IDLE 0x0237 1 _))) _).
  - lia.
  - intros next Hrow. inversion Hrow; subst;
      unfold switched_off_branch in *; vm_compute in *; intuition discriminate.
Defined.

End StateDerivation.

(* ===================================================================== *)
(** * Properties of the boot bookkeeping of the master                    *)
(* ===================================================================== *)

Section BootBookkeeping.
Import DCFConfigMaster Boot.

Implicit Types (m : Master) (boots : list BootEvent).

Lemma all_booted_count_emit m e :
  all_booted_count (emit e m)
  = (all_booted_count m + (if decide (e = BootCompletedCallback 0) then 1 else 0))%nat.
Proof.
  unfold all_booted_count, emit; cbn.
  rewrite count_occ_app; cbn.
  destruct (MasterEvent_eq_dec e (BootCompletedCallback 0)), (decide (e = BootCompletedCallback 0));
    congruence.
Qed.

(** The per-node callback of [OnBoot] leaves the bookkeeping alone. *)
Lemma per_node_callback id m :
  id <> 0 ->
  let m1 := if m_bootCompletedCallback m then emit (BootCompletedCallback id) m else m in
  m_devicesToBoot m1 = m_devicesToBoot m
  /\ m_bootCompletedCallback m1 = m_bootCompletedCallback m
  /\ m_drivers m1 = m_drivers m
  /\ all_booted_count m1 = all_booted_count m.
Proof.
  intros Hid m1. subst m1.
  destruct (m_bootCompletedCallback m) eqn:Hcb; repeat split; try reflexivity; auto.
  rewrite all_booted_count_emit. case_decide; [congruence | lia].
Qed.

(** One notification: the pending set only shrinks; the milestone fires at
    most once, and when it does the set is empty afterwards. *)
Lemma OnBoot_step id es m :
  id <> 0 ->
  m_devicesToBoot (OnBoot id es m) ⊆ m_devicesToBoot m
  /\ (all_booted_count (OnBoot id es m) = all_booted_count m
      \/ (all_booted_count (OnBoot id es m) = S (all_booted_count m)
          /\ m_devicesToBoot (OnBoot id es m) = ∅)).
Proof.
  intros Hid. unfold OnBoot.
  destruct (per_node_callback id m Hid) as (Hset & Hcb & _ & Hcount).
  set (m1 := if m_bootCompletedCallback m then _ else m) in *.
  destruct ((es =? 0) && (0 <? Z.of_nat (size (m_devicesToBoot m1)))).
  2: { rewrite Hset, Hcount. split; [set_solver | left; reflexivity]. }
  set (m2 := with_devicesToBoot _ m1).
  assert (Hset2 : m_devicesToBoot m2 = m_devicesToBoot m ∖ {[id]})
    by (unfold m2; cbn; rewrite Hset; reflexivity).
  assert (Hcount2 : all_booted_count m2 = all_booted_count m) by exact Hcount.
  assert (Hsub : m_devicesToBoot m2 ⊆ m_devicesToBoot m) by (rewrite Hset2; set_solver).
  destruct ((Z.of_nat (size (m_devicesToBoot m2)) =? 0) && m_bootCompletedCallback m2)
    eqn:Hfire.
  - apply andb_true_iff in Hfire as [Hsz _]. apply Z.eqb_eq in Hsz.
    split; [exact Hsub |].
    right. rewrite all_booted_count_emit, Hcount2. case_decide; [| congruence].
    split; [lia |]. change (m_devicesToBoot m2 = ∅).
    apply leibniz_equiv, size_empty_iff. lia.
  - rewrite Hcount2. split; [exact Hsub | left; reflexivity].
Qed.

(** A notification for a node that is not pending: only the per-node
    callback is called, and the bookkeeping is as before. *)
Lemma OnBoot_not_pending id es m :
  id ∉ m_devicesToBoot m ->
  events (OnBoot id es m)
  = events m ++ (if m_bootCompletedCallback m then [BootCompletedCallback id] else [])
  /\ m_devicesToBoot (OnBoot id es m) = m_devicesToBoot m.
Proof.
  intros Hnot. unfold OnBoot.
  set (m1 := if m_bootCompletedCallback m then _ else m).
  assert (Hev : events m1
                = events m ++ (if m_bootCompletedCallback m
                               then [BootCompletedCallback id] else []))
    by (subst m1; destruct (m_bootCompletedCallback m); cbn;
        [reflexivity | symmetry; apply app_nil_r]).
  assert (Hset : m_devicesToBoot m1 = m_devicesToBoot m)
    by (subst m1; destruct (m_bootCompletedCallback m); reflexivity).
  destruct ((es =? 0) && (0 <? Z.of_nat (size (m_devicesToBoot m1)))) eqn:Hguard;
    [| split; assumption].
  apply andb_true_iff in Hguard as [_ Hpos]. apply Z.ltb_lt in Hpos.
  set (m2 := with_devicesToBoot _ m1).
  assert (Hset2 : m_devicesToBoot m2 = m_devicesToBoot m).
  { unfold m2; cbn. rewrite Hset. apply leibniz_equiv. set_solver. }
  replace (Z.of_nat (size (m_devicesToBoot m2)) =? 0) with false
    by (symmetry; apply Z.eqb_neq; rewrite Hset2, <- Hset; lia).
  cbn. split; assumption.
Qed.

Lemma OnBoot_not_pending_count id es m :
  id <> 0 -> id ∉ m_devicesToBoot m ->
  all_booted_count (OnBoot id es m) = all_booted_count m.
Proof.
  intros Hid Hnot. destruct (OnBoot_not_pending id es m Hnot) as [Hev _].
  unfold all_booted_count. rewrite Hev, count_occ_app.
  destruct (m_bootCompletedCallback m); [| cbn; lia].
  assert (H0 : count_occ MasterEvent_eq_dec [BootCompletedCallback id]
                 (BootCompletedCallback 0) = 0%nat)
    by (apply count_occ_not_In; intros [Heq | []]; congruence).
  rewrite H0. lia.
Qed.

(** A successful boot of a pending node. *)
Lemma OnBoot_pending id m :
  id <> 0 -> m_bootCompletedCallback m = true -> id ∈ m_devicesToBoot m ->
  m_devicesToBoot (OnBoot id 0 m) = m_devicesToBoot m ∖ {[id]}
  /\ m_bootCompletedCallback (OnBoot id 0 m) = true
  /\ all_booted_count (OnBoot id 0 m)
     = (all_booted_count m
        + (if decide (m_devicesToBoot m ∖ {[id]} = ∅) then 1 else 0))%nat.
Proof.
  intros Hid Hcb Hin. unfold OnBoot.
  destruct (per_node_callback id m Hid) as (Hset & Hcb1 & _ & Hcount).
  set (m1 := if m_bootCompletedCallback m then _ else m) in *.
  assert (Hpos : (0 < size (m_devicesToBoot m1))%nat).
  { rewrite Hset. destruct (size (m_devicesToBoot m)) eqn:Hsz; [| lia].
    apply size_empty_iff in Hsz. set_solver. }
  replace (0 <? Z.of_nat (size (m_devicesToBoot m1))) with true
    by (symmetry; apply Z.ltb_lt; lia).
  cbn [Z.eqb andb].
  set (m2 := with_devicesToBoot _ m1).
  assert (Hset2 : m_devicesToBoot m2 = m_devicesToBoot m ∖ {[id]})
    by (unfold m2; cbn; rewrite Hset; reflexivity).
  assert (Hcb2 : m_bootCompletedCallback m2 = true) by (rewrite <- Hcb, <- Hcb1; reflexivity).
  assert (Hcount2 : all_booted_count m2 = all_booted_count m) by exact Hcount.
  rewrite Hcb2, andb_true_r.
  destruct (Z.of_nat (size (m_devicesToBoot m2)) =? 0) eqn:Hsz.
  - apply Z.eqb_eq in Hsz.
    assert (Hempty : m_devicesToBoot m ∖ {[id]} = ∅).
    { rewrite <- Hset2. apply leibniz_equiv, size_empty_iff. lia. }
    repeat split; [exact Hset2 | exact Hcb2 |].
    rewrite all_booted_count_emit, Hcount2.
    repeat case_decide; congruence.
  - apply Z.eqb_neq in Hsz.
    repeat split; [exact Hset2 | exact Hcb2 |].
    rewrite Hcount2. case_decide as Hempty; [| lia].
    exfalso. apply Hsz. rewrite Hset2, Hempty, size_empty. reflexivity.
Qed.

Lemma all_booted_count_events m m' :
  events m' = events m -> all_booted_count m' = all_booted_count m.
Proof. unfold all_booted_count. intros ->. reflexivity. Qed.

(** Between two resets: once the pending set is empty no notification
    fires the milestone, so it fires at most once in every sequence. *)
Lemma run_boots_at_most_once boots : forall m,
  Forall (fun b => 1 <= fst b <= 127) boots ->
  (all_booted_count (run_boots boots m) <= S (all_booted_count m))%nat
  /\ (m_devicesToBoot m = ∅ ->
      all_booted_count (run_boots boots m) = all_booted_count m).
Proof.
  induction boots as [| [id es] boots IH]; intros m Hvalid.
  - cbn. split; [lia | reflexivity].
  - apply Forall_cons in Hvalid as [Hid Hvalid]. cbn in Hid.
    assert (Hid0 : id <> 0) by lia.
    change (run_boots ((id, es) :: boots) m) with (run_boots boots (OnBoot id es m)).
    destruct (IH (OnBoot id es m) Hvalid) as [IHle IHempty].
    destruct (OnBoot_step id es m Hid0) as [_ [Hsame | [Hfired Hempty]]].
    + split; [lia |].
      intros Hnone.
      assert (Hnot : id ∉ m_devicesToBoot m) by (rewrite Hnone; set_solver).
      destruct (OnBoot_not_pending id es m Hnot) as [_ Hset].
      rewrite IHempty by (rewrite Hset; exact Hnone). exact Hsame.
    + split; [rewrite IHempty by exact Hempty; lia |].
      intros Hnone.
      assert (Hnot : id ∉ m_devicesToBoot m) by (rewrite Hnone; set_solver).
      pose proof (OnBoot_not_pending_count id es m Hid0 Hnot). lia.
Qed.

(** With calls of [reset] in between: the milestone fires at most once
    before the first reset and at most once after each reset. *)
Lemma run_calls_once_per_reset calls : forall m,
  Forall valid_call calls ->
  (all_booted_count (run_calls calls m) <= all_booted_count m + 1 + resets_in calls)%nat
  /\ (m_devicesToBoot m = ∅ ->
      (all_booted_count (run_calls calls m) <= all_booted_count m + resets_in calls)%nat).
Proof.
  induction calls as [| [id es |] calls IH]; intros m Hvalid.
  - cbn. split; [lia | intros _; lia].
  - apply Forall_cons in Hvalid as [Hid Hvalid]. cbn in Hid.
    assert (Hid0 : id <> 0) by lia.
    change (run_calls (CallOnBoot id es :: calls) m)
      with (run_calls calls (OnBoot id es m)).
    cbn [resets_in].
    destruct (IH (OnBoot id es m) Hvalid) as [IHany IHempty].
    destruct (OnBoot_step id es m Hid0) as [_ [Hsame | [Hfired Hempty]]].
    + split; [lia |].
      intros Hnone.
      assert (Hnot : id ∉ m_devicesToBoot m) by (rewrite Hnone; set_solver).
      destruct (OnBoot_not_pending id es m Hnot) as [_ Hset].
      specialize (IHempty ltac:(rewrite Hset; exact Hnone)). lia.
    + specialize (IHempty Hempty). split; [lia |].
      intros Hnone.
      assert (Hnot : id ∉ m_devicesToBoot m) by (rewrite Hnone; set_solver).
      pose proof (OnBoot_not_pending_count id es m Hid0 Hnot). lia.
  - apply Forall_cons in Hvalid as [_ Hvalid].
    change (run_calls (CallReset :: calls) m) with (run_calls calls (reset m)).
    cbn [resets_in].
    destruct (IH (reset m) Hvalid) as [IHany _].
    assert (Hcount : all_booted_count (reset m) = all_booted_count m).
    { unfold all_booted_count, reset, emit; cbn. rewrite count_occ_app; cbn. lia. }
    split; [lia | intros _; lia].
Qed.

(** When all pending nodes boot, the milestone fires exactly once. *)
Lemma boot_all_fires nodes : forall m,
  NoDup nodes -> nodes <> [] -> 0 ∉ nodes ->
  (forall x, x ∈ nodes <-> x ∈ m_devicesToBoot m) ->
  m_bootCompletedCallback m = true ->
  all_booted_count (run_boots (boot_all nodes) m) = S (all_booted_count m).
Proof.
  induction nodes as [| x rest IH]; intros m Hnodup Hne Hzero Hsame Hcb; [congruence |].
  apply NoDup_cons in Hnodup as [Hx Hnodup].
  assert (Hx0 : x <> 0) by (intros ->; apply Hzero; left).
  assert (Hin : x ∈ m_devicesToBoot m) by (apply Hsame; left).
  destruct (OnBoot_pending x m Hx0 Hcb Hin) as (Hset & Hcb' & Hcount).
  change (run_boots (boot_all (x :: rest)) m)
    with (run_boots (boot_all rest) (OnBoot x 0 m)).
  assert (Hrest : forall y, y ∈ rest <-> y ∈ m_devicesToBoot (OnBoot x 0 m)).
  { intros y. rewrite Hset, elem_of_difference, <- Hsame, elem_of_cons, elem_of_singleton.
    split; [intros Hy; split; [right; exact Hy | intros ->; contradiction] |].
    intros [[-> | Hy] Hxy]; [contradiction | exact Hy]. }
  destruct rest as [| y rest'].
  - cbn [boot_all map run_boots fold_left]. rewrite Hcount.
    case_decide as Hempty; [lia |].
    exfalso. apply Hempty. apply leibniz_equiv. rewrite <- Hset.
    intros z. rewrite <- Hrest. set_solver.
  - rewrite (IH (OnBoot x 0 m)); auto.
    + rewrite Hcount. case_decide as Hempty; [| lia].
      exfalso. assert (Hy : y ∈ m_devicesToBoot (OnBoot x 0 m)) by (apply Hrest; left).
      rewrite Hset, Hempty in Hy. set_solver.
    + intros Hz. apply Hzero. right. exact Hz.
Qed.

Lemma OnBoot_subset id es m :
  m_devicesToBoot (OnBoot id es m) ⊆ m_devicesToBoot m.
Proof.
  unfold OnBoot.
  set (m1 := if m_bootCompletedCallback m then _ else m).
  assert (Hset : m_devicesToBoot m1 = m_devicesToBoot m)
    by (subst m1; destruct (m_bootCompletedCallback m); reflexivity).
  destruct ((es =? 0) && (0 <? Z.of_nat (size (m_devicesToBoot m1))));
    [| rewrite Hset; reflexivity].
  set (m2 := with_devicesToBoot _ m1).
  assert (Hsub : m_devicesToBoot m2 ⊆ m_devicesToBoot m)
    by (unfold m2; cbn; rewrite Hset; set_solver).
  destruct ((Z.of_nat (size (m_devicesToBoot m2)) =? 0) && m_bootCompletedCallback m2);
    exact Hsub.
Qed.

Example boots_of_master_345 :
  events (run_boots [(3, 0); (3, 0); (4, 0); (5, 0); (5, 0)] Sample.master_345)
  = [BootCompletedCallback 3; BootCompletedCallback 3; BootCompletedCallback 4;
     BootCompletedCallback 5; BootCompletedCallback 0; BootCompletedCallback 5].
Proof. vm_compute. reflexivity. Qed.

Example reset_of_master_345 :
  events (run_boots [(3, 0); (4, 0); (5, 0)]
            (reset (run_boots [(3, 0); (4, 0); (5, 0)] Sample.master_345)))
  = [BootCompletedCallback 3; BootCompletedCallback 4; BootCompletedCallback 5;
     BootCompletedCallback 0; NmtResetNode;
     BootCompletedCallback 3; BootCompletedCallback 4; BootCompletedCallback 5;
     BootCompletedCallback 0].
Proof. vm_compute. reflexivity. Qed.

(** C9.  Between two calls of [reset]: in every sequence of boot
    notifications the "all booted" callback (id 0) fires at most once; a
    notification for a node that is not in the pending-boot set calls only
    the per-node callback and fires nothing else; no notification makes the
    pending-boot set larger; [reset] puts every registered driver back into
    the set, and when the pending nodes then boot, the milestone fires
    again; with calls of [reset] mixed in, it fires at most once more than
    there are resets. *)
Theorem all_booted_fires_once_between_resets (m : Master) (boots : list BootEvent) :
  Forall (fun b => 1 <= fst b <= 127) boots ->
  (all_booted_count (run_boots boots m) <= S (all_booted_count m))%nat
  /\ (forall id es,
        id ∉ m_devicesToBoot m ->
        events (OnBoot id es m)
        = events m ++ (if m_bootCompletedCallback m
                       then [BootCompletedCallback id] else [])
        /\ (id <> 0 -> all_booted_count (OnBoot id es m) = all_booted_count m))
  /\ (forall id es,
        (size (m_devicesToBoot (OnBoot id es m)) <= size (m_devicesToBoot m))%nat)
  /\ m_devicesToBoot (reset m) = dom (m_drivers m) ∪ m_devicesToBoot m
  /\ (m_bootCompletedCallback m = true ->
      m_devicesToBoot (reset m) <> ∅ ->
      0 ∉ m_devicesToBoot (reset m) ->
      all_booted_count
        (run_boots (boot_all (elements (m_devicesToBoot (reset m)))) (reset m))
      = S (all_booted_count m))
  /\ (forall calls,
        Forall valid_call calls ->
        (all_booted_count (run_calls calls m)
         <= all_booted_count m + 1 + resets_in calls)%nat).
Proof.
  intros Hvalid.
  split; [| split; [| split; [| split; [| split]]]];
    [| intros id es Hnot; split | | | |].
  - apply run_boots_at_most_once. exact Hvalid.
  - apply OnBoot_not_pending. assumption.
  - intros Hid. apply OnBoot_not_pending_count; assumption.
  - intros id es. apply subseteq_size, OnBoot_subset.
  - reflexivity.
  - intros Hcb Hne Hzero.
    rewrite (boot_all_fires (elements (m_devicesToBoot (reset m))) (reset m)).
    + f_equal. unfold all_booted_count, reset, emit; cbn.
      rewrite count_occ_app; cbn. lia.
    + apply NoDup_elements.
    + intros Hnil. apply Hne. apply leibniz_equiv, elements_empty_iff.
      rewrite Hnil. reflexivity.
    + rewrite elem_of_elements. exact Hzero.
    + intros x. apply elem_of_elements.
    + exact Hcb.
  - intros calls Hcalls. apply run_calls_once_per_reset. exact Hcalls.
Qed.

Lemma all_booted_fires_once_between_resets_witness :
  (all_booted_count (run_boots Sample.boots_345 Sample.master_345)
   <= S (all_booted_count Sample.master_345))%nat.
Proof.
  refine (proj1 (all_booted_fires_once_between_resets Sample.master_345
                   Sample.boots_345 _)).
  repeat constructor; cbn; lia.
Defined.

End BootBookkeeping.

(* ===================================================================== *)
(** * Properties of the follower inference                                *)
(* ===================================================================== *)

Section FollowerInference.
Import ErrorCode DCFConfigMaster DCFDriver Followers.

Example three_on_one_cobID_links :
  (fun m => (m_drivers m !! 3, m_drivers m !! 4, m_drivers m !! 5))
    <$> run_inference Sample.three_on_one_cobID Sample.master_345
  = Some (Some (mk_DCFDriver 5 0), Some (mk_DCFDriver 0 3), Some (mk_DCFDriver 0 3)).
Proof. vm_compute. reflexivity. Qed.

Example one_pair_links :
  (fun m => (m_drivers m !! 3, m_drivers m !! 4, m_drivers m !! 5))
    <$> run_inference Sample.one_pair Sample.master_345
  = Some (Some (mk_DCFDriver 4 0), Some (mk_DCFDriver 0 3), Some (mk_DCFDriver 0 0)).
Proof. vm_compute. reflexivity. Qed.

(** The invariant as the specification states it fails when three nodes
    claim one COB-ID: node 4 follows node 3, but node 3 is followed by 5. *)
Lemma three_claimants_break_follower_invariant :
  exists m, run_inference Sample.three_on_one_cobID Sample.master_345 = Some m
            /\ ~ follower_invariant m.
Proof.
  eexists. split; [vm_compute; reflexivity |].
  intros [Hiff _].
  specialize (Hiff 4 3 (mk_DCFDriver 0 3) (mk_DCFDriver 5 0) eq_refl eq_refl).
  destruct Hiff as [Hiff _]. specialize (Hiff eq_refl). discriminate Hiff.
Qed.

Lemma shares_sym all a b : shares all a b -> shares all b a.
Proof.
  intros (Hne & e1 & e2 & H1 & H2 & Ha & Hb & Hc).
  split; [congruence |]. exists e2, e1. repeat split; auto.
Qed.

Lemma lookup_link main follower drivers x :
  main <> follower ->
  link main follower drivers !! x
  = if decide (x = main) then setFollowingNodeID follower <$> drivers !! main
    else if decide (x = follower) then setFollowsNodeID main <$> drivers !! follower
    else drivers !! x.
Proof.
  intros Hne. unfold link. rewrite lookup_alter.
  destruct (decide (main = x)) as [-> | Hx].
  - rewrite decide_True by reflexivity. rewrite lookup_alter_ne by congruence. reflexivity.
  - rewrite decide_False by congruence. rewrite lookup_alter.
    destruct (decide (follower = x)) as [-> | Hy].
    + rewrite decide_True by reflexivity. reflexivity.
    + rewrite decide_False by congruence. reflexivity.
Qed.

Section Pairs.

Variable all : list Inference.
Variable m0 : Master.
Hypothesis Hpairs : forall a b b', shares all a b -> shares all a b' -> b = b'.

(** Linking a pair that shares a COB-ID keeps the master [linked]. *)
Lemma linked_link m main follower :
  linked all m0 m ->
  main < follower -> shares all main follower ->
  is_Some (m_drivers m !! main) -> is_Some (m_drivers m !! follower) ->
  linked all m0 (with_drivers (link main follower) m).
Proof.
  intros (Hdom & Hreg & Hfollows & Hfollowing) Hlt Hsh [dm Hdm] [df Hdf].
  assert (Hne : main <> follower) by lia.
  assert (Hsh' : shares all follower main) by (apply shares_sym; exact Hsh).
  split; [| split; [exact Hreg | split]].
  - intros a. cbn. rewrite lookup_link by exact Hne. rewrite <- Hdom.
    repeat case_decide; subst; rewrite ?Hdm, ?Hdf; cbn; split; eauto.
  - (* the follows slot *)
    intros a da Hda Hset. cbn in Hda |- *.
    rewrite lookup_link in Hda by exact Hne. rewrite lookup_link by exact Hne.
    destruct (decide (a = main)) as [-> | Ha];
      [| destruct (decide (a = follower)) as [-> | Ha']].
    + (* the main follows nobody: its peer would be the follower *)
      rewrite Hdm in Hda. injection Hda as <-. cbn in Hset.
      destruct (Hfollows main dm Hdm Hset) as (Hs & Hlt' & _).
      rewrite (Hpairs main _ _ Hs Hsh) in Hlt'. lia.
    + rewrite Hdf in Hda. injection Hda as <-. cbn.
      split; [exact Hsh' | split; [exact Hlt |]].
      rewrite decide_True by reflexivity. rewrite Hdm. cbn. eauto.
    + destruct (Hfollows a da Hda Hset) as (Hs & Hlt' & db & Hdb & Hback).
      split; [exact Hs | split; [exact Hlt' |]].
      destruct (decide (m_followsNodeID da = main)) as [Hm | Hm].
      * exfalso. rewrite Hm in Hs. apply shares_sym in Hs.
        apply Ha'. exact (Hpairs main _ _ Hs Hsh).
      * destruct (decide (m_followsNodeID da = follower)) as [Hf | Hf]; [| eauto].
        rewrite Hf in Hdb. rewrite Hdf. cbn.
        exists (setFollowsNodeID main df). split; [reflexivity |].
        cbn. congruence.
  - (* the following slot *)
    intros a da Hda Hset. cbn in Hda |- *.
    rewrite lookup_link in Hda by exact Hne. rewrite lookup_link by exact Hne.
    destruct (decide (a = main)) as [-> | Ha];
      [| destruct (decide (a = follower)) as [-> | Ha']].
    + rewrite Hdm in Hda. injection Hda as <-. cbn.
      split; [exact Hsh | split; [exact Hlt |]].
      rewrite decide_False by congruence. rewrite decide_True by reflexivity.
      rewrite Hdf. cbn. eauto.
    + (* the follower is followed by nobody: its peer would be the main *)
      rewrite Hdf in Hda. injection Hda as <-. cbn in Hset.
      destruct (Hfollowing follower df Hdf Hset) as (Hs & Hlt' & _).
      rewrite (Hpairs follower _ _ Hs Hsh') in Hlt'. lia.
    + destruct (Hfollowing a da Hda Hset) as (Hs & Hlt' & db & Hdb & Hback).
      split; [exact Hs | split; [exact Hlt' |]].
      destruct (decide (m_followingNodeID da = main)) as [Hm | Hm].
      * rewrite Hm in Hdb. rewrite Hdm. cbn.
        exists (setFollowingNodeID follower dm). split; [reflexivity |].
        cbn. congruence.
      * destruct (decide (m_followingNodeID da = follower)) as [Hf | Hf]; [| eauto].
        exfalso. rewrite Hf in Hs. apply shares_sym in Hs.
        apply Ha. exact (Hpairs follower _ _ Hs Hsh').
Qed.

Hypothesis Hfresh : fresh m0.
Hypothesis Hrunnable : Forall (runnable m0) all.

Lemma claimant_registered e : e ∈ all -> 1 <= claimant e <= 127.
Proof.
  intros He. rewrite Forall_forall in Hrunnable.
  destruct (Hrunnable e He) as [[d Hd] _].
  destruct Hfresh as [_ Hslots]. exact (proj1 (Hslots _ _ Hd)).
Qed.

Lemma linked_initially : linked all m0 m0.
Proof.
  destruct Hfresh as [Hreg Hslots].
  split; [reflexivity | split; [| split]].
  - intros c n. rewrite Hreg, lookup_empty. discriminate.
  - intros a da Hda Hset. destruct (Hslots a da Hda) as (_ & H0 & _). contradiction.
  - intros a da Hda Hset. destruct (Hslots a da Hda) as (_ & _ & H0). contradiction.
Qed.

(** One inference keeps the master [linked], and is not lost. *)
Lemma configureFollowerRelationship_linked e m :
  e ∈ all -> linked all m0 m ->
  exists m', configureFollowerRelationship (fst e) (snd e) m = Some m'
             /\ linked all m0 m'.
Proof.
  intros He Hlinked.
  pose proof (claimant_registered e He) as Hid.
  assert (Hrun := proj1 (Forall_forall _ _) Hrunnable e He).
  destruct Hrun as [Hself Hread].
  pose proof Hlinked as (Hdom & Hreg & Hfollows & Hfollowing).
  apply Hdom in Hself.
  unfold configureFollowerRelationship.
  destruct (Read (fst e) uint32_t (snd e) 1) as [ec value] eqn:Hvalue.
  cbn in Hread. rewrite Hread.
  assert (Hcob : claimed_cobID e = Z.land value 0x1FFFFFFF)
    by (unfold claimed_cobID; rewrite Hvalue; reflexivity).
  unfold resolveFollowerRelationship, getFirstNodeIDUsing_RPDO_COB_ID.
  change (DCFDriver.id (fst e)) with (claimant e). rewrite <- Hcob.
  destruct (m_firstNodeIDUsing_RPDO_COB_ID m !! claimed_cobID e) as [first |] eqn:Hfirst.
  - destruct (Hreg _ _ Hfirst) as (e' & He' & Hclaimant & Hcob').
    pose proof (claimant_registered e' He') as Hfirst_id. rewrite Hclaimant in Hfirst_id.
    assert (Hpeer : is_Some (m_drivers m !! first)).
    { apply Hdom. rewrite <- Hclaimant.
      exact (proj1 (proj1 (Forall_forall _ _) Hrunnable e' He')). }
    replace (first =? 0) with false by (symmetry; apply Z.eqb_neq; lia).
    destruct (first <? claimant e) eqn:Hlt; [| destruct (claimant e <? first) eqn:Hgt].
    + apply Z.ltb_lt in Hlt. unfold getDriver. cbn.
      rewrite lookup_alter_ne by lia.
      destruct Hpeer as [dp Hdp]. rewrite Hdp.
      eexists. split; [reflexivity |].
      apply (linked_link m first (claimant e)); auto.
      split; [lia |]. exists e', e. repeat split; auto.
    + apply Z.ltb_lt in Hgt. unfold getDriver. cbn.
      rewrite lookup_alter_ne by lia.
      destruct Hpeer as [dp Hdp]. rewrite Hdp.
      eexists. split; [reflexivity |].
      replace (with_drivers _ (with_drivers _ m))
        with (with_drivers (link (claimant e) first) m).
      * apply (linked_link m (claimant e) first); auto.
        split; [lia |]. exists e, e'. repeat split; auto.
      * unfold with_drivers, link; cbn. f_equal.
        apply alter_alter_ne. lia.
    + eexists. split; [reflexivity | exact Hlinked].
  - cbn. eexists. split; [reflexivity |].
    split; [exact Hdom | split; [| split; [exact Hfollows | exact Hfollowing]]].
    intros c n. cbn. rewrite lookup_insert_Some.
    intros [[<- <-] | [_ Hold]]; [exists e; auto | exact (Hreg c n Hold)].
Qed.

Lemma run_inference_linked evs : forall m,
  evs ⊆ all -> linked all m0 m ->
  exists m', run_inference evs m = Some m' /\ linked all m0 m'.
Proof.
  induction evs as [| e evs IH]; intros m Hsub Hlinked.
  - exists m. split; [reflexivity | exact Hlinked].
  - assert (He : e ∈ all) by (apply Hsub; left).
    destruct (configureFollowerRelationship_linked e m He Hlinked) as (m1 & Hstep & Hlinked1).
    cbn. rewrite Hstep. apply IH; [| exact Hlinked1].
    intros x Hx. apply Hsub. right. exact Hx.
Qed.

(** A [linked] master satisfies the follower-pair invariant. *)
Lemma linked_follower_invariant m : linked all m0 m -> follower_invariant m.
Proof.
  intros (Hdom & _ & Hfollows & Hfollowing).
  assert (Hids : forall a da, m_drivers m !! a = Some da -> a <> 0).
  { intros a da Hda. assert (Hsome : is_Some (m_drivers m0 !! a)) by (apply Hdom; eauto).
    destruct Hsome as [d0 Hd0]. destruct Hfresh as [_ Hslots].
    pose proof (proj1 (Hslots _ _ Hd0)). lia. }
  split; [| split].
  - intros a b da db Hda Hdb. split; intros Heq.
    + assert (Hset : m_followsNodeID da <> 0) by (rewrite Heq; eauto).
      destruct (Hfollows a da Hda Hset) as (_ & _ & db' & Hdb' & Hback).
      rewrite Heq, Hdb in Hdb'. injection Hdb' as <-. exact Hback.
    + assert (Hset : m_followingNodeID db <> 0) by (rewrite Heq; eauto).
      destruct (Hfollowing b db Hdb Hset) as (_ & _ & da' & Hda' & Hback).
      rewrite Heq, Hda in Hda'. injection Hda' as <-. exact Hback.
  - intros a da Hda. split; intros Hset.
    + exact (proj1 (proj2 (Hfollows a da Hda Hset))).
    + exact (proj1 (proj2 (Hfollowing a da Hda Hset))).
  - intros a da Hda [Hset1 Hset2].
    destruct (Hfollows a da Hda Hset1) as (Hs1 & Hlt1 & _).
    destruct (Hfollowing a da Hda Hset2) as (Hs2 & Hlt2 & _).
    rewrite (Hpairs a _ _ Hs1 Hs2) in Hlt1. lia.
Qed.

End Pairs.

(** C4, as the code has it.  From freshly registered drivers, when no node
    shares RPDO COB-IDs with more than one other node, the inference runs
    through and leaves the follower-pair invariant: [a] follows [b] exactly
    when [b] is followed by [a], the main has the smaller node ID, and no
    driver has both slots set. *)
Theorem follower_invariant_of_pairs (all : list Inference) (m0 : Master) :
  fresh m0 ->
  Forall (runnable m0) all ->
  (forall a b b', shares all a b -> shares all a b' -> b = b') ->
  exists m, run_inference all m0 = Some m /\ follower_invariant m.
Proof.
  intros Hfresh Hrunnable Hpairs.
  destruct (run_inference_linked all m0 Hpairs Hfresh Hrunnable all m0)
    as (m & Hrun & Hlinked).
  - reflexivity.
  - apply linked_initially; assumption.
  - exists m. split; [exact Hrun |].
    exact (linked_follower_invariant all m0 Hpairs Hfresh m Hlinked).
Qed.

Lemma master_345_fresh : fresh Sample.master_345.
Proof.
  split; [reflexivity |].
  intros a da Hda.
  unfold Sample.master_345, registerDriver, with_devicesToBoot, with_drivers in Hda.
  cbn in Hda.
  repeat (apply lookup_insert_Some in Hda as [[<- <-] | [_ Hda]];
          [cbn; lia |]).
  rewrite lookup_empty in Hda. discriminate.
Qed.

Lemma one_pair_shares a b :
  shares Sample.one_pair a b -> (a = 3 /\ b = 4) \/ (a = 4 /\ b = 3).
Proof.
  intros (Hne & e1 & e2 & H1 & H2 & Ha & Hb & Hc).
  unfold Sample.one_pair in H1, H2.
  repeat (apply elem_of_cons in H1 as [-> | H1]);
    try (apply elem_of_nil in H1; contradiction);
    repeat (apply elem_of_cons in H2 as [-> | H2]);
    try (apply elem_of_nil in H2; contradiction);
    vm_compute in Ha, Hb, Hc; subst;
    first [ discriminate | contradiction | auto ].
Qed.

Lemma follower_invariant_of_pairs_witness :
  exists m, run_inference Sample.one_pair Sample.master_345 = Some m
            /\ follower_invariant m.
Proof.
  apply (follower_invariant_of_pairs Sample.one_pair Sample.master_345).
  - exact master_345_fresh.
  - repeat constructor; vm_compute; eauto.
  - intros a b b' Hb Hb'.
    apply one_pair_shares in Hb, Hb'. lia.
Defined.

End FollowerInference.

(* ===================================================================== *)
(** * Properties of the configuration engine                              *)
(* ===================================================================== *)

Section ConfigEngine.
Import ErrorCode DCFConfigMaster DCFDriver Protocol.

Variable config : DCFDriverConfig.
Variable node : Node.

Lemma is_error_config_error step index subIndex ec :
  is_error (config_error step index subIndex ec) = is_error ec.
Proof. reflexivity. Qed.

Lemma is_error_no_error : is_error no_error = false.
Proof. reflexivity. Qed.

(** [setObject] is one write request. *)
Lemma setObject_request T index subIndex value (ok : Run) (abort : Callback) w :
  setObject node T index subIndex value (fun _ => ok) abort w
  = request node (SdoWrite T index subIndex value)
      (config_error WRITE_REMOTE_SDO index subIndex) abort (fun _ => ok) w.
Proof.
  unfold setObject, SubmitWrite, submit, request.
  destruct (reply node (requests w) _) as [ec v]; cbn.
  destruct (is_error ec); reflexivity.
Qed.

(** [copyObject] with an error function: a copy step. *)
Lemma copyObject_with_onError T index subIndex (ok : Run) (abort : Callback) w :
  copyObject config node T index subIndex (fun _ => ok) (Some abort) false w
  = copy config node T index subIndex abort ok w.
Proof.
  unfold copyObject, copy, SubmitWrite, submit, request.
  destruct (Read config T index subIndex) as [ec value]; cbn.
  destruct (is_error ec); [reflexivity |].
  destruct (reply node (requests w) _) as [ec' v]; cbn.
  destruct (is_error ec'); reflexivity.
Qed.

(** [copyObject] that ignores a missing source: a copy step that is left
    out when the local object or sub-index does not exist. *)
Lemma copyObject_ignoreMissing T index subIndex (ok : Run) (abort : Callback) w :
  copyObject config node T index subIndex (fun _ => ok) (Some abort) true w
  = if locally_absent (fst (Read config T index subIndex)) then ok w
    else copy config node T index subIndex abort ok w.
Proof.
  unfold copyObject, copy, locally_absent, SubmitWrite, submit, request.
  destruct (Read config T index subIndex) as [ec value]; cbn.
  destruct ((ec_value ec =? 0x6020000) || (ec_value ec =? 0x6090011)); [reflexivity |].
  destruct (is_error ec); [reflexivity |].
  destruct (reply node (requests w) _) as [ec' v]; cbn.
  destruct (is_error ec'); reflexivity.
Qed.

(** [copyObject] without an error function, completing into a handler that
    aborts on an error: a copy step as well. *)
Lemma copyObject_with_handler T index subIndex (handler abort : Callback) (ok : Run) w :
  (forall ec w', handler ec w' = if is_error ec then abort ec w' else ok w') ->
  copyObject config node T index subIndex handler None false w
  = copy config node T index subIndex abort ok w.
Proof.
  intros Hhandler.
  unfold copyObject, copy, SubmitWrite, submit, request.
  destruct (Read config T index subIndex) as [ec value]; cbn.
  destruct (is_error ec) eqn:Hec.
  - rewrite Hhandler, is_error_config_error, Hec. reflexivity.
  - destruct (reply node (requests w) _) as [ec' v]; cbn.
    rewrite Hhandler, is_error_config_error. reflexivity.
Qed.

(** The sub-index loop of [configureParameterSDO], run for its
    sub-indices only, is a sequence of typed copy steps. *)
Lemma configureParameterSDO_steps next index (K : Callback) (abort : Callback) (ok : Run)
    more kept done subIndices :
  (forall ec w, K ec w = if is_error ec then abort ec w else ok w) ->
  (forall w, ok w = run_steps config node more kept abort done w) ->
  subIndices <> [] ->
  forall w,
    configureParameterSDO config node next index subIndices K true w
    = run_steps config node (map (CopyDeclared index) subIndices ++ more) kept abort done w.
Proof.
  intros HK Hok.
  induction subIndices as [| subIndex rest IH]; intros Hne w; [congruence |].
  cbn [configureParameterSDO map app run_steps].
  destruct (supported_type (getTypeOfObject config index subIndex)) as [T |].
  - apply copyObject_with_handler.
    intros ec w'. destruct (is_error ec) eqn:Hec.
    + rewrite HK, Hec. reflexivity.
    + destruct rest as [| subIndex' rest'].
      * rewrite HK, is_error_no_error. apply Hok.
      * apply IH. discriminate.
  - rewrite HK. reflexivity.
Qed.

(** In ascending order from sub-index 0, the sub-indices above 0 are the
    ones after the first. *)
Lemma sub_indices_above_0 rest :
  StronglySorted Z.lt (0 :: rest) ->
  List.filter (fun s => 0 <? s) (0 :: rest) = rest.
Proof.
  intros Hsorted. apply StronglySorted_inv in Hsorted as [_ Hall].
  cbn [List.filter Z.ltb Z.compare].
  induction Hall as [| s rest Hs Hall IH]; [reflexivity |].
  cbn [List.filter]. replace (0 <? s) with true by (symmetry; apply Z.ltb_lt; exact Hs).
  f_equal. exact IH.
Qed.

Lemma u16_mapping_index I : is_control_object I -> u16 (I + 0x200) = I + 0x200.
Proof.
  unfold is_control_object, u16, RECEIVE_PDO_CONTROL_START, RECEIVE_PDO_CONTROL_END,
    TRANSMIT_PDO_CONTROL_START, TRANSMIT_PDO_CONTROL_END.
  intros H. apply Z.mod_small. lia.
Qed.

(** Steps 5 to 8. *)
Lemma configurePDO_mappings_steps next I onCompleted subIndices kept w :
  is_control_object I ->
  mapping_configured config I subIndices ->
  configurePDO_mappings config node next I onCompleted w
  = run_steps config node
      ([Write uint8_t (I + 0x200) 0 0]
       ++ map (CopyDeclared (I + 0x200))
            (List.filter (fun s => 0 <? s) subIndices)
       ++ [Copy uint8_t (I + 0x200) 0; Copy uint32_t I 1])
      kept onCompleted (next onCompleted) w.
Proof.
  intros HI (Hfind & Hhd & Hsorted).
  destruct subIndices as [| s0 rest]; [discriminate |].
  injection Hhd as ->.
  rewrite (sub_indices_above_0 rest Hsorted).
  unfold configurePDO_mappings. rewrite (u16_mapping_index I HI).
  rewrite setObject_request.
  cbn [app run_steps]. unfold request at 1 2.
  destruct (is_error (fst (reply node (requests w) _))); [reflexivity |].
  set (w1 := mk_World _ _).
  assert (Hlast : forall w',
             copyObject config node uint32_t I 1
               (fun ec => if is_error ec then onCompleted ec else next onCompleted)
               None false w'
             = run_steps config node [Copy uint32_t I 1] kept onCompleted
                 (next onCompleted) w').
  { intros w'. cbn [run_steps]. apply copyObject_with_handler.
    intros ec w''. destruct (is_error ec); reflexivity. }
  assert (Hcommit : forall w',
             copyObject config node uint8_t (I + 0x200) 0
               (fun _ => copyObject config node uint32_t I 1
                  (fun ec => if is_error ec then onCompleted ec else next onCompleted)
                  None false)
               (Some onCompleted) false w'
             = run_steps config node [Copy uint8_t (I + 0x200) 0; Copy uint32_t I 1]
                 kept onCompleted (next onCompleted) w').
  { intros w'. rewrite copyObject_with_onError. cbn [run_steps].
    unfold copy. destruct (is_error _); [reflexivity |].
    unfold request. destruct (is_error _); [reflexivity |].
    apply Hlast. }
  unfold writeMappings, m_sdosToConfigure. rewrite Hfind.
  destruct rest as [| s1 rest'].
  - cbn [List.length Z.of_nat Z.ltb Z.compare map app]. cbn.
    apply Hcommit.
  - replace (1 <? Z.of_nat (List.length (0 :: s1 :: rest'))) with true
      by (symmetry; apply Z.ltb_lt; cbn [List.length]; lia).
    cbn [List.tl].
    apply (configureParameterSDO_steps _ _ _ onCompleted
             (copyObject config node uint8_t (I + 0x200) 0
                (fun _ => copyObject config node uint32_t I 1
                   (fun ec => if is_error ec then onCompleted ec else next onCompleted)
                   None false)
                (Some onCompleted) false)).
    + intros ec w'. destruct (is_error ec); reflexivity.
    + exact Hcommit.
    + discriminate.
Qed.

(** C3, as the code has it.  For a PDO control object [I] whose mapping
    object [I + 0x200] is configured with its sub-indices in ascending order
    from 0, [configurePDO] is the protocol of section 4.1: read remote I:1;
    write the value read with bit 31 set to I:1; copy I:2; copy I:3 unless
    the local dictionary does not have it; write 0 to (I+0x200):0; copy the
    mapping sub-indices above 0 in ascending order; copy (I+0x200):0; copy
    I:1.  Each step starts when the one before has completed successfully, a
    failing step ends the configuration with its ConfigErrorContext, and
    after the last step the next configured object is taken. *)
Theorem configurePDO_runs_protocol next I onCompleted subIndices w :
  is_control_object I ->
  mapping_configured config I subIndices ->
  configurePDO config node next I onCompleted w
  = run_steps config node (protocol I subIndices) 0 onCompleted (next onCompleted) w.
Proof.
  intros HI Hmapping.
  unfold configurePDO, protocol, SubmitRead, submit.
  cbn [app run_steps]. unfold request at 1.
  destruct (reply node (requests w) (SdoRead uint32_t I 1)) as [ec value].
  cbn [fst snd].
  destruct (is_error ec); [reflexivity |].
  rewrite setObject_request. unfold request at 1 2.
  destruct (is_error (fst (reply node _ _))); [reflexivity |].
  rewrite copyObject_with_onError. unfold copy at 1 2.
  destruct (is_error (fst (Read config uint8_t I 2))); [reflexivity |].
  unfold request at 1 2.
  destruct (is_error (fst (reply node _ _))); [reflexivity |].
  rewrite copyObject_ignoreMissing.
  assert (Hrest : forall w',
             configurePDO_mappings config node next I onCompleted w'
             = run_steps config node
                 (Write uint8_t (I + 512) 0 0
                  :: map (CopyDeclared (I + 512)) (List.filter (fun s => 0 <? s) subIndices)
                  ++ [Copy uint8_t (I + 512) 0; Copy uint32_t I 1])
                 value onCompleted (next onCompleted) w')
    by (intros w'; apply configurePDO_mappings_steps; assumption).
  destruct (locally_absent _); [apply Hrest |].
  unfold copy at 1 2.
  destruct (is_error (fst (Read config uint8_t I 3))); [reflexivity |].
  unfold request at 1 2.
  destruct (is_error (fst (reply node _ _))); [reflexivity |].
  apply Hrest.
Qed.

End ConfigEngine.

Section ConfigEngineExamples.
Import ErrorCode DCFConfigMaster DCFDriver Protocol.

Example activation_of_0x1400 :
  configurePDO (Sample.drive_config 3 0x203) Sample.accepting_node Sample.no_next
    0x1400 Completed Sample.start
  = Completed no_error
      (mk_World Sample.master_345
         [ SdoRead uint32_t 0x1400 1;
           SdoWrite uint32_t 0x1400 1 0x80000203;
           SdoWrite uint8_t 0x1400 2 255;
           SdoWrite uint8_t 0x1600 0 0;
           SdoWrite uint32_t 0x1600 1 0x60400010;
           SdoWrite uint8_t 0x1600 0 1;
           SdoWrite uint32_t 0x1400 1 0x203 ]).
Proof. vm_compute. reflexivity. Qed.

(** The sequence as the specification lists it fails when the local
    dictionary has no inhibit time: step 4 does not complete successfully,
    yet the configuration goes on to the end and reports success. *)
Lemma absent_inhibit_time_breaks_claimed_protocol :
  is_control_object 0x1400
  /\ mapping_configured (Sample.drive_config 3 0x203) 0x1400 [0; 1]
  /\ configurePDO (Sample.drive_config 3 0x203) Sample.accepting_node Sample.no_next
       0x1400 Completed Sample.start
     <> run_steps (Sample.drive_config 3 0x203) Sample.accepting_node
          (claimed_protocol 0x1400 [0; 1]) 0 Completed (Sample.no_next Completed)
          Sample.start.
Proof.
  split; [left; vm_compute; split; discriminate |].
  split; [split; [reflexivity | split; [reflexivity | repeat constructor]] |].
  vm_compute. discriminate.
Qed.

Lemma configurePDO_runs_protocol_witness :
  configurePDO (Sample.drive_config 3 0x203) Sample.accepting_node Sample.no_next
    0x1400 Completed Sample.start
  = run_steps (Sample.drive_config 3 0x203) Sample.accepting_node
      (protocol 0x1400 [0; 1]) 0 Completed (Sample.no_next Completed) Sample.start.
Proof.
  apply configurePDO_runs_protocol.
  - left. vm_compute. split; discriminate.
  - split; [reflexivity | split; [reflexivity | repeat constructor]].
Defined.

End ConfigEngineExamples.

Section ConfigEngineErrors.
Import ErrorCode DCFConfigMaster DCFDriver Protocol.

Variable config : DCFDriverConfig.
Variable node : Node.

Lemma app_two {A} (l : list A) (a b : A) : (l ++ [a]) ++ [b] = l ++ [a; b].
Proof. rewrite <- app_assoc. reflexivity. Qed.

(** C8.  The inhibit-time copy of the PDO activation, reached when steps 1
    to 3 have completed successfully: if the local read of I:3 reports
    0x06020000 (object does not exist) or 0x06090011 (sub-index does not
    exist), nothing is sent for I:3 and the configuration continues with the
    mapping steps; every other local read error ends the configuration
    with a ConfigErrorContext of phase ReadLocal for I:3. *)
Theorem inhibit_time_copy_ignores_missing next I onCompleted w ec1 value ec2 value2 :
  let r1 := SdoRead uint32_t I 1 in
  let r2 := SdoWrite uint32_t I 1 (Z.lor value 0x80000000) in
  let r3 := SdoWrite uint8_t I 2 value2 in
  let ec := fst (Read config uint8_t I 3) in
  reply node (requests w) r1 = (ec1, value) -> is_error ec1 = false ->
  is_error (fst (reply node (requests w ++ [r1]) r2)) = false ->
  Read config uint8_t I 2 = (ec2, value2) -> is_error ec2 = false ->
  is_error (fst (reply node (requests w ++ [r1; r2]) r3)) = false ->
  (ec_value ec = 0x06020000 \/ ec_value ec = 0x06090011 ->
   configurePDO config node next I onCompleted w
   = configurePDO_mappings config node next I onCompleted (sent [r1; r2; r3] w))
  /\ (is_error ec = true -> ec_value ec <> 0x06020000 -> ec_value ec <> 0x06090011 ->
      configurePDO config node next I onCompleted w
      = onCompleted (config_error READ_LOCAL_VALUE I 3 ec) (sent [r1; r2; r3] w)).
Proof.
  intros r1 r2 r3 ec Hr1 Hec1 Hr2 Hread2 Hec2 Hr3.
  assert (Hprefix : configurePDO config node next I onCompleted w
                    = copyObject config node uint8_t I 3
                        (fun _ => configurePDO_mappings config node next I onCompleted)
                        (Some onCompleted) true (sent [r1; r2; r3] w)).
  { unfold configurePDO, SubmitRead, submit. fold r1. rewrite Hr1, Hec1.
    unfold setObject, SubmitWrite, submit; cbn [requests master]. fold r2.
    destruct (reply node (requests w ++ [r1]) r2) as [e2 v2] eqn:Hreply2.
    cbn in Hr2. rewrite Hr2.
    unfold copyObject at 1. rewrite Hread2, Hec2. cbn [andb].
    unfold SubmitWrite, submit; cbn [requests master]. fold r3.
    rewrite app_two.
    destruct (reply node (requests w ++ [r1; r2]) r3) as [e3 v3] eqn:Hreply3.
    cbn [fst] in Hr3. rewrite Hr3. unfold sent.
    rewrite <- app_assoc. reflexivity. }
  rewrite Hprefix. unfold copyObject.
  destruct (Read config uint8_t I 3) as [ec' value3] eqn:Hread3. cbn in ec. subst ec.
  split.
  - intros Habsent.
    replace ((ec_value ec' =? 0x6020000) || (ec_value ec' =? 0x6090011)) with true
      by (symmetry; apply orb_true_iff; rewrite !Z.eqb_eq; exact Habsent).
    reflexivity.
  - intros Herr Hne1 Hne2.
    replace ((ec_value ec' =? 0x6020000) || (ec_value ec' =? 0x6090011)) with false
      by (symmetry; apply orb_false_iff; rewrite !Z.eqb_neq; split; assumption).
    cbn [andb]. rewrite Herr. reflexivity.
Qed.



Lemma not_canceled_without_error ec : is_error ec = false -> is_operation_canceled ec = false.
Proof.
  unfold is_error, is_operation_canceled, ECANCELED.
  rewrite negb_false_iff, Z.eqb_eq. intros ->. reflexivity.
Qed.

(** C6.  With a clear-configuration strategy installed that completes with
    [ec] (and leaves the world as [effect] tells): if [ec] is "operation
    canceled", [OnConfig] reports success in the world the strategy left, so
    the engine sends nothing at all; if [ec] is another error, [OnConfig]
    reports that error there, again without a request of its own; and
    without an error the configuration runs. *)
Theorem clear_configuration_outcomes
    (strategy : ClearConfigurationStrategy) (ec : error_code) (effect : World -> World)
    (res : Callback) (w : World) (m : Master) :
  (forall callback w', strategy callback w' = callback ec (effect w')) ->
  (if negb (is_empty (getBinaryDcfFile config))
   then configureFollowerRelationship_binary config (master w)
   else Some (master w)) = Some m ->
  let cleared := effect (mk_World m (requests w)) in
  (is_operation_canceled ec = true ->
   OnConfig config node (Some strategy) res w = res no_error cleared)
  /\ (is_operation_canceled ec = false -> is_error ec = true ->
      OnConfig config node (Some strategy) res w = res ec cleared)
  /\ (is_error ec = false ->
      OnConfig config node (Some strategy) res w
      = configure config node
          (fun error =>
             if negb (is_error error) && negb (is_empty (getBinaryDcfFile config))
             then SubmitWriteDcf node (getBinaryDcfFile config) (fun ec => res ec)
             else res error)
          cleared).
Proof.
  intros Hstrategy Hinference cleared.
  unfold OnConfig. rewrite Hinference, Hstrategy. fold cleared.
  split; [| split].
  - intros Hcanceled. rewrite Hcanceled. reflexivity.
  - intros Hnot Herr. rewrite Hnot, Herr. reflexivity.
  - intros Hok. rewrite (not_canceled_without_error ec Hok), Hok. reflexivity.
Qed.

End ConfigEngineErrors.

Section ConfigEngineErrorExamples.
Import ErrorCode DCFConfigMaster DCFDriver Protocol.

Lemma inhibit_time_copy_ignores_missing_witness :
  configurePDO (Sample.drive_config 3 0x203) Sample.accepting_node Sample.no_next
    0x1400 Completed Sample.start
  = configurePDO_mappings (Sample.drive_config 3 0x203) Sample.accepting_node
      Sample.no_next 0x1400 Completed
      (sent [ SdoRead uint32_t 0x1400 1; SdoWrite uint32_t 0x1400 1 0x80000203;
              SdoWrite uint8_t 0x1400 2 255 ] Sample.start).
Proof.
  refine (proj1 (inhibit_time_copy_ignores_missing
                   (Sample.drive_config 3 0x203) Sample.accepting_node Sample.no_next
                   0x1400 Completed Sample.start no_error 0x203 no_error 255
                   _ _ _ _ _ _) _);
    try reflexivity.
  right. reflexivity.
Defined.

Example string_parameter_run :
  OnConfig Sample.string_parameter_config Sample.accepting_node None Completed
    Sample.start
  = Completed (unsupported_type_error 0x2000 1) Sample.start.
Proof. vm_compute. reflexivity. Qed.



Example cancelled_clear_configuration :
  OnConfig (Sample.drive_config 3 0x203) Sample.accepting_node
    (Some Sample.cancelled) Completed Sample.start
  = Completed no_error Sample.start.
Proof. vm_compute. reflexivity. Qed.

Example failed_clear_configuration :
  OnConfig (Sample.drive_config 3 0x203) Sample.accepting_node
    (Some Sample.timed_out) Completed Sample.start
  = Completed (mk_error_code 0x05040000 SdoCategory) Sample.start.
Proof. vm_compute. reflexivity. Qed.

Lemma clear_configuration_outcomes_witness :
  OnConfig (Sample.drive_config 3 0x203) Sample.accepting_node
    (Some Sample.cancelled) Completed Sample.start
  = Completed no_error Sample.start.
Proof.
  refine (proj1 (clear_configuration_outcomes (Sample.drive_config 3 0x203)
                   Sample.accepting_node Sample.cancelled
                   (mk_error_code ECANCELED generic_category) (fun w => w)
                   Completed Sample.start Sample.master_345 _ _) _);
    reflexivity.
Defined.

End ConfigEngineErrorExamples.

(* ===================================================================== *)
(** * Properties of the motor driver                                      *)
(* ===================================================================== *)

Section MotorDriverProperties.
Import ErrorCode MotorState MotorDriver Fault.

Implicit Types d : MotorDriver.

Example status_words_of_a_new_motor :
  let d := handleStatusWordChange 0x0250 false Sample.new_motor in
  let d' := handleStatusWordChange 0x0231 false d in
  (m_state d, m_mainNodeState d, m_state d', m_mainNodeState d', effects d')
  = (INITIAL_POWER_ON, IDLE, POWER_ON_DISABLE_OPERATION, IDLE,
     [CallSetter motorControlWordSetter 7]).
Proof. vm_compute. reflexivity. Qed.

(** C5 fails on the code.  A driver without follower that receives the
    status word 0x0250 (switch on disabled) after construction: the
    aggregate slot goes to INITIAL_POWER_ON, the main-node slot stays IDLE. *)
Theorem no_follower_main_slot_differs :
  let d := handleStatusWordChange 0x0250 false Sample.new_motor in
  m_followingNodeID d = 0 /\ m_followsNodeID d = 0
  /\ m_state d = INITIAL_POWER_ON /\ m_mainNodeState d = IDLE
  /\ m_mainNodeState d <> m_state d.
Proof. vm_compute. repeat split; discriminate. Qed.

Lemma setState_enters_FAULT_STATE d :
  m_state d <> INITIAL_STATE -> m_state d <> FAULT_STATE ->
  effects (setState FAULT_STATE d)
  = effects d ++ (if m_emergencyOccured d then [] else [SubmitRead 0x603F 0]).
Proof.
  intros Hinit Hfault. unfold setState.
  rewrite bool_decide_eq_true_2 by exact Hfault.
  cbn [m_state set_m_callbackOnIDLE].
  rewrite bool_decide_eq_true_2 by exact Hinit.
  unfold handleFault. cbn.
  destruct (m_emergencyOccured d); cbn; [rewrite app_nil_r |]; reflexivity.
Qed.

Lemma handleFault_completion_effects ec value d :
  effects (handleFault_completion ec value d)
  = effects d
    ++ (if m_errorCallback d
        then if is_error ec then [ErrorCallback READ_ERROR_FAILED]
             else if value =? 0 then [] else [ErrorCallback value]
        else []).
Proof.
  unfold handleFault_completion, report.
  destruct (is_error ec), (value =? 0), (m_errorCallback d); cbn;
    rewrite ?app_nil_r; reflexivity.
Qed.

Lemma OnEmcy_effects code d :
  m_emergencyOccured (OnEmcy code d) = negb (code =? 0)
  /\ effects (OnEmcy code d)
     = effects d ++ (if m_errorCallback d && negb (code =? 0)
                     then [ErrorCallback code] else []).
Proof.
  unfold OnEmcy. cbn [m_errorCallback m_emergencyOccured set_m_emergencyOccured].
  destruct (m_errorCallback d), (code =? 0); cbn; rewrite ?app_nil_r; split; reflexivity.
Qed.

(** No effect of a state change writes the main-node slot. *)
Lemma setState_keeps_main_slot newState d :
  m_mainNodeState (setState newState d) = m_mainNodeState d
  /\ m_followingNodeID (setState newState d) = m_followingNodeID d.
Proof.
  unfold setState. destruct (bool_decide (m_state d <> newState)); [| split; reflexivity].
  destruct newState; cbn;
    unfold prepareMove, executeMove, processOldestCallbackOnIdle, handleFault,
      performFaultReset, callSetter, isSetterOK; cbn;
    repeat match goal with
           | |- context [match ?x with _ => _ end] =>
               lazymatch x with
               | context [match _ with _ => _ end] => fail
               | _ => destruct x; cbn
               end
           end;
    split; reflexivity.
Qed.

(** Without a follower, a status word never changes the main-node slot:
    only the aggregate slot tracks the state. *)
Lemma no_follower_main_slot_unchanged statusWord statusWordOfFollowerChanged d :
  m_followingNodeID d = 0 ->
  m_mainNodeState (handleStatusWordChange statusWord statusWordOfFollowerChanged d)
  = m_mainNodeState d.
Proof.
  intros Hnone. unfold handleStatusWordChange.
  set (d1 := if negb statusWordOfFollowerChanged then _ else d).
  assert (Hmain : m_mainNodeState d1 = m_mainNodeState d)
    by (subst d1; destruct statusWordOfFollowerChanged; reflexivity).
  assert (Hfollowing : m_followingNodeID d1 = 0)
    by (subst d1; destruct statusWordOfFollowerChanged; exact Hnone).
  rewrite Hfollowing. cbn [Z.eqb].
  destruct (m_followsNodeID d1 =? 0).
  - rewrite (proj1 (setState_keeps_main_slot _ d1)). exact Hmain.
  - destruct (negb statusWordOfFollowerChanged); [| exact Hmain].
    destruct (_ || _); [| exact Hmain].
    rewrite (proj1 (setState_keeps_main_slot _ d1)). exact Hmain.
Qed.

(** The first part of C10 as it is stated fails: with the latch clear the
    fault code is read, but a read that returns the code 0 is not surfaced. *)
Lemma fault_code_0_is_not_surfaced :
  m_state Sample.moving_motor = MOVING
  /\ ~ surfaced_iff_latch_clear no_error 0 Sample.moving_motor.
Proof.
  split; [reflexivity |].
  intros [_ Hclear]. destruct (Hclear eq_refl) as [_ [code Hcode]].
  vm_compute in Hcode. discriminate Hcode.
Qed.

(** C10, as the code has it.  On entering FAULT_STATE from a state other
    than INITIAL_STATE, the error code object 0x603F:0 is read if and only
    if the emergency latch is clear; the completed read calls the error
    callback, if one is installed, with the code read when that is not 0 and
    with READ_ERROR_FAILED when the read failed, and calls nothing for a
    code 0 read without error.  An EMCY frame sets the latch exactly when
    its code is not 0 (so code 0 clears it), and calls an installed error
    callback exactly when its code is not 0. *)
Theorem fault_read_and_emergency_latch d :
  m_state d <> INITIAL_STATE -> m_state d <> FAULT_STATE ->
  (reads_fault_code d <-> m_emergencyOccured d = false)
  /\ (m_emergencyOccured d = true -> effects (setState FAULT_STATE d) = effects d)
  /\ (forall ec value d',
        (surfaces_fault ec value d'
         <-> m_errorCallback d' = true /\ (is_error ec = true \/ value <> 0))
        /\ effects (handleFault_completion ec value d')
           = effects d'
             ++ (if m_errorCallback d'
                 then if is_error ec then [ErrorCallback READ_ERROR_FAILED]
                      else if value =? 0 then [] else [ErrorCallback value]
                 else []))
  /\ (forall code d',
        m_emergencyOccured (OnEmcy code d') = negb (code =? 0)
        /\ effects (OnEmcy code d')
           = effects d' ++ (if m_errorCallback d' && negb (code =? 0)
                            then [ErrorCallback code] else [])).
Proof.
  intros Hinit Hfault.
  pose proof (setState_enters_FAULT_STATE d Hinit Hfault) as Henter.
  split; [| split; [| split]].
  - unfold reads_fault_code. rewrite Henter.
    destruct (m_emergencyOccured d); split; try reflexivity; try discriminate.
    intros Heq. apply app_inv_head in Heq. discriminate Heq.
  - intros Hlatch. rewrite Henter, Hlatch. apply app_nil_r.
  - intros ec value d'.
    pose proof (handleFault_completion_effects ec value d') as Hdone.
    split; [| exact Hdone].
    unfold surfaces_fault. rewrite Hdone.
    destruct (m_errorCallback d'), (is_error ec), (Z.eqb_spec value 0) as [Hvalue | Hvalue];
      (split;
       [ intros [code Hcode]; apply app_inv_head in Hcode;
         try discriminate Hcode; split; auto
       | intros [Hcb [Herr | Hne]]; try discriminate; try contradiction;
         eexists; reflexivity ]).
  - intros code d'. apply OnEmcy_effects.
Qed.

Lemma fault_read_and_emergency_latch_witness :
  reads_fault_code Sample.moving_motor.
Proof.
  refine (proj2 (proj1 (fault_read_and_emergency_latch Sample.moving_motor _ _)) _).
  - vm_compute. discriminate.
  - vm_compute. discriminate.
  - reflexivity.
Defined.

End MotorDriverProperties.

(* ===================================================================== *)
(** * The state derivation and the states only the API enters             *)
(* ===================================================================== *)
Section DerivedStates.
Import MotorState MotorDriver.

Local Ltac flag_cases :=
  unfold determineStateFromStatusWord;
  repeat match goal with
         | |- context [has ?sw ?f] =>
             let E := fresh "E" in destruct (has sw f) eqn:E; cbn
         end.

Lemma determineState_from_INITIAL_STATE (sw node : Z) :
  determineStateFromStatusWord INITIAL_STATE sw node
  = if has sw FAULT then FAULT_STATE
    else if has sw READY_TO_SWITCH_ON && negb (has sw SWITCHED_ON)
            && negb (has sw OPERATION_ENABLED)
         then INITIAL_POWER_OFF else INITIAL_POWER_ON.
Proof. flag_cases; reflexivity. Qed.

Lemma determineState_api_states (cur : State) (sw node : Z) :
  In (determineStateFromStatusWord cur sw node)
     [INITIAL_STATE; PREPARE_MOVE; PREPARE_HOMING; NODE_RESET] ->
  determineStateFromStatusWord cur sw node = cur /\ cur <> INITIAL_STATE.
Proof.
  destruct cur; flag_cases; cbn; intros Hin;
    repeat (destruct Hin as [Hin | Hin]; try discriminate Hin);
    try contradiction; split; (reflexivity || discriminate).
Qed.

(** X1.  The derivation never moves the driver into INITIAL_STATE,
    PREPARE_MOVE, PREPARE_HOMING or NODE_RESET: when it returns one of these
    four states, that state is the current one; and it never returns
    INITIAL_STATE at all. *)
Theorem derivation_never_enters_api_states (cur : State) (sw node : Z) :
  In (determineStateFromStatusWord cur sw node)
     [INITIAL_STATE; PREPARE_MOVE; PREPARE_HOMING; NODE_RESET] ->
  determineStateFromStatusWord cur sw node = cur
  /\ determineStateFromStatusWord cur sw node <> INITIAL_STATE.
Proof.
  intros Hin. destruct (determineState_api_states cur sw node Hin) as [Hcur Hinit].
  split; [exact Hcur |]. rewrite Hcur. exact Hinit.
Qed.

Lemma derivation_never_enters_api_states_witness :
  determineStateFromStatusWord PREPARE_MOVE 0x0237 3 = PREPARE_MOVE
  /\ determineStateFromStatusWord PREPARE_MOVE 0x0237 3 <> INITIAL_STATE.
Proof.
  apply (derivation_never_enters_api_states PREPARE_MOVE 0x0237 3).
  vm_compute. right. left. reflexivity.
Defined.

Lemma performFaultReset_effects (d : MotorDriver) :
  effects (performFaultReset d)
  = effects d
    ++ [ if has (m_statusWord d) FAULT then SubmitWrite 0x6040 0 0x0080
         else if has (m_statusWord d) READY_TO_SWITCH_ON
                 && negb (has (m_statusWord d) SWITCHED_ON)
                 && negb (has (m_statusWord d) OPERATION_ENABLED)
              then Post (PostSetState POWER_ON_DISABLE_OPERATION)
              else Post (PostSetState CYCLE_POWER_SHUTDOWN) ]
  /\ m_state (performFaultReset d) = m_state d
  /\ m_callbackOnIDLE (performFaultReset d) = m_callbackOnIDLE d.
Proof.
  unfold performFaultReset. rewrite determineState_from_INITIAL_STATE.
  destruct (has (m_statusWord d) FAULT); cbn; [repeat split |].
  destruct (has (m_statusWord d) READY_TO_SWITCH_ON
            && negb (has (m_statusWord d) SWITCHED_ON)
            && negb (has (m_statusWord d) OPERATION_ENABLED)); cbn; repeat split.
Qed.

(** X2.  From INITIAL_STATE the derivation always leaves: the result is
    FAULT_STATE, INITIAL_POWER_OFF or INITIAL_POWER_ON, decided by the FAULT
    bit and the switched-off pattern alone.  So the fault reset, which
    derives from INITIAL_STATE and the last status word, always does exactly
    one thing: it writes the fault-reset control word 0x0080, or posts the
    change to POWER_ON_DISABLE_OPERATION (drive switched off), or posts the
    change to CYCLE_POWER_SHUTDOWN; it changes neither the state nor the
    queue. *)
Theorem performFaultReset_does_one_thing (d : MotorDriver) (node : Z) :
  let sw := m_statusWord d in
  determineStateFromStatusWord INITIAL_STATE sw node
  = (if has sw FAULT then FAULT_STATE
     else if has sw READY_TO_SWITCH_ON && negb (has sw SWITCHED_ON)
             && negb (has sw OPERATION_ENABLED)
          then INITIAL_POWER_OFF else INITIAL_POWER_ON)
  /\ effects (performFaultReset d)
     = effects d
       ++ [ if has sw FAULT then SubmitWrite 0x6040 0 0x0080
            else if has sw READY_TO_SWITCH_ON && negb (has sw SWITCHED_ON)
                    && negb (has sw OPERATION_ENABLED)
                 then Post (PostSetState POWER_ON_DISABLE_OPERATION)
                 else Post (PostSetState CYCLE_POWER_SHUTDOWN) ]
  /\ m_state (performFaultReset d) = m_state d
  /\ m_callbackOnIDLE (performFaultReset d) = m_callbackOnIDLE d.
Proof.
  intros sw. split; [apply determineState_from_INITIAL_STATE |].
  apply performFaultReset_effects.
Qed.

End DerivedStates.

(* ===================================================================== *)
(** * The idle queue, the setter chain and the commands of the motor      *)
(* ===================================================================== *)
Section MotorCommands.
Import ErrorCode MotorState MotorDriver MotorApi MotorSequences.

Implicit Types d : MotorDriver.

Lemma m_state_setState s d : m_state (setState s d) = s.
Proof.
  unfold setState. case_bool_decide as Hne; [reflexivity |].
  destruct (decide (m_state d = s)) as [Heq | Hneq]; [exact Heq | contradiction].
Qed.

Lemma processOldest_empty d :
  m_callbackOnIDLE d = [] -> processOldestCallbackOnIdle d = d.
Proof.
  intros Hq. unfold processOldestCallbackOnIdle. rewrite Hq. reflexivity.
Qed.

Lemma processOldest_snoc q callback d :
  m_callbackOnIDLE d = q ++ [callback] ->
  effects (processOldestCallbackOnIdle d) = effects d ++ invocation callback
  /\ m_callbackOnIDLE (processOldestCallbackOnIdle d) = q
  /\ m_state (processOldestCallbackOnIdle d) = m_state d.
Proof.
  intros Hq. unfold processOldestCallbackOnIdle.
  rewrite Hq, rev_unit.
  destruct callback as [[tag | t] |]; cbn; rewrite ?Hq, ?removelast_last, ?app_nil_r;
    repeat split; reflexivity.
Qed.

Lemma process_whole_queue q : forall d,
  m_callbackOnIDLE d = q ->
  effects (Nat.iter (length q) processOldestCallbackOnIdle d)
  = effects d ++ flat_map invocation (rev q)
  /\ m_callbackOnIDLE (Nat.iter (length q) processOldestCallbackOnIdle d) = [].
Proof.
  induction q as [| callback q IH] using rev_ind; intros d Hq.
  - cbn. rewrite app_nil_r. split; [reflexivity | exact Hq].
  - rewrite length_app, Nat.add_comm. cbn [length Nat.add].
    rewrite Nat.iter_succ_r.
    destruct (processOldest_snoc q callback d Hq) as (Heff & Hqueue & _).
    destruct (IH _ Hqueue) as [IHeff IHqueue].
    rewrite IHeff, IHqueue, Heff, rev_unit.
    cbn [flat_map]. rewrite <- app_assoc. split; reflexivity.
Qed.

Lemma enqueue_all cbs : forall d,
  m_callbackOnIDLE (fold_left (fun d callback => addCallbackOnIdle callback d) cbs d)
  = rev cbs ++ m_callbackOnIDLE d
  /\ effects (fold_left (fun d callback => addCallbackOnIdle callback d) cbs d)
     = effects d.
Proof.
  induction cbs as [| callback cbs IH]; intros d; [split; reflexivity |].
  cbn [fold_left rev]. destruct (IH (addCallbackOnIdle callback d)) as [IHq IHe].
  rewrite IHq, IHe. cbn. rewrite <- app_assoc. split; reflexivity.
Qed.

(** X3.  The idle queue is first in, first out: callbacks enqueued one
    after the other come behind those already waiting, and processing the
    queue entry by entry invokes the waiting ones first and then the new
    ones in the order they were enqueued (a callback of the user is called,
    a queued job is posted, a null callback is dropped without a call), until
    the queue is empty. *)
Theorem idle_callbacks_first_in_first_out
    (cbs : list (option IdleCallback)) d :
  let queued := fold_left (fun d callback => addCallbackOnIdle callback d) cbs d in
  let n := length (m_callbackOnIDLE queued) in
  m_callbackOnIDLE queued = rev cbs ++ m_callbackOnIDLE d
  /\ effects (Nat.iter n processOldestCallbackOnIdle queued)
     = effects d ++ flat_map invocation (rev (m_callbackOnIDLE d) ++ cbs)
  /\ m_callbackOnIDLE (Nat.iter n processOldestCallbackOnIdle queued) = [].
Proof.
  intros queued n.
  destruct (enqueue_all cbs d) as [Hq He]. fold queued in Hq, He.
  destruct (process_whole_queue (m_callbackOnIDLE queued) queued eq_refl) as [Heff Hempty].
  fold n in Heff, Hempty.
  split; [exact Hq |]. split; [| exact Hempty].
  rewrite Heff, He, Hq, rev_app_distr, rev_involutive. reflexivity.
Qed.

(** ** The setter chain *)

Lemma call_in_order_complete calls : forall d,
  setters_complete d ->
  call_in_order calls d = emit_all (map (fun c => CallSetter (fst c) (snd c)) calls) d.
Proof.
  induction calls as [| [s value] calls IH]; intros d Hall; [reflexivity |].
  cbn [call_in_order map fst snd].
  change (setter_completes (emit (CallSetter s value) d)) with (setter_completes d).
  rewrite Hall. cbn [is_error no_error ec_value Z.eqb negb].
  rewrite IH by exact Hall. reflexivity.
Qed.

(** One link of the chain: a setter whose completion callback stops at an
    error and goes on with [k] otherwise. *)
Lemma chain_step s value (k : MotorDriver -> MotorDriver) rest d :
  (forall d',
     (m_moveToPosition d', m_moveSpeed d', m_moveAcceleration d',
      m_moveDeacceleration d', m_currentMoveMode d')
     = (m_moveToPosition d, m_moveSpeed d, m_moveAcceleration d,
        m_moveDeacceleration d, m_currentMoveMode d) ->
     k d' = call_in_order rest d') ->
  callSetter s value
    (Some (fun error d => let '(ok, d) := isSetterOK error d in
                          if negb ok then d else k d)) d
  = call_in_order ((s, value) :: rest) d.
Proof.
  intros Hk. unfold callSetter. cbn [call_in_order].
  destruct (setter_completes (emit (CallSetter s value) d) s value) as [error |];
    [| reflexivity].
  unfold isSetterOK. destruct (is_error error); cbn [negb]; [reflexivity |].
  apply Hk. reflexivity.
Qed.

Lemma chain_last s value d :
  callSetter s value (Some (fun error d => snd (isSetterOK error d))) d
  = call_in_order [(s, value)] d.
Proof.
  unfold callSetter. cbn [call_in_order].
  destruct (setter_completes (emit (CallSetter s value) d) s value) as [error |];
    [| reflexivity].
  unfold isSetterOK. destruct (is_error error); reflexivity.
Qed.

Lemma prepareMove_call_in_order d :
  prepareMove d
  = call_in_order (move_sequence d)
      (if negb (m_followingNodeID d =? 0) then set_m_followingNodeState PREPARE_MOVE d
       else d).
Proof.
  unfold prepareMove, move_sequence.
  set (d0 := if negb (m_followingNodeID d =? 0) then _ else d).
  assert (Hjob : (m_moveToPosition d0, m_moveSpeed d0, m_moveAcceleration d0,
                  m_moveDeacceleration d0, m_currentMoveMode d0)
                 = (m_moveToPosition d, m_moveSpeed d, m_moveAcceleration d,
                    m_moveDeacceleration d, m_currentMoveMode d))
    by (subst d0; destruct (negb _); reflexivity).
  injection Hjob as <- <- <- <- <-.
  clearbody d0. clear d.
  apply chain_step. intros d2 H2.
  apply chain_step. intros d3 H3. rewrite H2 in H3. clear d2 H2.
  replace (m_moveToPosition d3) with (m_moveToPosition d0) by congruence.
  apply chain_step. intros d4 H4. rewrite H3 in H4. clear d3 H3.
  replace (m_moveSpeed d4) with (m_moveSpeed d0) by congruence.
  apply chain_step. intros d5 H5. rewrite H4 in H5. clear d4 H4.
  replace (m_moveAcceleration d5) with (m_moveAcceleration d0) by congruence.
  apply chain_step. intros d6 H6. rewrite H5 in H6. clear d5 H5.
  replace (m_moveDeacceleration d6) with (m_moveDeacceleration d0) by congruence.
  apply chain_step. intros d7 H7. rewrite H6 in H7. clear d6 H6.
  replace (m_currentMoveMode d7) with (m_currentMoveMode d0) by congruence.
  apply chain_last.
Qed.

(** ** The setter chain with its completions *)

Lemma prepareMove_chain d :
  Completion.prepareMove d
  = chain move_chain
      (if negb (m_followingNodeID d =? 0) then set_m_followingNodeState PREPARE_MOVE d
       else d).
Proof. reflexivity. Qed.

Lemma confirm_all_Returned completions d :
  confirm_all completions (Completion.Returned d) = Completion.Returned d.
Proof. induction completions as [| error later IH]; [reflexivity | exact IH]. Qed.

Lemma confirm_all_Thrown completions d :
  confirm_all completions (Completion.Thrown d) = Completion.Thrown d.
Proof. induction completions as [| error later IH]; [reflexivity | exact IH]. Qed.

Lemma confirm_all_app completions later c :
  confirm_all (completions ++ later) c = confirm_all later (confirm_all completions c).
Proof. apply fold_left_app. Qed.

Lemma at_driver_emit calls e d :
  stable calls -> at_driver (emit e d) calls = at_driver d calls.
Proof.
  intros Hstable. unfold at_driver. apply map_ext_in. intros c Hin.
  unfold stable in Hstable. rewrite List.Forall_forall in Hstable.
  rewrite (Hstable c Hin). reflexivity.
Qed.

Lemma m_errorCallback_emit_all es : forall d,
  m_errorCallback (emit_all es d) = m_errorCallback d.
Proof.
  induction es as [| e es IH]; intros d; [reflexivity |].
  cbn [emit_all fold_left]. exact (IH (emit e d)).
Qed.

Lemma move_chain_stable : stable move_chain.
Proof. repeat constructor. Qed.

(** After as many confirmations without error as there are in [confirmed],
    fewer than there are calls, the chain has made one call more and waits
    in it with the rest of the chain as its callback. *)
Lemma chain_confirmed confirmed : forall calls d,
  (forall s value, setter_completes d s value = None) ->
  stable calls ->
  Forall (fun error => is_error error = false) confirmed ->
  (length confirmed < length calls)%nat ->
  confirm_all confirmed (chain calls d)
  = Completion.Awaiting (called (S (length confirmed)) (at_driver d calls) d)
      (fun error => Completion.whenSetterOK error
                      (chain (skipn (S (length confirmed)) calls))).
Proof.
  induction confirmed as [| error later IH]; intros calls d Hlater Hstable Hok Hlen.
  - destruct calls as [| [s value] rest]; [cbn in Hlen; lia |].
    cbn [chain confirm_all fold_left]. unfold Completion.callSetter.
    change (setter_completes (emit (CallSetter s (value d)) d)) with (setter_completes d).
    rewrite Hlater. reflexivity.
  - destruct calls as [| [s value] rest]; [cbn in Hlen; lia |].
    inversion Hok as [| ? ? Herror Hok']; subst.
    inversion Hstable as [| ? ? Hvalue Hstable']; subst.
    cbn [chain confirm_all fold_left]. unfold Completion.callSetter.
    change (setter_completes (emit (CallSetter s (value d)) d)) with (setter_completes d).
    rewrite Hlater. cbn [Completion.confirm].
    unfold Completion.whenSetterOK at 1, Completion.isSetterOK. rewrite Herror. cbn [negb].
    change (fold_left (fun c error => Completion.confirm error c) later ?c)
      with (confirm_all later c).
    rewrite IH; [| exact Hlater | exact Hstable' | exact Hok' | cbn in Hlen; lia].
    rewrite at_driver_emit by exact Hstable'.
    reflexivity.
Qed.

(** X4.  [prepareMove] with setters that complete on the confirmation of
    their request (the strategies of [createSDOSetter]), the driver not
    touched in between.  As main node of a pair the driver first sets the
    slot of its follower to PREPARE_MOVE.  Then the seven setters of a move
    are called in a fixed order: operation mode 1, control word 7, target
    position, velocity, acceleration, deceleration, control word
    (mode | 0x011f); each one from the completion callback of the one
    before.  After n < 7 confirmations without error exactly the first n + 1
    calls are made and the chain waits for the next confirmation; the
    seventh confirmation without error ends it with all seven calls made.  A
    confirmation with an error ends the chain with no further call: with an
    error callback installed WRTIE_TO_NODE_ERROR is reported through it,
    with none [isSetterOK] throws [std::bad_function_call] out of the
    completion callback.  Later confirmations change nothing. *)
Theorem prepareMove_calls_setters_in_order d (confirmed : list error_code) :
  let d0 := if negb (m_followingNodeID d =? 0)
            then set_m_followingNodeState PREPARE_MOVE d else d in
  let calls :=
    [ (motorOperationModeSetter, 1);
      (motorControlWordSetter, 7);
      (motorPositionSetter, m_moveToPosition d);
      (motorVelocitySetter, m_moveSpeed d);
      (motorAccelerationSetter, m_moveAcceleration d);
      (motorDecelerationSetter, m_moveDeacceleration d);
      (motorControlWordSetter, Z.lor (m_currentMoveMode d) 0x011f) ] in
  let n := length confirmed in
  (forall s value, setter_completes d s value = None) ->
  Forall (fun error => is_error error = false) confirmed ->
  (n < 7)%nat ->
  waits_in (confirm_all confirmed (Completion.prepareMove d)) = Some (called (S n) calls d0)
  /\ (forall error later,
        n = 6%nat -> is_error error = false ->
        confirm_all (confirmed ++ error :: later) (Completion.prepareMove d)
        = Completion.Returned (called 7 calls d0))
  /\ (forall error later,
        is_error error = true -> m_errorCallback d = true ->
        confirm_all (confirmed ++ error :: later) (Completion.prepareMove d)
        = Completion.Returned
            (emit (ErrorCallback WRTIE_TO_NODE_ERROR) (called (S n) calls d0)))
  /\ (forall error later,
        is_error error = true -> m_errorCallback d = false ->
        confirm_all (confirmed ++ error :: later) (Completion.prepareMove d)
        = Completion.Thrown (called (S n) calls d0)).
Proof.
  intros d0 calls n Hlater Hok Hn.
  assert (Hlater0 : forall s value, setter_completes d0 s value = None)
    by (subst d0; destruct (negb _); exact Hlater).
  assert (Hcallback : m_errorCallback d0 = m_errorCallback d)
    by (subst d0; destruct (negb _); reflexivity).
  assert (Hcalls : at_driver d0 move_chain = calls)
    by (subst d0 calls; destruct (negb _); reflexivity).
  pose proof (chain_confirmed confirmed move_chain d0 Hlater0 move_chain_stable Hok Hn)
    as Hchain.
  rewrite Hcalls in Hchain. fold n in Hchain.
  rewrite prepareMove_chain. fold d0.
  split; [rewrite Hchain; reflexivity |].
  assert (Hcallback' : m_errorCallback (called (S n) calls d0) = m_errorCallback d)
    by (unfold called; rewrite m_errorCallback_emit_all; exact Hcallback).
  split; [| split].
  - intros error later Hlast Herror.
    rewrite confirm_all_app, Hchain. cbn [confirm_all fold_left Completion.confirm].
    unfold Completion.whenSetterOK, Completion.isSetterOK. rewrite Herror. cbn [negb].
    rewrite Hlast. cbn [skipn move_chain chain].
    apply confirm_all_Returned.
  - intros error later Herror Hinstalled.
    rewrite confirm_all_app, Hchain. cbn [confirm_all fold_left Completion.confirm].
    unfold Completion.whenSetterOK, Completion.isSetterOK.
    rewrite Herror, Hcallback', Hinstalled. cbn [negb].
    apply confirm_all_Returned.
  - intros error later Herror Hnull.
    rewrite confirm_all_app, Hchain. cbn [confirm_all fold_left Completion.confirm].
    unfold Completion.whenSetterOK, Completion.isSetterOK.
    rewrite Herror, Hcallback', Hnull. cbn [negb].
    apply confirm_all_Thrown.
Qed.

Lemma prepareMove_calls_setters_in_order_witness :
  confirm_all [no_error; no_error; mk_error_code 0x05040000 SdoCategory]
    (Completion.prepareMove Sample.moving_motor)
  = Completion.Returned
      (emit_all
         [ CallSetter motorOperationModeSetter 1; CallSetter motorControlWordSetter 7;
           CallSetter motorPositionSetter 0; ErrorCallback WRTIE_TO_NODE_ERROR ]
         Sample.moving_motor).
Proof.
  refine (proj1 (proj2 (proj2
            (prepareMove_calls_setters_in_order Sample.moving_motor [no_error; no_error]
               _ _ _)))
            (mk_error_code 0x05040000 SdoCategory) [] _ _).
  - reflexivity.
  - repeat constructor.
  - cbn. lia.
  - reflexivity.
  - reflexivity.
Defined.

End MotorCommands.

(* ===================================================================== *)
(** * Status words of a pair and of a single driver                       *)
(* ===================================================================== *)
Section StatusWords.
Import ErrorCode MotorState MotorDriver MotorApi MotorSequences.

Implicit Types d : MotorDriver.

(** Only entering PREPARE_MOVE writes the slot of the follower. *)
Lemma setState_keeps_following_slot newState d :
  newState <> PREPARE_MOVE ->
  m_followingNodeState (setState newState d) = m_followingNodeState d.
Proof.
  intros Hne. unfold setState.
  destruct (bool_decide (m_state d <> newState)); [| reflexivity].
  destruct newState; try contradiction; cbn;
    unfold executeMove, processOldestCallbackOnIdle, handleFault,
      performFaultReset, callSetter, isSetterOK; cbn;
    repeat match goal with
           | |- context [match ?x with _ => _ end] =>
               lazymatch x with
               | context [match _ with _ => _ end] => fail
               | _ => destruct x; cbn
               end
           end;
    reflexivity.
Qed.

Lemma not_relevant_not_PREPARE_MOVE s :
  isRelevantStateForFollowerRelationship s = false -> s <> PREPARE_MOVE.
Proof. intros Hrel ->. discriminate Hrel. Qed.

(** X5.  The aggregate state of the main driver of a pair.  A status word
    is derived into the slot of the node it came from (main or follower) and
    leaves the other slot alone.  The aggregate state then changes in four
    ways only: PREPARE_MOVE to READY_TO_MOVE when both slots are
    READY_TO_MOVE; READY_TO_MOVE to MOVING when one slot is MOVING;
    POWER_ON_DISABLE_OPERATION to IDLE when both slots are IDLE; and, for a
    status word of the main node only, to the state of the main slot when
    that is none of PREPARE_MOVE, READY_TO_MOVE, MOVING, IDLE.  So a status
    word of the follower never takes the aggregate into FAULT_STATE. *)
Theorem aggregate_state_of_a_pair (sw : Z) (fromFollower : bool) d :
  m_followsNodeID d = 0 -> m_followingNodeID d <> 0 ->
  let d' := handleStatusWordChange sw fromFollower d in
  (if fromFollower
   then m_followingNodeState d'
        = determineStateFromStatusWord (m_followingNodeState d) sw (m_followingNodeID d)
        /\ m_mainNodeState d' = m_mainNodeState d
   else m_mainNodeState d'
        = determineStateFromStatusWord (m_mainNodeState d) sw (id d)
        /\ m_followingNodeState d' = m_followingNodeState d)
  /\ (m_state d' = m_state d
      \/ (m_state d = PREPARE_MOVE /\ m_state d' = READY_TO_MOVE
          /\ m_mainNodeState d' = READY_TO_MOVE
          /\ m_followingNodeState d' = READY_TO_MOVE)
      \/ (m_state d = READY_TO_MOVE /\ m_state d' = MOVING
          /\ (m_mainNodeState d' = MOVING \/ m_followingNodeState d' = MOVING))
      \/ (m_state d = POWER_ON_DISABLE_OPERATION /\ m_state d' = IDLE
          /\ m_mainNodeState d' = IDLE /\ m_followingNodeState d' = IDLE)
      \/ (fromFollower = false /\ m_state d' = m_mainNodeState d'
          /\ isRelevantStateForFollowerRelationship (m_state d') = false))
  /\ (fromFollower = true -> m_state d' = FAULT_STATE -> m_state d = FAULT_STATE).
Proof.
  intros Hfollows Hfollowing d'.
  assert (Hkey :
    exists d2 s,
      (d' = setState s d2 /\ s <> PREPARE_MOVE \/ d' = d2 /\ s = m_state d)
      /\ m_state d2 = m_state d
      /\ (if fromFollower
          then m_followingNodeState d2
               = determineStateFromStatusWord (m_followingNodeState d) sw
                   (m_followingNodeID d)
               /\ m_mainNodeState d2 = m_mainNodeState d
          else m_mainNodeState d2
               = determineStateFromStatusWord (m_mainNodeState d) sw (id d)
               /\ m_followingNodeState d2 = m_followingNodeState d)
      /\ (s = m_state d
          \/ (m_state d = PREPARE_MOVE /\ s = READY_TO_MOVE
              /\ m_mainNodeState d2 = READY_TO_MOVE
              /\ m_followingNodeState d2 = READY_TO_MOVE)
          \/ (m_state d = READY_TO_MOVE /\ s = MOVING
              /\ (m_mainNodeState d2 = MOVING \/ m_followingNodeState d2 = MOVING))
          \/ (m_state d = POWER_ON_DISABLE_OPERATION /\ s = IDLE
              /\ m_mainNodeState d2 = IDLE /\ m_followingNodeState d2 = IDLE)
          \/ (fromFollower = false /\ s = m_mainNodeState d2
              /\ isRelevantStateForFollowerRelationship s = false))).
  { subst d'. unfold handleStatusWordChange.
    set (d1 := if negb fromFollower then set_m_statusWord sw d else d).
    assert (H1 : m_followsNodeID d1 = 0 /\ m_followingNodeID d1 = m_followingNodeID d
                 /\ m_state d1 = m_state d /\ m_mainNodeState d1 = m_mainNodeState d
                 /\ m_followingNodeState d1 = m_followingNodeState d /\ id d1 = id d)
      by (subst d1; destruct fromFollower; cbn; repeat split; assumption).
    destruct H1 as (Hf1 & Hf2 & Hs1 & Hm1 & Hfs1 & Hid1).
    rewrite Hf1, Hf2. cbn [Z.eqb].
    destruct (Z.eqb_spec (m_followingNodeID d) 0) as [Hzero | _]; [contradiction |].
    set (d2 := if negb fromFollower then set_m_mainNodeState _ d1
               else set_m_followingNodeState _ d1).
    assert (H2 : m_state d2 = m_state d
                 /\ (if fromFollower
                     then m_followingNodeState d2
                          = determineStateFromStatusWord (m_followingNodeState d) sw
                              (m_followingNodeID d)
                          /\ m_mainNodeState d2 = m_mainNodeState d
                     else m_mainNodeState d2
                          = determineStateFromStatusWord (m_mainNodeState d) sw (id d)
                          /\ m_followingNodeState d2 = m_followingNodeState d)).
    { subst d2. destruct fromFollower; cbn; rewrite ?Hs1, ?Hm1, ?Hfs1, ?Hid1, ?Hf2;
        repeat split; reflexivity. }
    destruct H2 as [Hs2 Hslots].
    exists d2.
    destruct (bool_decide (m_mainNodeState d2 = READY_TO_MOVE)
              && bool_decide (m_followingNodeState d2 = READY_TO_MOVE)
              && bool_decide (m_state d2 = PREPARE_MOVE)) eqn:Eready.
    { rewrite !andb_true_iff, !bool_decide_eq_true in Eready.
      destruct Eready as [[Hm Hf] Hs].
      exists READY_TO_MOVE. split; [left; split; [reflexivity | discriminate] |].
      split; [exact Hs2 |]. split; [exact Hslots |].
      right; left. rewrite <- Hs2. tauto. }
    destruct ((bool_decide (m_mainNodeState d2 = MOVING)
               || bool_decide (m_followingNodeState d2 = MOVING))
              && bool_decide (m_state d2 = READY_TO_MOVE)) eqn:Emoving.
    { rewrite andb_true_iff, orb_true_iff, !bool_decide_eq_true in Emoving.
      destruct Emoving as [Hone Hs].
      exists MOVING. split; [left; split; [reflexivity | discriminate] |].
      split; [exact Hs2 |]. split; [exact Hslots |].
      right; right; left. rewrite <- Hs2. tauto. }
    destruct (bool_decide (m_mainNodeState d2 = IDLE)
              && bool_decide (m_followingNodeState d2 = IDLE)
              && bool_decide (m_state d2 = POWER_ON_DISABLE_OPERATION)) eqn:Eidle.
    { rewrite !andb_true_iff, !bool_decide_eq_true in Eidle.
      destruct Eidle as [[Hm Hf] Hs].
      exists IDLE. split; [left; split; [reflexivity | discriminate] |].
      split; [exact Hs2 |]. split; [exact Hslots |].
      right; right; right; left. rewrite <- Hs2. tauto. }
    destruct (negb fromFollower
              && negb (isRelevantStateForFollowerRelationship (m_mainNodeState d2)))
      eqn:Emain.
    { rewrite andb_true_iff, !negb_true_iff in Emain. destruct Emain as [Hfrom Hrel].
      exists (m_mainNodeState d2).
      split; [left; split; [reflexivity | apply not_relevant_not_PREPARE_MOVE, Hrel] |].
      split; [exact Hs2 |]. split; [exact Hslots |].
      right; right; right; right. tauto. }
    exists (m_state d). split; [right; split; reflexivity |].
    split; [exact Hs2 |]. split; [exact Hslots |]. left; reflexivity. }
  destruct Hkey as (d2 & s & Hd' & Hs2 & Hslots & Hcases).
  assert (Hstate : m_state d' = s).
  { destruct Hd' as [[-> _] | [-> ->]]; [apply m_state_setState | exact Hs2]. }
  assert (Hmain : m_mainNodeState d' = m_mainNodeState d2).
  { destruct Hd' as [[-> _] | [-> _]]; [apply setState_keeps_main_slot | reflexivity]. }
  assert (Hfol : m_followingNodeState d' = m_followingNodeState d2).
  { destruct Hd' as [[-> Hne] | [-> _]];
      [apply setState_keeps_following_slot, Hne | reflexivity]. }
  rewrite Hstate, Hmain, Hfol.
  split; [exact Hslots |]. split; [exact Hcases |].
  intros -> ->.
  destruct Hcases as [Hc | [Hc | [Hc | [Hc | Hc]]]];
    [ congruence
    | destruct Hc as (_ & Hc & _); discriminate Hc
    | destruct Hc as (_ & Hc & _); discriminate Hc
    | destruct Hc as (_ & Hc & _); discriminate Hc
    | destruct Hc as (Hc & _); discriminate Hc ].
Qed.

Lemma aggregate_state_of_a_pair_witness :
  let d := handleStatusWordChange 0x0218 true Sample.main_motor in
  m_followingNodeState d = FAULT_STATE /\ m_state d = IDLE.
Proof.
  pose proof (aggregate_state_of_a_pair 0x0218 true Sample.main_motor) as H.
  cbn zeta in H.
  destruct H as [[Hslot _] _]; [reflexivity | vm_compute; discriminate |].
  split; [rewrite Hslot |]; vm_compute; reflexivity.
Defined.

(** X6.  The driver of a follower.  It ignores status words that did not
    come from its own node.  Of its own status words it follows the
    derivation only when the derived state is none of PREPARE_MOVE,
    READY_TO_MOVE, MOVING, IDLE, or when it goes from
    POWER_ON_DISABLE_OPERATION to IDLE; otherwise it keeps its state.  So
    no status word takes it into PREPARE_MOVE, READY_TO_MOVE or MOVING. *)
Theorem follower_keeps_out_of_move_states (sw : Z) (fromFollower : bool) d :
  m_followsNodeID d <> 0 ->
  let d' := handleStatusWordChange sw fromFollower d in
  let next := determineStateFromStatusWord (m_state d) sw (id d) in
  (fromFollower = true -> d' = d)
  /\ (m_state d' = m_state d
      \/ (fromFollower = false /\ m_state d' = next
          /\ (isRelevantStateForFollowerRelationship next = false
              \/ (m_state d = POWER_ON_DISABLE_OPERATION /\ next = IDLE))))
  /\ (In (m_state d') [PREPARE_MOVE; READY_TO_MOVE; MOVING] -> m_state d' = m_state d).
Proof.
  intros Hfollows d' next.
  assert (Hcases :
    (fromFollower = true -> d' = d)
    /\ (m_state d' = m_state d
        \/ (fromFollower = false /\ m_state d' = next
            /\ (isRelevantStateForFollowerRelationship next = false
                \/ (m_state d = POWER_ON_DISABLE_OPERATION /\ next = IDLE))))).
  { subst d' next. unfold handleStatusWordChange.
    destruct fromFollower; cbn [negb].
    - destruct (Z.eqb_spec (m_followsNodeID d) 0) as [Hzero | _]; [contradiction |].
      split; [reflexivity | left; reflexivity].
    - cbn [m_followsNodeID set_m_statusWord m_state id].
      destruct (Z.eqb_spec (m_followsNodeID d) 0) as [Hzero | _]; [contradiction |].
      split; [discriminate |].
      destruct (isRelevantStateForFollowerRelationship
                  (determineStateFromStatusWord (m_state d) sw (id d))) eqn:Hrel;
        cbn [negb orb].
      + repeat case_bool_decide; cbn [andb].
        * right. rewrite m_state_setState. repeat split; try assumption.
          right. split; assumption.
        * left. reflexivity.
        * left. reflexivity.
        * left. reflexivity.
      + right. rewrite m_state_setState. repeat split. left. reflexivity. }
  destruct Hcases as [Hignored Hstate].
  split; [exact Hignored |]. split; [exact Hstate |].
  intros Hin. destruct Hstate as [Hsame | (_ & Hnext & [Hrel | [_ Hidle]])];
    [exact Hsame | |].
  - rewrite Hnext in Hin. exfalso.
    destruct Hin as [Hin | [Hin | [Hin | []]]]; rewrite <- Hin in Hrel; discriminate Hrel.
  - rewrite Hnext, Hidle in Hin. exfalso.
    destruct Hin as [Hin | [Hin | [Hin | []]]]; discriminate Hin.
Qed.

Lemma follower_keeps_out_of_move_states_witness :
  handleStatusWordChange 0x1237 true Sample.follower_motor = Sample.follower_motor.
Proof.
  refine (proj1 (follower_keeps_out_of_move_states 0x1237 true Sample.follower_motor _) _).
  - vm_compute. discriminate.
  - reflexivity.
Defined.

End StatusWords.

(* ===================================================================== *)
(** * Jobs of a single driver from the call to the idle callback          *)
(* ===================================================================== *)
Section MotorJobs.
Import ErrorCode MotorState MotorDriver MotorApi MotorSequences.

Implicit Types d : MotorDriver.

Local Ltac by_pattern :=
  unfold switched_on, switched_off in *;
  unfold determineStateFromStatusWord;
  repeat match goal with
         | H : _ /\ _ |- _ => destruct H
         end;
  repeat match goal with
         | H : has _ _ = _ |- context [has _ _] => rewrite H
         end;
  reflexivity.

(** A driver outside a pair takes every status word of its node through
    the derivation. *)
Lemma handleStatusWordChange_single sw d :
  single d ->
  handleStatusWordChange sw false d
  = setState (determineStateFromStatusWord (m_state d) sw (id d)) (set_m_statusWord sw d).
Proof.
  intros [Hfollowing Hfollows]. unfold handleStatusWordChange. cbn [negb].
  cbn [m_followsNodeID m_followingNodeID set_m_statusWord m_state id].
  rewrite Hfollowing, Hfollows. reflexivity.
Qed.

Lemma derive_READY_FOR_HOMING sw node :
  switched_on sw -> has sw OPERATION_ENABLED = true ->
  determineStateFromStatusWord PREPARE_HOMING sw node = READY_FOR_HOMING.
Proof. intros Hon Hop. by_pattern. Qed.

Lemma derive_homing_done sw node :
  switched_on sw -> has sw OPERATION_ENABLED = true ->
  has sw TARGET_REACHED = true -> has sw OPERATION_MODE_SPECIFIC1 = true ->
  determineStateFromStatusWord HOMING sw node = POWER_ON_DISABLE_OPERATION.
Proof. intros Hon Hop Htr Homs. by_pattern. Qed.

Lemma derive_IDLE sw node :
  switched_on sw -> has sw OPERATION_ENABLED = false ->
  determineStateFromStatusWord POWER_ON_DISABLE_OPERATION sw node = IDLE.
Proof. intros Hon Hop. by_pattern. Qed.

Lemma derive_READY_TO_MOVE sw node :
  switched_on sw -> has sw OPERATION_ENABLED = true ->
  has sw OPERATION_MODE_SPECIFIC1 = true ->
  determineStateFromStatusWord PREPARE_MOVE sw node = READY_TO_MOVE.
Proof. intros Hon Hop Homs. by_pattern. Qed.

Lemma derive_MOVING sw node :
  switched_on sw -> has sw OPERATION_ENABLED = true ->
  has sw TARGET_REACHED = false -> has sw OPERATION_MODE_SPECIFIC1 = false ->
  determineStateFromStatusWord READY_TO_MOVE sw node = MOVING.
Proof. intros Hon Hop Htr Homs. by_pattern. Qed.

Lemma derive_move_done sw node :
  switched_on sw -> has sw OPERATION_ENABLED = true ->
  has sw TARGET_REACHED = true ->
  determineStateFromStatusWord MOVING sw node = POWER_ON_DISABLE_OPERATION.
Proof. intros Hon Hop Htr. by_pattern. Qed.

Lemma derive_CYCLE_POWER_SHUTDOWN sw node :
  switched_on sw -> has sw OPERATION_ENABLED = false ->
  has sw MANUFACTURER_SPECIFIC1 = false ->
  determineStateFromStatusWord FAULT_RESET sw node = CYCLE_POWER_SHUTDOWN.
Proof. intros Hon Hop Hmfg. by_pattern. Qed.

Lemma derive_switched_off cur sw node :
  cur <> INITIAL_STATE -> switched_off sw ->
  determineStateFromStatusWord cur sw node = POWER_ON_DISABLE_OPERATION.
Proof.
  intros Hcur Hoff. unfold switched_off in Hoff.
  destruct Hoff as (Hf & Hr & Hs & Ho).
  unfold determineStateFromStatusWord. rewrite Hf, Hr, Hs, Ho. cbn.
  rewrite bool_decide_eq_false_2 by exact Hcur. reflexivity.
Qed.

(** What entering a state does, state by state. *)
Local Ltac entering :=
  intros Hne; unfold setState; rewrite bool_decide_eq_true_2 by exact Hne;
  try reflexivity.

Lemma setState_READY_FOR_HOMING d :
  m_state d <> READY_FOR_HOMING ->
  setState READY_FOR_HOMING d
  = set_m_state READY_FOR_HOMING (emit (SubmitWrite 0x6040 0 0x001f) d).
Proof. entering. Qed.

Lemma setState_HOMING d :
  m_state d <> HOMING -> setState HOMING d = set_m_state HOMING d.
Proof. entering. Qed.

Lemma setState_MOVING d :
  m_state d <> MOVING -> setState MOVING d = set_m_state MOVING d.
Proof. entering. Qed.

Lemma setState_POWER_ON_DISABLE_OPERATION d :
  m_state d <> POWER_ON_DISABLE_OPERATION ->
  setState POWER_ON_DISABLE_OPERATION d
  = set_m_state POWER_ON_DISABLE_OPERATION (emit (CallSetter motorControlWordSetter 7) d).
Proof.
  entering. unfold callSetter.
  destruct (setter_completes _ _ _); reflexivity.
Qed.

Lemma setState_CYCLE_POWER_SHUTDOWN d :
  m_state d <> CYCLE_POWER_SHUTDOWN ->
  setState CYCLE_POWER_SHUTDOWN d
  = set_m_state CYCLE_POWER_SHUTDOWN (emit (SubmitWrite 0x6040 0 0x0006) d).
Proof. entering. Qed.

Lemma setState_IDLE d :
  m_state d <> IDLE ->
  setState IDLE d = set_m_state IDLE (processOldestCallbackOnIdle d).
Proof. entering. Qed.

Lemma setState_PREPARE_MOVE d :
  m_state d <> PREPARE_MOVE ->
  setState PREPARE_MOVE d = set_m_state PREPARE_MOVE (prepareMove d).
Proof. entering. Qed.

Lemma setState_READY_TO_MOVE d :
  m_state d <> READY_TO_MOVE ->
  setState READY_TO_MOVE d = set_m_state READY_TO_MOVE (executeMove d).
Proof. entering. Qed.

Lemma setState_FAULT_RESET d :
  m_state d <> FAULT_RESET ->
  setState FAULT_RESET d = set_m_state FAULT_RESET (performFaultReset d).
Proof. entering. Qed.

Lemma setState_NODE_RESET d :
  m_state d <> NODE_RESET ->
  setState NODE_RESET d = set_m_state NODE_RESET (emit NmtCommandResetNode d).
Proof. entering. Qed.

Lemma home_in_IDLE method researchSpeed releaseSpeed accel offset callback d :
  m_state d = IDLE ->
  home method researchSpeed releaseSpeed accel offset callback d
  = emit_all (homing_writes method researchSpeed releaseSpeed accel offset)
      (set_m_state PREPARE_HOMING (addCallbackOnIdle (user callback) d)).
Proof.
  intros Hidle. unfold home. rewrite bool_decide_eq_true_2 by exact Hidle.
  unfold prepareHoming, setState. cbn [m_state addCallbackOnIdle set_m_callbackOnIDLE].
  rewrite Hidle. reflexivity.
Qed.

(** One status word of the own node, for a driver outside a pair in the
    state [cur]. *)
Lemma status_word_single cur next sw d :
  single d -> m_state d = cur ->
  determineStateFromStatusWord cur sw (id d) = next ->
  handleStatusWordChange sw false d = setState next (set_m_statusWord sw d).
Proof.
  intros Hsingle <- <-. apply handleStatusWordChange_single, Hsingle.
Qed.

(** X7.  A homing job of an idle driver outside a pair, from the call to
    the idle callback.  [home] enters PREPARE_HOMING and submits the eight
    writes; a status word "switched on, operation enabled" starts the homing
    with the control word 0x001f; when that write has completed the driver
    is HOMING; "target reached" with the attained bit takes it to
    POWER_ON_DISABLE_OPERATION, where it disables the operation with the
    control word 7; "switched on, operation not enabled" takes it to IDLE,
    and there the callback given to [home] is called.  Nothing else is sent
    or called, and the queue is empty again. *)
Theorem homing_job_reaches_idle
    (method researchSpeed releaseSpeed accel offset : Z) (tag : nat)
    (enabled attained disabled : Z) d :
  single d -> m_state d = IDLE -> m_callbackOnIDLE d = [] ->
  switched_on enabled -> has enabled OPERATION_ENABLED = true ->
  switched_on attained -> has attained OPERATION_ENABLED = true ->
  has attained TARGET_REACHED = true ->
  has attained OPERATION_MODE_SPECIFIC1 = true ->
  switched_on disabled -> has disabled OPERATION_ENABLED = false ->
  let d1 := home method researchSpeed releaseSpeed accel offset (Some tag) d in
  let d2 := handleStatusWordChange enabled false d1 in
  let d3 := homing_write_completion d2 in
  let d4 := handleStatusWordChange attained false d3 in
  let d5 := handleStatusWordChange disabled false d4 in
  [m_state d1; m_state d2; m_state d3; m_state d4; m_state d5]
  = [PREPARE_HOMING; READY_FOR_HOMING; HOMING; POWER_ON_DISABLE_OPERATION; IDLE]
  /\ effects d5
     = effects d
       ++ homing_writes method researchSpeed releaseSpeed accel offset
       ++ [ SubmitWrite 0x6040 0 0x001f;
            CallSetter motorControlWordSetter 7;
            Invoke (UserCallback tag) ]
  /\ m_callbackOnIDLE d5 = [].
Proof.
  intros Hsingle Hidle Hqueue Hon1 Hop1 Hon2 Hop2 Htr2 Homs2 Hon3 Hop3.
  intros d1 d2 d3 d4 d5.
  set (D1 := emit_all (homing_writes method researchSpeed releaseSpeed accel offset)
               (set_m_state PREPARE_HOMING
                  (addCallbackOnIdle (Some (UserCallback tag)) d))).
  set (D2 := set_m_state READY_FOR_HOMING
               (emit (SubmitWrite 0x6040 0 0x001f) (set_m_statusWord enabled D1))).
  set (D3 := set_m_state HOMING D2).
  set (D4 := set_m_state POWER_ON_DISABLE_OPERATION
               (emit (CallSetter motorControlWordSetter 7)
                  (set_m_statusWord attained D3))).
  set (D5 := set_m_state IDLE
               (processOldestCallbackOnIdle (set_m_statusWord disabled D4))).
  assert (E1 : d1 = D1) by (apply home_in_IDLE, Hidle).
  assert (E2 : d2 = D2).
  { subst d2. rewrite E1.
    rewrite (status_word_single PREPARE_HOMING READY_FOR_HOMING enabled D1);
      [ apply setState_READY_FOR_HOMING; discriminate
      | exact Hsingle | reflexivity
      | apply derive_READY_FOR_HOMING; assumption ]. }
  assert (E3 : d3 = D3).
  { subst d3. rewrite E2. apply setState_HOMING. discriminate. }
  assert (E4 : d4 = D4).
  { subst d4. rewrite E3.
    rewrite (status_word_single HOMING POWER_ON_DISABLE_OPERATION attained D3);
      [ apply setState_POWER_ON_DISABLE_OPERATION; discriminate
      | exact Hsingle | reflexivity
      | apply derive_homing_done; assumption ]. }
  assert (E5 : d5 = D5).
  { subst d5. rewrite E4.
    rewrite (status_word_single POWER_ON_DISABLE_OPERATION IDLE disabled D4);
      [ apply setState_IDLE; discriminate
      | exact Hsingle | reflexivity
      | apply derive_IDLE; assumption ]. }
  clearbody d1 d2 d3 d4 d5. subst d1 d2 d3 d4 d5.
  assert (Hq : m_callbackOnIDLE (set_m_statusWord disabled D4)
               = [] ++ [Some (UserCallback tag)])
    by (cbn; rewrite Hqueue; reflexivity).
  destruct (processOldest_snoc _ _ _ Hq) as (Heff & Hempty & _).
  split; [reflexivity |]. split.
  - change (effects D5)
      with (effects (processOldestCallbackOnIdle (set_m_statusWord disabled D4))).
    rewrite Heff. cbn. rewrite <- !app_assoc. reflexivity.
  - exact Hempty.
Qed.

Lemma homing_job_reaches_idle_witness :
  effects
    (handleStatusWordChange 0x0233 false
       (handleStatusWordChange 0x1637 false
          (homing_write_completion
             (handleStatusWordChange 0x0237 false
                (home 35 1000 100 5000 0 (Some 1%nat) Sample.idle_motor)))))
  = effects Sample.idle_motor
    ++ homing_writes 35 1000 100 5000 0
    ++ [ SubmitWrite 0x6040 0 0x001f;
         CallSetter motorControlWordSetter 7;
         Invoke (UserCallback 1) ].
Proof.
  refine (proj1 (proj2
            (homing_job_reaches_idle 35 1000 100 5000 0 1 0x0237 0x1637 0x0233
               Sample.idle_motor _ _ _ _ _ _ _ _ _ _ _)));
    vm_compute; repeat split.
Defined.

Lemma executeMove_complete d :
  setters_complete d ->
  executeMove d
  = emit (CallSetter motorControlWordSetter (Z.lor (m_currentMoveMode d) 0x000f)) d.
Proof.
  intros Hall. unfold executeMove, callSetter.
  change (setter_completes (emit ?e d)) with (setter_completes d).
  rewrite Hall. reflexivity.
Qed.

Lemma move_in_IDLE mode position speed accel deaccel callback d :
  single d -> m_state d = IDLE -> setters_complete d ->
  move mode position speed accel deaccel callback d
  = set_m_state PREPARE_MOVE
      (emit_all
         [ CallSetter motorOperationModeSetter 1;
           CallSetter motorControlWordSetter 7;
           CallSetter motorPositionSetter position;
           CallSetter motorVelocitySetter speed;
           CallSetter motorAccelerationSetter accel;
           CallSetter motorDecelerationSetter deaccel;
           CallSetter motorControlWordSetter (Z.lor mode 0x011f) ]
         (addCallbackOnIdle (user callback)
            (set_move_job mode position speed accel deaccel d))).
Proof.
  intros [Hfollowing Hfollows] Hidle Hall. unfold move.
  cbn [m_state set_move_job]. rewrite bool_decide_eq_true_2 by exact Hidle.
  unfold move_prepareMove.
  cbn [m_followingNodeID addCallbackOnIdle set_m_callbackOnIDLE set_move_job].
  rewrite Hfollowing. cbn [Z.eqb negb].
  rewrite setState_PREPARE_MOVE by (cbn; rewrite Hidle; discriminate).
  rewrite prepareMove_call_in_order.
  change (m_followingNodeID
            (addCallbackOnIdle (user callback)
               (set_move_job mode position speed accel deaccel d)))
    with (m_followingNodeID d).
  rewrite Hfollowing. cbn [Z.eqb negb].
  rewrite call_in_order_complete by exact Hall.
  reflexivity.
Qed.

(** X8.  A move of an idle driver outside a pair whose setters complete at
    once, from the call to the idle callback.  [move] stores the job, enters
    PREPARE_MOVE and calls the seven setters; "operation enabled" with the
    set-point acknowledge takes the driver to READY_TO_MOVE, where it starts
    the move with the control word (mode | 0x000f); "target not reached,
    acknowledge cleared" takes it to MOVING; "target reached" to
    POWER_ON_DISABLE_OPERATION, where it disables the operation with the
    control word 7; "operation not enabled" to IDLE, and there the callback
    given to [move] is called.  Nothing else is sent or called. *)
Theorem move_job_reaches_idle
    (mode position speed accel deaccel : Z) (tag : nat)
    (acknowledged started reached disabled : Z) d :
  single d -> m_state d = IDLE -> m_callbackOnIDLE d = [] -> setters_complete d ->
  switched_on acknowledged -> has acknowledged OPERATION_ENABLED = true ->
  has acknowledged OPERATION_MODE_SPECIFIC1 = true ->
  switched_on started -> has started OPERATION_ENABLED = true ->
  has started TARGET_REACHED = false ->
  has started OPERATION_MODE_SPECIFIC1 = false ->
  switched_on reached -> has reached OPERATION_ENABLED = true ->
  has reached TARGET_REACHED = true ->
  switched_on disabled -> has disabled OPERATION_ENABLED = false ->
  let d1 := move mode position speed accel deaccel (Some tag) d in
  let d2 := handleStatusWordChange acknowledged false d1 in
  let d3 := handleStatusWordChange started false d2 in
  let d4 := handleStatusWordChange reached false d3 in
  let d5 := handleStatusWordChange disabled false d4 in
  [m_state d1; m_state d2; m_state d3; m_state d4; m_state d5]
  = [PREPARE_MOVE; READY_TO_MOVE; MOVING; POWER_ON_DISABLE_OPERATION; IDLE]
  /\ effects d5
     = effects d
       ++ [ CallSetter motorOperationModeSetter 1;
            CallSetter motorControlWordSetter 7;
            CallSetter motorPositionSetter position;
            CallSetter motorVelocitySetter speed;
            CallSetter motorAccelerationSetter accel;
            CallSetter motorDecelerationSetter deaccel;
            CallSetter motorControlWordSetter (Z.lor mode 0x011f);
            CallSetter motorControlWordSetter (Z.lor mode 0x000f);
            CallSetter motorControlWordSetter 7;
            Invoke (UserCallback tag) ]
  /\ m_callbackOnIDLE d5 = [].
Proof.
  intros Hsingle Hidle Hqueue Hall Hon1 Hop1 Homs1 Hon2 Hop2 Htr2 Homs2
    Hon3 Hop3 Htr3 Hon4 Hop4.
  intros d1 d2 d3 d4 d5.
  set (D1 := set_m_state PREPARE_MOVE
               (emit_all
                  [ CallSetter motorOperationModeSetter 1;
                    CallSetter motorControlWordSetter 7;
                    CallSetter motorPositionSetter position;
                    CallSetter motorVelocitySetter speed;
                    CallSetter motorAccelerationSetter accel;
                    CallSetter motorDecelerationSetter deaccel;
                    CallSetter motorControlWordSetter (Z.lor mode 0x011f) ]
                  (addCallbackOnIdle (Some (UserCallback tag))
                     (set_move_job mode position speed accel deaccel d)))).
  set (D2 := set_m_state READY_TO_MOVE
               (emit (CallSetter motorControlWordSetter (Z.lor mode 0x000f))
                  (set_m_statusWord acknowledged D1))).
  set (D3 := set_m_state MOVING (set_m_statusWord started D2)).
  set (D4 := set_m_state POWER_ON_DISABLE_OPERATION
               (emit (CallSetter motorControlWordSetter 7)
                  (set_m_statusWord reached D3))).
  set (D5 := set_m_state IDLE
               (processOldestCallbackOnIdle (set_m_statusWord disabled D4))).
  assert (E1 : d1 = D1) by (apply move_in_IDLE; assumption).
  assert (E2 : d2 = D2).
  { subst d2. rewrite E1.
    rewrite (status_word_single PREPARE_MOVE READY_TO_MOVE acknowledged D1);
      [ rewrite setState_READY_TO_MOVE by discriminate;
        rewrite executeMove_complete by exact Hall; reflexivity
      | exact Hsingle | reflexivity
      | apply derive_READY_TO_MOVE; assumption ]. }
  assert (E3 : d3 = D3).
  { subst d3. rewrite E2.
    rewrite (status_word_single READY_TO_MOVE MOVING started D2);
      [ apply setState_MOVING; discriminate
      | exact Hsingle | reflexivity
      | apply derive_MOVING; assumption ]. }
  assert (E4 : d4 = D4).
  { subst d4. rewrite E3.
    rewrite (status_word_single MOVING POWER_ON_DISABLE_OPERATION reached D3);
      [ apply setState_POWER_ON_DISABLE_OPERATION; discriminate
      | exact Hsingle | reflexivity
      | apply derive_move_done; assumption ]. }
  assert (E5 : d5 = D5).
  { subst d5. rewrite E4.
    rewrite (status_word_single POWER_ON_DISABLE_OPERATION IDLE disabled D4);
      [ apply setState_IDLE; discriminate
      | exact Hsingle | reflexivity
      | apply derive_IDLE; assumption ]. }
  clearbody d1 d2 d3 d4 d5. subst d1 d2 d3 d4 d5.
  assert (Hq : m_callbackOnIDLE (set_m_statusWord disabled D4)
               = [] ++ [Some (UserCallback tag)])
    by (cbn; rewrite Hqueue; reflexivity).
  destruct (processOldest_snoc _ _ _ Hq) as (Heff & Hempty & _).
  split; [reflexivity |]. split.
  - change (effects D5)
      with (effects (processOldestCallbackOnIdle (set_m_statusWord disabled D4))).
    rewrite Heff. cbn. rewrite <- !app_assoc. reflexivity.
  - exact Hempty.
Qed.

Lemma move_job_reaches_idle_witness :
  m_state
    (handleStatusWordChange 0x0233 false
       (handleStatusWordChange 0x0637 false
          (handleStatusWordChange 0x0237 false
             (handleStatusWordChange 0x1237 false
                (move 0 20000 1000 500 500 (Some 1%nat) Sample.idle_motor)))))
  = IDLE.
Proof.
  pose proof (move_job_reaches_idle 0 20000 1000 500 500 1 0x1237 0x0237 0x0637 0x0233
                Sample.idle_motor) as H.
  cbn zeta in H.
  destruct H as [Hstates _]; [vm_compute; repeat split .. |].
  exact (f_equal (fun states => nth 4 states IDLE) Hstates).
Defined.

End MotorJobs.

(* ===================================================================== *)
(** * Busy drivers, NMT events and the recovery from a fault              *)
(* ===================================================================== *)
Section MotorRecovery.
Import ErrorCode MotorState MotorDriver MotorApi MotorSequences.

Implicit Types d : MotorDriver.
Implicit Types n : MotorNode.

(** X9.  A driver that is not idle does nothing on [move] or [home] but
    remember the job: nothing is sent, no state changes, and the queue gets
    the job (posted when the driver becomes idle) and, behind it, the
    callback of the user, so the job is taken first.  [move] overwrites the
    parameters of the move at once, also while the driver is busy: the
    setter calls of the next [prepareMove] are those of the last [move],
    whichever job starts it; [home] leaves them alone. *)
Theorem busy_driver_queues_the_job
    (mode position speed accel deaccel : Z)
    (method researchSpeed releaseSpeed homingAccel offset : Z)
    (callback : option nat) d :
  m_state d <> IDLE ->
  let moved := move mode position speed accel deaccel callback d in
  let homed := home method researchSpeed releaseSpeed homingAccel offset callback d in
  (effects moved = effects d /\ m_state moved = m_state d
   /\ m_callbackOnIDLE moved
      = user callback :: Some (PostingCallback PostPrepareMove) :: m_callbackOnIDLE d
   /\ move_sequence moved
      = [ (motorOperationModeSetter, 1); (motorControlWordSetter, 7);
          (motorPositionSetter, position); (motorVelocitySetter, speed);
          (motorAccelerationSetter, accel); (motorDecelerationSetter, deaccel);
          (motorControlWordSetter, Z.lor mode 0x011f) ])
  /\ (effects homed = effects d /\ m_state homed = m_state d
      /\ m_callbackOnIDLE homed
         = user callback :: Some (PostingCallback PostPrepareHoming) :: m_callbackOnIDLE d
      /\ move_sequence homed = move_sequence d).
Proof.
  intros Hbusy moved homed. subst moved homed. unfold move, home.
  cbn [m_state set_move_job].
  rewrite !bool_decide_eq_false_2 by exact Hbusy.
  repeat split.
Qed.

Lemma busy_driver_queues_the_job_witness :
  m_callbackOnIDLE (move 0 20000 1000 500 500 (Some 1%nat) Sample.moving_motor)
  = [Some (UserCallback 1); Some (PostingCallback PostPrepareMove)].
Proof.
  refine (proj1 (proj2 (proj2 (proj1
            (busy_driver_queues_the_job 0 20000 1000 500 500 0 0 0 0 0 (Some 1%nat)
               Sample.moving_motor _))))).
  vm_compute. discriminate.
Defined.

Lemma handleInitialStateSwitching_cases n :
  let n' := handleInitialStateSwitching n in
  m_masterNmtState n' = m_masterNmtState n
  /\ m_nodeNmtState n' = m_nodeNmtState n
  /\ nmtStateChangedCalls n' = nmtStateChangedCalls n
  /\ (motor n' = motor n
      \/ (m_masterNmtState n = Command_START /\ m_nodeNmtState n = State_START
          /\ ((m_state (motor n) = FAULT_STATE \/ m_state (motor n) = NODE_RESET)
              /\ motor n' = setState FAULT_RESET (motor n)
              \/ m_state (motor n) = INITIAL_POWER_ON
                 /\ motor n' = setState CYCLE_POWER_SHUTDOWN (motor n)
              \/ m_state (motor n) = INITIAL_POWER_OFF
                 /\ motor n' = setState POWER_ON_DISABLE_OPERATION (motor n)))).
Proof.
  intros n'. subst n'. unfold handleInitialStateSwitching.
  destruct (bool_decide (m_masterNmtState n = Command_START)
            && bool_decide (m_nodeNmtState n = State_START)) eqn:Estart;
    [| split; [reflexivity | split; [reflexivity | split; [reflexivity |]]];
       left; reflexivity].
  rewrite andb_true_iff, !bool_decide_eq_true in Estart. destruct Estart as [Hm Hn].
  destruct (bool_decide (m_state (motor n) = FAULT_STATE)
            || bool_decide (m_state (motor n) = NODE_RESET)) eqn:Efault.
  { rewrite orb_true_iff, !bool_decide_eq_true in Efault.
    split; [reflexivity | split; [reflexivity | split; [reflexivity |]]].
    right. split; [exact Hm |]. split; [exact Hn |].
    left. split; [exact Efault | reflexivity]. }
  destruct (bool_decide (m_state (motor n) = INITIAL_POWER_ON)) eqn:Eon.
  { apply bool_decide_eq_true in Eon.
    split; [reflexivity | split; [reflexivity | split; [reflexivity |]]].
    right. split; [exact Hm |]. split; [exact Hn |].
    right; left. split; [exact Eon | reflexivity]. }
  destruct (bool_decide (m_state (motor n) = INITIAL_POWER_OFF)) eqn:Eoff.
  { apply bool_decide_eq_true in Eoff.
    split; [reflexivity | split; [reflexivity | split; [reflexivity |]]].
    right. split; [exact Hm |]. split; [exact Hn |].
    right; right. split; [exact Eoff | reflexivity]. }
  split; [reflexivity | split; [reflexivity | split; [reflexivity |]]].
  left. reflexivity.
Qed.

(** X10.  NMT events and the motor.  An NMT command of the master, an NMT
    state of the node and a boot notification change the state of the motor
    only when afterwards the master is in START and the node is in START,
    and then only from FAULT_STATE or NODE_RESET to FAULT_RESET, from
    INITIAL_POWER_ON to CYCLE_POWER_SHUTDOWN and from INITIAL_POWER_OFF to
    POWER_ON_DISABLE_OPERATION.  A boot without error counts as the node
    being in START whatever state it reports.  A failed boot changes neither
    the NMT members nor the motor state; it calls the error callback, if
    one is installed, with NODE_MISSING for the status 'B' and with
    NODE_BOOT_FAILED otherwise. *)
Theorem nmt_events_start_the_motor (cs : NmtCommand) (st : NmtState) (es : Z) n :
  let started (n' : MotorNode) :=
    m_state (motor n') = m_state (motor n)
    \/ (m_masterNmtState n' = Command_START /\ m_nodeNmtState n' = State_START
        /\ (((m_state (motor n) = FAULT_STATE \/ m_state (motor n) = NODE_RESET)
             /\ m_state (motor n') = FAULT_RESET)
            \/ (m_state (motor n) = INITIAL_POWER_ON
                /\ m_state (motor n') = CYCLE_POWER_SHUTDOWN)
            \/ (m_state (motor n) = INITIAL_POWER_OFF
                /\ m_state (motor n') = POWER_ON_DISABLE_OPERATION))) in
  (m_masterNmtState (OnCommand cs n) = cs
   /\ m_nodeNmtState (OnCommand cs n) = m_nodeNmtState n
   /\ started (OnCommand cs n))
  /\ (m_nodeNmtState (OnState st n) = st
      /\ m_masterNmtState (OnState st n) = m_masterNmtState n
      /\ started (OnState st n))
  /\ (if es =? 0
      then m_nodeNmtState (OnBoot st es n) = State_START
           /\ m_masterNmtState (OnBoot st es n) = m_masterNmtState n
           /\ started (OnBoot st es n)
      else m_nodeNmtState (OnBoot st es n) = m_nodeNmtState n
           /\ m_masterNmtState (OnBoot st es n) = m_masterNmtState n
           /\ m_state (motor (OnBoot st es n)) = m_state (motor n)
           /\ effects (motor (OnBoot st es n))
              = effects (motor n)
                ++ (if m_errorCallback (motor n)
                    then [ErrorCallback (if es =? 66 then NODE_MISSING
                                         else NODE_BOOT_FAILED)]
                    else [])).
Proof.
  intros started.
  assert (Hstarted : forall n0,
            m_state (motor n0) = m_state (motor n) ->
            let n' := handleInitialStateSwitching n0 in
            m_masterNmtState n' = m_masterNmtState n0
            /\ m_nodeNmtState n' = m_nodeNmtState n0
            /\ started n').
  { intros n0 Hsame n'.
    destruct (handleInitialStateSwitching_cases n0) as (Hm & Hn & _ & Hmotor).
    fold n' in Hm, Hn, Hmotor. split; [exact Hm |]. split; [exact Hn |].
    unfold started. rewrite Hm, Hn, <- Hsame.
    destruct Hmotor as [-> | (Hms & Hns & Hcase)]; [left; reflexivity |].
    right. split; [exact Hms |]. split; [exact Hns |].
    destruct Hcase as [[Hf ->] | [[Hon ->] | [Hoff ->]]]; rewrite m_state_setState; tauto. }
  split; [| split].
  - destruct (Hstarted
                (mk_MotorNode (motor n) cs (m_nodeNmtState n)
                   (m_nmtStateChangedCallback n) (nmtStateChangedCalls n))
                eq_refl) as (H1 & H2 & H3).
    split; [exact H1 | split; [exact H2 | exact H3]].
  - destruct (Hstarted
                (mk_MotorNode (motor n) (m_masterNmtState n) st
                   (m_nmtStateChangedCallback n)
                   (if m_nmtStateChangedCallback n then nmtStateChangedCalls n ++ [st]
                    else nmtStateChangedCalls n))
                eq_refl) as (H1 & H2 & H3).
    split; [exact H2 | split; [exact H1 | exact H3]].
  - unfold OnBoot, DCFDriver_OnBoot.
    destruct (Z.eqb_spec es 0) as [-> | Hes].
    + destruct (Hstarted
                  (mk_MotorNode (motor n) (m_masterNmtState n) State_START
                     (m_nmtStateChangedCallback n) (nmtStateChangedCalls n))
                  eq_refl) as (H1 & H2 & H3).
      split; [exact H2 | split; [exact H1 | exact H3]].
    + cbn [negb andb with_motor motor m_masterNmtState m_nodeNmtState].
      destruct (m_errorCallback (motor n)); [destruct (es =? 66) |];
        cbn; rewrite ?app_nil_r;
        (split; [reflexivity | split; [reflexivity | split; reflexivity]]).
Qed.

(** X11.  The recovery from a fault of a driver outside a pair, from the
    call to the idle callback, with the master in NMT START.
    [recoverFromFault] in FAULT_STATE resets the node with NMT and waits in
    NODE_RESET, without arming the watchdog; the boot notification without
    error takes the driver to FAULT_RESET, where it writes the fault-reset
    control word 0x0080 because the last status word had the FAULT bit set;
    "switched on, operation not enabled" takes it to CYCLE_POWER_SHUTDOWN
    with the control word 0x0006, "switched off" to
    POWER_ON_DISABLE_OPERATION with the control word 7, and "switched on"
    to IDLE, where the callback given to [recoverFromFault] is called. *)
Theorem fault_recovery_reaches_idle
    (tag : nat) (st : NmtState) (recovered off on : Z) n :
  single (motor n) -> m_state (motor n) = FAULT_STATE ->
  m_callbackOnIDLE (motor n) = [] ->
  has (m_statusWord (motor n)) FAULT = true ->
  m_masterNmtState n = Command_START ->
  switched_on recovered -> has recovered OPERATION_ENABLED = false ->
  has recovered MANUFACTURER_SPECIFIC1 = false ->
  switched_off off ->
  switched_on on -> has on OPERATION_ENABLED = false ->
  let n1 := with_motor (fun d => fst (recoverFromFault (Some tag) d)) n in
  let n2 := OnBoot st 0 n1 in
  let d3 := handleStatusWordChange recovered false (motor n2) in
  let d4 := handleStatusWordChange off false d3 in
  let d5 := handleStatusWordChange on false d4 in
  snd (recoverFromFault (Some tag) (motor n)) = false
  /\ [m_state (motor n1); m_state (motor n2); m_state d3; m_state d4; m_state d5]
     = [NODE_RESET; FAULT_RESET; CYCLE_POWER_SHUTDOWN; POWER_ON_DISABLE_OPERATION; IDLE]
  /\ effects d5
     = effects (motor n)
       ++ [ NmtCommandResetNode;
            SubmitWrite 0x6040 0 0x0080;
            SubmitWrite 0x6040 0 0x0006;
            CallSetter motorControlWordSetter 7;
            Invoke (UserCallback tag) ]
  /\ m_callbackOnIDLE d5 = [].
Proof.
  intros Hsingle Hfault Hqueue Hbit Hmaster Hon1 Hop1 Hmfg1 Hoff Hon3 Hop3.
  intros n1 n2 d3 d4 d5.
  set (d := motor n) in *.
  set (D1 := set_m_state NODE_RESET
               (emit NmtCommandResetNode (addCallbackOnIdle (Some (UserCallback tag)) d))).
  set (D2 := set_m_state FAULT_RESET (emit (SubmitWrite 0x6040 0 0x0080) D1)).
  set (D3 := set_m_state CYCLE_POWER_SHUTDOWN
               (emit (SubmitWrite 0x6040 0 0x0006) (set_m_statusWord recovered D2))).
  set (D4 := set_m_state POWER_ON_DISABLE_OPERATION
               (emit (CallSetter motorControlWordSetter 7) (set_m_statusWord off D3))).
  set (D5 := set_m_state IDLE
               (processOldestCallbackOnIdle (set_m_statusWord on D4))).
  assert (E0 : recoverFromFault (Some tag) d = (D1, false)).
  { unfold recoverFromFault. cbn [m_state addCallbackOnIdle set_m_callbackOnIDLE user].
    rewrite bool_decide_eq_true_2 by exact Hfault.
    rewrite setState_NODE_RESET by (cbn; rewrite Hfault; discriminate).
    reflexivity. }
  assert (E1 : motor n1 = D1).
  { subst n1. cbn [with_motor motor]. fold d. rewrite E0. reflexivity. }
  assert (M1 : m_masterNmtState n1 = Command_START) by exact Hmaster.
  assert (E2 : motor n2 = D2).
  { subst n2. unfold OnBoot, DCFDriver_OnBoot.
    cbn [Z.eqb negb andb with_motor motor m_masterNmtState m_nodeNmtState
         m_nmtStateChangedCallback nmtStateChangedCalls].
    unfold handleInitialStateSwitching.
    cbn [motor m_masterNmtState m_nodeNmtState]. rewrite M1, E1.
    cbn [bool_decide decide_rel andb orb m_state D1 set_m_state].
    rewrite !bool_decide_eq_true_2 by reflexivity.
    rewrite orb_true_r. cbn [andb with_motor motor].
    rewrite setState_FAULT_RESET by discriminate.
    unfold performFaultReset.
    rewrite determineState_from_INITIAL_STATE.
    change (m_statusWord D1) with (m_statusWord d). rewrite Hbit.
    reflexivity. }
  assert (E3 : d3 = D3).
  { subst d3. rewrite E2.
    rewrite (status_word_single FAULT_RESET CYCLE_POWER_SHUTDOWN recovered D2);
      [ apply setState_CYCLE_POWER_SHUTDOWN; discriminate
      | exact Hsingle | reflexivity
      | apply derive_CYCLE_POWER_SHUTDOWN; assumption ]. }
  assert (E4 : d4 = D4).
  { subst d4. rewrite E3.
    rewrite (status_word_single CYCLE_POWER_SHUTDOWN POWER_ON_DISABLE_OPERATION off D3);
      [ apply setState_POWER_ON_DISABLE_OPERATION; discriminate
      | exact Hsingle | reflexivity
      | apply derive_switched_off; [discriminate | assumption] ]. }
  assert (E5 : d5 = D5).
  { subst d5. rewrite E4.
    rewrite (status_word_single POWER_ON_DISABLE_OPERATION IDLE on D4);
      [ apply setState_IDLE; discriminate
      | exact Hsingle | reflexivity
      | apply derive_IDLE; assumption ]. }
  clearbody d3 d4 d5 n1 n2. subst d3 d4 d5.
  assert (Hq : m_callbackOnIDLE (set_m_statusWord on D4) = [] ++ [Some (UserCallback tag)])
    by (cbn; rewrite Hqueue; reflexivity).
  destruct (processOldest_snoc _ _ _ Hq) as (Heff & Hempty & _).
  split; [rewrite E0; reflexivity |].
  split; [rewrite E1, E2; reflexivity |]. split.
  - change (effects D5)
      with (effects (processOldestCallbackOnIdle (set_m_statusWord on D4))).
    rewrite Heff. cbn. rewrite <- !app_assoc. reflexivity.
  - exact Hempty.
Qed.

Lemma fault_recovery_reaches_idle_witness :
  let n := mk_MotorNode Sample.faulted_motor Command_START State_STOP false [] in
  let n2 := OnBoot State_BOOTUP 0
              (with_motor (fun d => fst (recoverFromFault (Some 1%nat) d)) n) in
  m_state
    (handleStatusWordChange 0x0233 false
       (handleStatusWordChange 0x0231 false
          (handleStatusWordChange 0x0233 false (motor n2))))
  = IDLE.
Proof.
  intros n n2.
  pose proof (fault_recovery_reaches_idle 1 State_BOOTUP 0x0233 0x0231 0x0233 n) as H.
  cbn zeta in H.
  destruct H as (_ & Hstates & _); [vm_compute; repeat split .. |].
  exact (f_equal (fun states => nth 4 states INITIAL_STATE) Hstates).
Defined.

(** X21.  The watchdog of the fault reset.  [recoverFromFault] called while
    the fault reset is under way only queues the callback and arms the
    watchdog.  When the watchdog expires and the driver is still in
    FAULT_RESET, it resets the node with NMT (NODE_RESET); the boot
    notification without error then starts the fault reset again, with the
    action the last status word asks for, and the callback is still queued.
    A watchdog that is cancelled, or that expires when the driver has left
    FAULT_RESET, does nothing. *)
Theorem watchdog_retries_fault_reset (tag : nat) (st : NmtState) n :
  m_state (motor n) = FAULT_RESET -> m_masterNmtState n = Command_START ->
  let d1 := fst (recoverFromFault (Some tag) (motor n)) in
  let d2 := watchdog_fired no_error d1 in
  let n3 := OnBoot st 0 (with_motor (fun _ => d2) n) in
  let sw := m_statusWord (motor n) in
  snd (recoverFromFault (Some tag) (motor n)) = true
  /\ d1 = addCallbackOnIdle (Some (UserCallback tag)) (motor n)
  /\ m_state d2 = NODE_RESET
  /\ effects d2 = effects (motor n) ++ [NmtCommandResetNode]
  /\ m_state (motor n3) = FAULT_RESET
  /\ effects (motor n3)
     = effects (motor n)
       ++ [ NmtCommandResetNode;
            if has sw FAULT then SubmitWrite 0x6040 0 0x0080
            else if has sw READY_TO_SWITCH_ON && negb (has sw SWITCHED_ON)
                    && negb (has sw OPERATION_ENABLED)
                 then Post (PostSetState POWER_ON_DISABLE_OPERATION)
                 else Post (PostSetState CYCLE_POWER_SHUTDOWN) ]
  /\ m_callbackOnIDLE (motor n3) = Some (UserCallback tag) :: m_callbackOnIDLE (motor n)
  /\ (forall ec, is_error ec = true -> watchdog_fired ec d1 = d1)
  /\ (forall ec d, m_state d <> FAULT_RESET -> watchdog_fired ec d = d).
Proof.
  intros Hreset Hmaster d1 d2 n3 sw.
  set (d := motor n) in *.
  set (D1 := addCallbackOnIdle (Some (UserCallback tag)) d).
  set (D2 := set_m_state NODE_RESET (emit NmtCommandResetNode D1)).
  assert (E0 : recoverFromFault (Some tag) d = (D1, true)).
  { unfold recoverFromFault. cbn [m_state addCallbackOnIdle set_m_callbackOnIDLE user].
    rewrite bool_decide_eq_false_2 by (rewrite Hreset; discriminate).
    rewrite bool_decide_eq_true_2 by exact Hreset. reflexivity. }
  assert (E1 : d1 = D1) by (subst d1; rewrite E0; reflexivity).
  assert (E2 : d2 = D2).
  { subst d2. rewrite E1. unfold watchdog_fired, retriggerFaultReset.
    cbn [is_error no_error ec_value Z.eqb negb].
    rewrite bool_decide_eq_true_2 by exact Hreset.
    apply setState_NODE_RESET. cbn. rewrite Hreset. discriminate. }
  assert (E3 : motor n3 = set_m_state FAULT_RESET (performFaultReset D2)).
  { subst n3. rewrite E2. unfold OnBoot, DCFDriver_OnBoot.
    cbn [Z.eqb negb andb with_motor motor m_masterNmtState m_nodeNmtState
         m_nmtStateChangedCallback nmtStateChangedCalls].
    unfold handleInitialStateSwitching.
    cbn [motor m_masterNmtState m_nodeNmtState]. rewrite Hmaster.
    cbn [m_state D2 set_m_state].
    rewrite !bool_decide_eq_true_2 by reflexivity.
    rewrite orb_true_r. cbn [andb with_motor motor].
    apply setState_FAULT_RESET. discriminate. }
  destruct (performFaultReset_effects D2) as (Heff & _ & Hqueue).
  split; [rewrite E0; reflexivity |].
  split; [exact E1 |].
  split; [rewrite E2; reflexivity |].
  split; [rewrite E2; reflexivity |].
  split; [rewrite E3; reflexivity |].
  split.
  { rewrite E3. cbn [effects set_m_state]. rewrite Heff.
    cbn. rewrite <- app_assoc. reflexivity. }
  split.
  { rewrite E3. cbn [m_callbackOnIDLE set_m_state]. rewrite Hqueue. reflexivity. }
  split.
  { intros ec Hec. unfold watchdog_fired. rewrite Hec. reflexivity. }
  intros ec d0 Hstate. unfold watchdog_fired, retriggerFaultReset.
  rewrite bool_decide_eq_false_2 by exact Hstate.
  destruct (negb (is_error ec)); reflexivity.
Qed.

Lemma watchdog_retries_fault_reset_witness :
  let n := mk_MotorNode
             (set_m_state FAULT_RESET Sample.faulted_motor) Command_START State_START
             false [] in
  m_state (watchdog_fired no_error (fst (recoverFromFault (Some 1%nat) (motor n))))
  = NODE_RESET.
Proof.
  intros n.
  refine (proj1 (proj2 (proj2
            (watchdog_retries_fault_reset 1 State_BOOTUP n _ _)))); reflexivity.
Defined.

End MotorRecovery.

(* ===================================================================== *)
(** * A move of a pair                                                    *)
(* ===================================================================== *)
Section PairMove.
Import ErrorCode MotorState MotorDriver MotorApi MotorSequences.

Implicit Types d : MotorDriver.

(** A status word of the main node at the main driver of a pair. *)
Lemma main_reports sw main' d :
  m_followsNodeID d = 0 -> m_followingNodeID d <> 0 ->
  determineStateFromStatusWord (m_mainNodeState d) sw (id d) = main' ->
  handleStatusWordChange sw false d
  = match aggregate_target (m_state d) main' (m_followingNodeState d) false with
    | Some s => setState s (set_m_mainNodeState main' (set_m_statusWord sw d))
    | None => set_m_mainNodeState main' (set_m_statusWord sw d)
    end.
Proof.
  intros Hfollows Hfollowing <-. unfold handleStatusWordChange, aggregate_target.
  cbn [negb m_followsNodeID m_followingNodeID set_m_statusWord].
  rewrite Hfollows. cbn [Z.eqb].
  destruct (Z.eqb_spec (m_followingNodeID d) 0) as [Hzero | _]; [contradiction |].
  cbn [m_state m_mainNodeState m_followingNodeState set_m_mainNodeState set_m_statusWord id].
  repeat match goal with
         | |- context [if ?b then _ else _] =>
             lazymatch b with
             | context [if _ then _ else _] => fail
             | _ => destruct b
             end
         end; reflexivity.
Qed.

(** A status word of the follower at the main driver of a pair. *)
Lemma follower_reports sw follower' d :
  m_followsNodeID d = 0 -> m_followingNodeID d <> 0 ->
  determineStateFromStatusWord (m_followingNodeState d) sw (m_followingNodeID d)
  = follower' ->
  handleStatusWordChange sw true d
  = match aggregate_target (m_state d) (m_mainNodeState d) follower' true with
    | Some s => setState s (set_m_followingNodeState follower' d)
    | None => set_m_followingNodeState follower' d
    end.
Proof.
  intros Hfollows Hfollowing <-. unfold handleStatusWordChange, aggregate_target.
  cbn [negb]. rewrite Hfollows. cbn [Z.eqb].
  destruct (Z.eqb_spec (m_followingNodeID d) 0) as [Hzero | _]; [contradiction |].
  cbn [m_state m_mainNodeState m_followingNodeState set_m_followingNodeState andb].
  repeat match goal with
         | |- context [if ?b then _ else _] =>
             lazymatch b with
             | context [if _ then _ else _] => fail
             | _ => destruct b
             end
         end; reflexivity.
Qed.

Lemma move_of_a_pair_in_IDLE mode position speed accel deaccel callback d :
  m_followingNodeID d <> 0 -> m_state d = IDLE -> setters_complete d ->
  move mode position speed accel deaccel callback d
  = set_m_state PREPARE_MOVE
      (emit_all
         [ CallSetter motorOperationModeSetter 1;
           CallSetter motorControlWordSetter 7;
           CallSetter motorPositionSetter position;
           CallSetter motorVelocitySetter speed;
           CallSetter motorAccelerationSetter accel;
           CallSetter motorDecelerationSetter deaccel;
           CallSetter motorControlWordSetter (Z.lor mode 0x011f) ]
         (set_m_followingNodeState PREPARE_MOVE
            (set_m_mainNodeState PREPARE_MOVE
               (addCallbackOnIdle (user callback)
                  (set_move_job mode position speed accel deaccel d))))).
Proof.
  intros Hfollowing Hidle Hall. unfold move.
  cbn [m_state set_move_job]. rewrite bool_decide_eq_true_2 by exact Hidle.
  unfold move_prepareMove.
  change (m_followingNodeID
            (addCallbackOnIdle (user callback)
               (set_move_job mode position speed accel deaccel d)))
    with (m_followingNodeID d).
  destruct (Z.eqb_spec (m_followingNodeID d) 0) as [Hzero | _]; [contradiction |].
  cbn [negb].
  rewrite setState_PREPARE_MOVE by (cbn; rewrite Hidle; discriminate).
  rewrite prepareMove_call_in_order.
  change (m_followingNodeID
            (set_m_mainNodeState PREPARE_MOVE
               (addCallbackOnIdle (user callback)
                  (set_move_job mode position speed accel deaccel d))))
    with (m_followingNodeID d).
  destruct (Z.eqb_spec (m_followingNodeID d) 0) as [Hzero | _]; [contradiction |].
  cbn [negb].
  rewrite call_in_order_complete by exact Hall.
  reflexivity.
Qed.

(** X22.  A move of a pair, at the driver of the main node, from the call
    to the idle callback; the setters complete at once.  [move] puts both
    slots and the aggregate state into PREPARE_MOVE and calls the seven
    setters.  In each of the four phases both drives report their status
    word, in either order.  The aggregate state becomes READY_TO_MOVE, and
    the move is started with the control word (mode | 0x000f), only when
    both drives have acknowledged the set-point; MOVING when the first one
    moves; POWER_ON_DISABLE_OPERATION, with the control word 7, when the
    main drive has reached the target (the follower reaching it first
    changes nothing); IDLE, with the call of the callback given to [move],
    only when both drives are idle again.  What is sent and called does not
    depend on the order of the reports. *)
Theorem pair_move_reaches_idle
    (mode position speed accel deaccel : Z) (tag : nat)
    (ackM ackF startedM startedF reachedM reachedF disabledM disabledF : Z)
    (o1 o2 o3 o4 : bool) d :
  m_followsNodeID d = 0 -> m_followingNodeID d <> 0 ->
  m_state d = IDLE -> m_callbackOnIDLE d = [] -> setters_complete d ->
  acknowledged ackM -> acknowledged ackF ->
  started startedM -> started startedF ->
  reached reachedM -> reached reachedF ->
  disabled disabledM -> disabled disabledF ->
  let d1 := move mode position speed accel deaccel (Some tag) d in
  let d2 := both_report ackM ackF o1 d1 in
  let d3 := both_report startedM startedF o2 d2 in
  let d4 := both_report reachedM reachedF o3 d3 in
  let d5 := both_report disabledM disabledF o4 d4 in
  [m_state d1; m_state d2; m_state d3; m_state d4; m_state d5]
  = [PREPARE_MOVE; READY_TO_MOVE; MOVING; POWER_ON_DISABLE_OPERATION; IDLE]
  /\ m_state (handleStatusWordChange ackM false d1) = PREPARE_MOVE
  /\ m_state (handleStatusWordChange ackF true d1) = PREPARE_MOVE
  /\ m_state (handleStatusWordChange startedM false d2) = MOVING
  /\ m_state (handleStatusWordChange startedF true d2) = MOVING
  /\ m_state (handleStatusWordChange reachedM false d3) = POWER_ON_DISABLE_OPERATION
  /\ m_state (handleStatusWordChange reachedF true d3) = MOVING
  /\ m_state (handleStatusWordChange disabledM false d4) = POWER_ON_DISABLE_OPERATION
  /\ m_state (handleStatusWordChange disabledF true d4) = POWER_ON_DISABLE_OPERATION
  /\ effects d5
     = effects d
       ++ [ CallSetter motorOperationModeSetter 1;
            CallSetter motorControlWordSetter 7;
            CallSetter motorPositionSetter position;
            CallSetter motorVelocitySetter speed;
            CallSetter motorAccelerationSetter accel;
            CallSetter motorDecelerationSetter deaccel;
            CallSetter motorControlWordSetter (Z.lor mode 0x011f);
            CallSetter motorControlWordSetter (Z.lor mode 0x000f);
            CallSetter motorControlWordSetter 7;
            Invoke (UserCallback tag) ]
  /\ m_callbackOnIDLE d5 = [].
Proof.
  intros Hfollows Hfollowing Hidle Hqueue Hall
    (HonAM & HopAM & HomsAM) (HonAF & HopAF & HomsAF)
    (HonSM & HopSM & HtrSM & HomsSM) (HonSF & HopSF & HtrSF & HomsSF)
    (HonRM & HopRM & HtrRM) (HonRF & HopRF & HtrRF)
    (HonDM & HopDM) (HonDF & HopDF).
  intros d1 d2 d3 d4 d5.
  set (D1 := set_m_state PREPARE_MOVE
               (emit_all
                  [ CallSetter motorOperationModeSetter 1;
                    CallSetter motorControlWordSetter 7;
                    CallSetter motorPositionSetter position;
                    CallSetter motorVelocitySetter speed;
                    CallSetter motorAccelerationSetter accel;
                    CallSetter motorDecelerationSetter deaccel;
                    CallSetter motorControlWordSetter (Z.lor mode 0x011f) ]
                  (set_m_followingNodeState PREPARE_MOVE
                     (set_m_mainNodeState PREPARE_MOVE
                        (addCallbackOnIdle (Some (UserCallback tag))
                           (set_move_job mode position speed accel deaccel d)))))).
  assert (E1 : d1 = D1) by (apply move_of_a_pair_in_IDLE; assumption).
  (* phase 1 *)
  assert (M1 : handleStatusWordChange ackM false D1
               = set_m_mainNodeState READY_TO_MOVE (set_m_statusWord ackM D1)).
  { rewrite (main_reports ackM READY_TO_MOVE D1);
      [reflexivity | exact Hfollows | exact Hfollowing
      | apply derive_READY_TO_MOVE; assumption]. }
  assert (F1 : handleStatusWordChange ackF true D1
               = set_m_followingNodeState READY_TO_MOVE D1).
  { rewrite (follower_reports ackF READY_TO_MOVE D1);
      [reflexivity | exact Hfollows | exact Hfollowing
      | apply derive_READY_TO_MOVE; assumption]. }
  set (D2 := set_m_state READY_TO_MOVE
               (emit (CallSetter motorControlWordSetter (Z.lor mode 0x000f))
                  (set_m_followingNodeState READY_TO_MOVE
                     (set_m_mainNodeState READY_TO_MOVE (set_m_statusWord ackM D1))))).
  assert (E2 : d2 = D2).
  { subst d2. rewrite E1. unfold both_report. destruct o1.
    - rewrite M1.
      rewrite (follower_reports ackF READY_TO_MOVE);
        [ | exact Hfollows | exact Hfollowing | apply derive_READY_TO_MOVE; assumption].
      change (aggregate_target _ _ _ _) with (Some READY_TO_MOVE). cbv beta iota.
      rewrite setState_READY_TO_MOVE by discriminate.
      rewrite executeMove_complete by exact Hall. reflexivity.
    - rewrite F1.
      rewrite (main_reports ackM READY_TO_MOVE);
        [ | exact Hfollows | exact Hfollowing | apply derive_READY_TO_MOVE; assumption].
      change (aggregate_target _ _ _ _) with (Some READY_TO_MOVE). cbv beta iota.
      rewrite setState_READY_TO_MOVE by discriminate.
      rewrite executeMove_complete by exact Hall. reflexivity. }
  (* phase 2 *)
  assert (M2 : handleStatusWordChange startedM false D2
               = set_m_state MOVING
                   (set_m_mainNodeState MOVING (set_m_statusWord startedM D2))).
  { rewrite (main_reports startedM MOVING D2);
      [ | exact Hfollows | exact Hfollowing | apply derive_MOVING; assumption].
    change (aggregate_target _ _ _ _) with (Some MOVING). cbv beta iota.
    apply setState_MOVING. discriminate. }
  assert (F2 : handleStatusWordChange startedF true D2
               = set_m_state MOVING (set_m_followingNodeState MOVING D2)).
  { rewrite (follower_reports startedF MOVING D2);
      [ | exact Hfollows | exact Hfollowing | apply derive_MOVING; assumption].
    change (aggregate_target _ _ _ _) with (Some MOVING). cbv beta iota.
    apply setState_MOVING. discriminate. }
  set (D3 := set_m_state MOVING
               (set_m_followingNodeState MOVING
                  (set_m_mainNodeState MOVING (set_m_statusWord startedM D2)))).
  assert (E3 : d3 = D3).
  { subst d3. rewrite E2. unfold both_report. destruct o2.
    - rewrite M2.
      rewrite (follower_reports startedF MOVING);
        [reflexivity | exact Hfollows | exact Hfollowing
        | apply derive_MOVING; assumption].
    - rewrite F2.
      rewrite (main_reports startedM MOVING);
        [reflexivity | exact Hfollows | exact Hfollowing
        | apply derive_MOVING; assumption]. }
  (* phase 3 *)
  assert (M3 : handleStatusWordChange reachedM false D3
               = set_m_state POWER_ON_DISABLE_OPERATION
                   (emit (CallSetter motorControlWordSetter 7)
                      (set_m_mainNodeState POWER_ON_DISABLE_OPERATION
                         (set_m_statusWord reachedM D3)))).
  { rewrite (main_reports reachedM POWER_ON_DISABLE_OPERATION D3);
      [ | exact Hfollows | exact Hfollowing | apply derive_move_done; assumption].
    change (aggregate_target _ _ _ _) with (Some POWER_ON_DISABLE_OPERATION).
    cbv beta iota.
    apply setState_POWER_ON_DISABLE_OPERATION. discriminate. }
  assert (F3 : handleStatusWordChange reachedF true D3
               = set_m_followingNodeState POWER_ON_DISABLE_OPERATION D3).
  { rewrite (follower_reports reachedF POWER_ON_DISABLE_OPERATION D3);
      [reflexivity | exact Hfollows | exact Hfollowing
      | apply derive_move_done; assumption]. }
  set (D4 := set_m_state POWER_ON_DISABLE_OPERATION
               (emit (CallSetter motorControlWordSetter 7)
                  (set_m_followingNodeState POWER_ON_DISABLE_OPERATION
                     (set_m_mainNodeState POWER_ON_DISABLE_OPERATION
                        (set_m_statusWord reachedM D3))))).
  assert (E4 : d4 = D4).
  { subst d4. rewrite E3. unfold both_report. destruct o3.
    - rewrite M3.
      rewrite (follower_reports reachedF POWER_ON_DISABLE_OPERATION);
        [reflexivity | exact Hfollows | exact Hfollowing
        | apply derive_move_done; assumption].
    - rewrite F3.
      rewrite (main_reports reachedM POWER_ON_DISABLE_OPERATION);
        [ | exact Hfollows | exact Hfollowing | apply derive_move_done; assumption].
      change (aggregate_target _ _ _ _) with (Some POWER_ON_DISABLE_OPERATION).
      cbv beta iota.
      rewrite setState_POWER_ON_DISABLE_OPERATION by discriminate.
      reflexivity. }
  (* phase 4 *)
  assert (M4 : handleStatusWordChange disabledM false D4
               = set_m_mainNodeState IDLE (set_m_statusWord disabledM D4)).
  { rewrite (main_reports disabledM IDLE D4);
      [reflexivity | exact Hfollows | exact Hfollowing
      | apply derive_IDLE; assumption]. }
  assert (F4 : handleStatusWordChange disabledF true D4
               = set_m_followingNodeState IDLE D4).
  { rewrite (follower_reports disabledF IDLE D4);
      [reflexivity | exact Hfollows | exact Hfollowing
      | apply derive_IDLE; assumption]. }
  set (D5 := set_m_state IDLE
               (processOldestCallbackOnIdle
                  (set_m_followingNodeState IDLE
                     (set_m_mainNodeState IDLE (set_m_statusWord disabledM D4))))).
  assert (E5 : d5 = D5).
  { subst d5. rewrite E4. unfold both_report. destruct o4.
    - rewrite M4.
      rewrite (follower_reports disabledF IDLE);
        [ | exact Hfollows | exact Hfollowing | apply derive_IDLE; assumption].
      change (aggregate_target _ _ _ _) with (Some IDLE). cbv beta iota.
      rewrite setState_IDLE by discriminate. reflexivity.
    - rewrite F4.
      rewrite (main_reports disabledM IDLE);
        [ | exact Hfollows | exact Hfollowing | apply derive_IDLE; assumption].
      change (aggregate_target _ _ _ _) with (Some IDLE). cbv beta iota.
      rewrite setState_IDLE by discriminate. reflexivity. }
  assert (Hq : m_callbackOnIDLE
                 (set_m_followingNodeState IDLE
                    (set_m_mainNodeState IDLE (set_m_statusWord disabledM D4)))
               = [] ++ [Some (UserCallback tag)])
    by (cbn; rewrite Hqueue; reflexivity).
  destruct (processOldest_snoc _ _ _ Hq) as (Heff & Hempty & _).
  rewrite E5, E4, E3, E2, E1.
  split; [reflexivity |].
  split; [rewrite M1; reflexivity |].
  split; [rewrite F1; reflexivity |].
  split; [rewrite M2; reflexivity |].
  split; [rewrite F2; reflexivity |].
  split; [rewrite M3; reflexivity |].
  split; [rewrite F3; reflexivity |].
  split; [rewrite M4; reflexivity |].
  split; [rewrite F4; reflexivity |].
  split.
  - change (effects D5)
      with (effects (processOldestCallbackOnIdle
                       (set_m_followingNodeState IDLE
                          (set_m_mainNodeState IDLE (set_m_statusWord disabledM D4))))).
    rewrite Heff. cbn. rewrite <- !app_assoc. reflexivity.
  - exact Hempty.
Qed.

Lemma pair_move_reaches_idle_witness :
  m_state
    (both_report 0x0233 0x0233 false
       (both_report 0x0637 0x0637 true
          (both_report 0x0237 0x0237 false
             (both_report 0x1237 0x1237 true
                (move 0 20000 1000 500 500 (Some 1%nat) Sample.main_motor)))))
  = IDLE.
Proof.
  pose proof (pair_move_reaches_idle 0 20000 1000 500 500 1
                0x1237 0x1237 0x0237 0x0237 0x0637 0x0637 0x0233 0x0233
                true false true false Sample.main_motor) as H.
  cbn zeta in H.
  destruct H as [Hstates _]; [vm_compute; repeat split; discriminate .. |].
  exact (f_equal (fun states => nth 4 states INITIAL_STATE) Hstates).
Defined.

End PairMove.

(* ===================================================================== *)
(** * From the configuration of a node to the idle motor                  *)
(* ===================================================================== *)
Section MotorStartup.
Import ErrorCode MotorState MotorDriver MotorApi MotorSequences.

Implicit Types d : MotorDriver.
Implicit Types n : MotorNode.

Lemma setState_INITIAL_POWER_ON d :
  m_state d <> INITIAL_POWER_ON ->
  setState INITIAL_POWER_ON d = set_m_state INITIAL_POWER_ON d.
Proof.
  intros Hne. unfold setState. rewrite bool_decide_eq_true_2 by exact Hne. reflexivity.
Qed.

Lemma setState_INITIAL_POWER_OFF d :
  m_state d <> INITIAL_POWER_OFF ->
  setState INITIAL_POWER_OFF d = set_m_state INITIAL_POWER_OFF d.
Proof.
  intros Hne. unfold setState. rewrite bool_decide_eq_true_2 by exact Hne. reflexivity.
Qed.

(** The boot notification without error at a driver whose master is in
    START: the motor goes through [handleInitialStateSwitching]. *)
Lemma OnBoot_started st n :
  m_masterNmtState n = Command_START ->
  motor (OnBoot st 0 n)
  = if bool_decide (m_state (motor n) = FAULT_STATE)
       || bool_decide (m_state (motor n) = NODE_RESET)
    then setState FAULT_RESET (motor n)
    else if bool_decide (m_state (motor n) = INITIAL_POWER_ON)
    then setState CYCLE_POWER_SHUTDOWN (motor n)
    else if bool_decide (m_state (motor n) = INITIAL_POWER_OFF)
    then setState POWER_ON_DISABLE_OPERATION (motor n)
    else motor n.
Proof.
  intros Hmaster. unfold OnBoot, DCFDriver_OnBoot.
  cbn [Z.eqb negb andb with_motor motor m_masterNmtState m_nodeNmtState
       m_nmtStateChangedCallback nmtStateChangedCalls].
  unfold handleInitialStateSwitching.
  cbn [motor m_masterNmtState m_nodeNmtState]. rewrite Hmaster.
  rewrite !bool_decide_eq_true_2 by reflexivity. cbn [andb].
  destruct (_ || _); [reflexivity |].
  destruct (bool_decide (m_state (motor n) = INITIAL_POWER_ON)); [reflexivity |].
  destruct (bool_decide (m_state (motor n) = INITIAL_POWER_OFF)); reflexivity.
Qed.

Lemma OnConfig_reads_status_word d :
  m_state d = INITIAL_STATE ->
  OnConfig_configured no_error d = (emit (SubmitRead 0x6041 0) d, None).
Proof.
  intros Hinit. unfold OnConfig_configured. cbn [is_error no_error ec_value Z.eqb negb].
  rewrite bool_decide_eq_true_2 by exact Hinit. reflexivity.
Qed.

Lemma OnConfig_statusWord_read_initial readError value d :
  m_state d = INITIAL_STATE -> has value FAULT = false ->
  OnConfig_statusWord_read readError value d
  = (set_m_state
       (if has value READY_TO_SWITCH_ON && negb (has value SWITCHED_ON)
           && negb (has value OPERATION_ENABLED)
        then INITIAL_POWER_OFF else INITIAL_POWER_ON)
       (set_m_statusWord value d),
     Some readError).
Proof.
  intros Hinit Hfault. unfold OnConfig_statusWord_read.
  change (m_state (set_m_statusWord value d)) with (m_state d).
  change (id (set_m_statusWord value d)) with (id d).
  rewrite Hinit, determineState_from_INITIAL_STATE, Hfault.
  destruct (has value READY_TO_SWITCH_ON && negb (has value SWITCHED_ON)
            && negb (has value OPERATION_ENABLED)).
  - rewrite setState_INITIAL_POWER_OFF by (cbn; rewrite Hinit; discriminate).
    reflexivity.
  - rewrite setState_INITIAL_POWER_ON by (cbn; rewrite Hinit; discriminate).
    reflexivity.
Qed.

(** The boot of a drive found switched off, and of one found switched on. *)
Lemma boot_from_INITIAL_POWER_OFF st on n :
  single (motor n) -> m_state (motor n) = INITIAL_POWER_OFF ->
  m_callbackOnIDLE (motor n) = [] -> m_masterNmtState n = Command_START ->
  disabled on ->
  let n3 := OnBoot st 0 n in
  let d5 := handleStatusWordChange on false (motor n3) in
  m_state (motor n3) = POWER_ON_DISABLE_OPERATION
  /\ m_state d5 = IDLE
  /\ effects d5 = effects (motor n) ++ [CallSetter motorControlWordSetter 7].
Proof.
  intros Hsingle Hstate Hqueue Hmaster [Hon Hop] n3 d5.
  set (d := motor n) in *.
  set (D3 := set_m_state POWER_ON_DISABLE_OPERATION
               (emit (CallSetter motorControlWordSetter 7) d)).
  assert (E3 : motor n3 = D3).
  { subst n3. rewrite OnBoot_started by exact Hmaster. fold d. rewrite Hstate.
    rewrite !bool_decide_eq_false_2 by discriminate. cbn [orb].
    rewrite bool_decide_eq_true_2 by reflexivity.
    apply setState_POWER_ON_DISABLE_OPERATION. rewrite Hstate. discriminate. }
  assert (E5 : d5 = set_m_state IDLE (set_m_statusWord on D3)).
  { subst d5. rewrite E3.
    rewrite (status_word_single POWER_ON_DISABLE_OPERATION IDLE on D3);
      [ rewrite setState_IDLE by discriminate;
        rewrite processOldest_empty by exact Hqueue; reflexivity
      | exact Hsingle | reflexivity | apply derive_IDLE; assumption ]. }
  rewrite E5, E3. repeat split.
Qed.

Lemma boot_from_INITIAL_POWER_ON st off on n :
  single (motor n) -> m_state (motor n) = INITIAL_POWER_ON ->
  m_callbackOnIDLE (motor n) = [] -> m_masterNmtState n = Command_START ->
  switched_off off -> disabled on ->
  let n3 := OnBoot st 0 n in
  let d4 := handleStatusWordChange off false (motor n3) in
  let d5 := handleStatusWordChange on false d4 in
  m_state (motor n3) = CYCLE_POWER_SHUTDOWN
  /\ m_state d4 = POWER_ON_DISABLE_OPERATION
  /\ m_state d5 = IDLE
  /\ effects d5
     = effects (motor n)
       ++ [SubmitWrite 0x6040 0 0x0006; CallSetter motorControlWordSetter 7].
Proof.
  intros Hsingle Hstate Hqueue Hmaster Hoff [Hon Hop] n3 d4 d5.
  set (d := motor n) in *.
  set (D3 := set_m_state CYCLE_POWER_SHUTDOWN (emit (SubmitWrite 0x6040 0 0x0006) d)).
  assert (E3 : motor n3 = D3).
  { subst n3. rewrite OnBoot_started by exact Hmaster. fold d. rewrite Hstate.
    rewrite !bool_decide_eq_false_2 by discriminate. cbn [orb].
    rewrite bool_decide_eq_true_2 by reflexivity.
    apply setState_CYCLE_POWER_SHUTDOWN. rewrite Hstate. discriminate. }
  set (D4 := set_m_state POWER_ON_DISABLE_OPERATION
               (emit (CallSetter motorControlWordSetter 7) (set_m_statusWord off D3))).
  assert (E4 : d4 = D4).
  { subst d4. rewrite E3.
    rewrite (status_word_single CYCLE_POWER_SHUTDOWN POWER_ON_DISABLE_OPERATION off D3);
      [ apply setState_POWER_ON_DISABLE_OPERATION; discriminate
      | exact Hsingle | reflexivity
      | apply derive_switched_off; [discriminate | assumption] ]. }
  assert (E5 : d5 = set_m_state IDLE (set_m_statusWord on D4)).
  { subst d5. rewrite E4.
    rewrite (status_word_single POWER_ON_DISABLE_OPERATION IDLE on D4);
      [ rewrite setState_IDLE by discriminate;
        rewrite processOldest_empty by exact Hqueue; reflexivity
      | exact Hsingle | reflexivity | apply derive_IDLE; assumption ]. }
  rewrite E5, E4, E3.
  split; [reflexivity |]. split; [reflexivity |]. split; [reflexivity |].
  cbn. rewrite <- app_assoc. reflexivity.
Qed.

(** X23.  The start of a driver outside a pair, with the master in NMT
    START.  When the configuration has succeeded in INITIAL_STATE, the
    driver reads the status word 0x6041 and calls [res] only when the read
    has completed, with the error code of the read; it takes the value
    delivered, whatever that error code is, and without the FAULT bit
    enters INITIAL_POWER_OFF (drive switched off) or INITIAL_POWER_ON.  The
    boot notification without error then takes it to
    POWER_ON_DISABLE_OPERATION (control word 7), for a drive that was
    switched on by way of CYCLE_POWER_SHUTDOWN (control word 0x0006) and
    the status word "switched off"; "switched on, operation not enabled"
    makes it IDLE.  Nothing else is sent.  A failed configuration is
    reported with NODE_CONFIGURATION_FAILED and passed to [res] without a
    read, and outside INITIAL_STATE the result goes to [res] at once. *)
Theorem startup_reaches_idle
    (st : NmtState) (readError : error_code) (value off on : Z) n :
  single (motor n) -> m_state (motor n) = INITIAL_STATE ->
  m_callbackOnIDLE (motor n) = [] -> m_masterNmtState n = Command_START ->
  has value FAULT = false -> switched_off off -> disabled on ->
  let powered_off :=
    has value READY_TO_SWITCH_ON && negb (has value SWITCHED_ON)
    && negb (has value OPERATION_ENABLED) in
  let c1 := OnConfig_configured no_error (motor n) in
  let c2 := OnConfig_statusWord_read readError value (fst c1) in
  let n3 := OnBoot st 0 (with_motor (fun _ => fst c2) n) in
  let d4 := if powered_off then motor n3
            else handleStatusWordChange off false (motor n3) in
  let d5 := handleStatusWordChange on false d4 in
  snd c1 = None /\ snd c2 = Some readError
  /\ m_state (fst c2) = (if powered_off then INITIAL_POWER_OFF else INITIAL_POWER_ON)
  /\ m_state (motor n3)
     = (if powered_off then POWER_ON_DISABLE_OPERATION else CYCLE_POWER_SHUTDOWN)
  /\ m_state d4 = POWER_ON_DISABLE_OPERATION
  /\ m_state d5 = IDLE
  /\ effects d5
     = effects (motor n)
       ++ [SubmitRead 0x6041 0]
       ++ (if powered_off then [] else [SubmitWrite 0x6040 0 0x0006])
       ++ [CallSetter motorControlWordSetter 7]
  /\ (forall ec d, is_error ec = true ->
        OnConfig_configured ec d = (report NODE_CONFIGURATION_FAILED d, Some ec))
  /\ (forall ec d, is_error ec = false -> m_state d <> INITIAL_STATE ->
        OnConfig_configured ec d = (d, Some ec)).
Proof.
  intros Hsingle Hinit Hqueue Hmaster Hfault Hoff Hon.
  cbv zeta.
  rewrite (OnConfig_reads_status_word (motor n) Hinit). cbn [fst snd].
  rewrite (OnConfig_statusWord_read_initial readError value
             (emit (SubmitRead 0x6041 0) (motor n)) Hinit Hfault).
  cbn [fst snd].
  split; [reflexivity |]. split; [reflexivity |]. split; [reflexivity |].
  assert (Hlast :
    (forall ec d0, is_error ec = true ->
       OnConfig_configured ec d0 = (report NODE_CONFIGURATION_FAILED d0, Some ec))
    /\ (forall ec d0, is_error ec = false -> m_state d0 <> INITIAL_STATE ->
          OnConfig_configured ec d0 = (d0, Some ec))).
  { split.
    - intros ec d0 Hec. unfold OnConfig_configured. rewrite Hec. reflexivity.
    - intros ec d0 Hec Hstate. unfold OnConfig_configured. rewrite Hec. cbn [negb].
      rewrite bool_decide_eq_false_2 by exact Hstate. reflexivity. }
  destruct (has value READY_TO_SWITCH_ON && negb (has value SWITCHED_ON)
            && negb (has value OPERATION_ENABLED)).
  - destruct (boot_from_INITIAL_POWER_OFF st on
                (with_motor
                   (fun _ => set_m_state INITIAL_POWER_OFF
                               (set_m_statusWord value
                                  (emit (SubmitRead 0x6041 0) (motor n)))) n))
      as (H3 & H5 & Heff); try assumption; try reflexivity.
    split; [exact H3 |]. split; [exact H3 |]. split; [exact H5 |].
    split; [| exact Hlast].
    rewrite Heff. cbn. rewrite <- app_assoc. reflexivity.
  - destruct (boot_from_INITIAL_POWER_ON st off on
                (with_motor
                   (fun _ => set_m_state INITIAL_POWER_ON
                               (set_m_statusWord value
                                  (emit (SubmitRead 0x6041 0) (motor n)))) n))
      as (H3 & H4 & H5 & Heff); try assumption; try reflexivity.
    split; [exact H3 |]. split; [exact H4 |]. split; [exact H5 |].
    split; [| exact Hlast].
    rewrite Heff. cbn. rewrite <- app_assoc. reflexivity.
Qed.

Lemma startup_reaches_idle_witness :
  let n := mk_MotorNode Sample.new_motor Command_START State_STOP false [] in
  let c1 := OnConfig_configured no_error (motor n) in
  let c2 := OnConfig_statusWord_read no_error 0x0250 (fst c1) in
  let n3 := OnBoot State_BOOTUP 0 (with_motor (fun _ => fst c2) n) in
  m_state
    (handleStatusWordChange 0x0233 false
       (handleStatusWordChange 0x0231 false (motor n3)))
  = IDLE.
Proof.
  intros n c1 c2 n3.
  pose proof (startup_reaches_idle State_BOOTUP no_error 0x0250 0x0231 0x0233 n) as H.
  cbn zeta in H.
  destruct H as (_ & _ & _ & _ & _ & Hidle & _); [vm_compute; repeat split .. |].
  vm_compute in Hidle. vm_compute. exact Hidle.
Defined.

End MotorStartup.

(* ===================================================================== *)
(** * The configuration engine on any list of configured objects          *)
(* ===================================================================== *)
Section ConfigEngineRuns.
Import ErrorCode DCFConfigMaster DCFDriver Protocol Sequences.

Variable config : DCFDriverConfig.
Variable node : Node.

(** A copy step goes on with [ok]. *)
Lemma copy_then T index subIndex abort (ok ok' : Run) w :
  (forall w', ok w' = ok' w') ->
  copy config node T index subIndex abort ok w
  = copy config node T index subIndex abort ok' w.
Proof.
  intros Hok. unfold copy, request.
  destruct (is_error (fst (Read config T index subIndex))); [reflexivity |].
  destruct (is_error (fst (reply node _ _))); [reflexivity | apply Hok].
Qed.

(** The lambda [writeMappings], whatever the mapping object lists. *)
Lemma writeMappings_steps I (ok : Run) (abort : Callback) kept more done w :
  (forall w', ok w' = run_steps config node more kept abort done w') ->
  writeMappings config node (u16 (I + 0x200)) (fun _ => ok) abort w
  = run_steps config node (coded_mapping_steps I (configured_mapping config I) ++ more)
      kept abort done w.
Proof.
  intros Hok.
  assert (Hcommit : forall w',
             copyObject config node uint8_t (u16 (I + 0x200)) 0 (fun _ => ok)
               (Some abort) false w'
             = run_steps config node ([Copy uint8_t (u16 (I + 0x200)) 0] ++ more)
                 kept abort done w').
  { intros w'. rewrite copyObject_with_onError. cbn [app run_steps].
    apply copy_then, Hok. }
  unfold writeMappings, configured_mapping, m_sdosToConfigure.
  destruct (List.find _ _) as [[found mappingIndices] |]; [| apply Hok].
  cbn [option_map snd coded_mapping_steps].
  destruct mappingIndices as [| s0 [| s1 rest]]; [apply Hok | |].
  - cbn [List.length Z.of_nat map]. cbn [Z.ltb Z.compare Pos.compare].
    apply Hcommit.
  - replace (1 <? Z.of_nat (List.length (s0 :: s1 :: rest))) with true
      by (symmetry; apply Z.ltb_lt; cbn [List.length]; lia).
    cbn [List.tl]. rewrite <- app_assoc.
    apply (configureParameterSDO_steps config node _ _ _ abort
             (copyObject config node uint8_t (u16 (I + 0x200)) 0 (fun _ => ok)
                (Some abort) false)).
    + intros ec w'. destruct (is_error ec); reflexivity.
    + exact Hcommit.
    + discriminate.
Qed.

Lemma configurePDO_mappings_coded next I onCompleted kept w :
  configurePDO_mappings config node next I onCompleted w
  = run_steps config node
      ([Write uint8_t (u16 (I + 0x200)) 0 0]
       ++ coded_mapping_steps I (configured_mapping config I)
       ++ [Copy uint32_t I 1])
      kept onCompleted (next onCompleted) w.
Proof.
  unfold configurePDO_mappings. rewrite setObject_request.
  cbn [app run_steps]. unfold request at 1 2.
  destruct (is_error (fst (reply node (requests w) _))); [reflexivity |].
  apply writeMappings_steps.
  intros w'. cbn [run_steps]. apply copyObject_with_handler.
  intros ec w''. destruct (is_error ec); reflexivity.
Qed.

(** X12.  [configurePDO] for any index [I] and any configuration, step by
    step as it is coded: read the remote I:1; write it back with bit 31 set;
    copy I:2; copy I:3 unless the local dictionary does not have it; write 0
    to sub-index 0 of the mapping object (I + 0x200, as a 16-bit number);
    then, if the mapping object is among the configured objects, copy its
    listed sub-indices after the first one in the order listed and copy its
    sub-index 0 (the first listed sub-index is skipped by position, whatever
    its number; a mapping object that is not configured gives no step);
    copy I:1.  A failing step ends the run with its error, and after the
    last step the next configured object is taken. *)
Theorem configurePDO_runs_as_coded next I onCompleted w :
  configurePDO config node next I onCompleted w
  = run_steps config node (coded_protocol I (configured_mapping config I))
      0 onCompleted (next onCompleted) w.
Proof.
  unfold configurePDO, coded_protocol, SubmitRead, submit.
  cbn [app run_steps]. unfold request at 1.
  destruct (reply node (requests w) (SdoRead uint32_t I 1)) as [ec value].
  cbn [fst snd].
  destruct (is_error ec); [reflexivity |].
  rewrite setObject_request. unfold request at 1 2.
  destruct (is_error (fst (reply node _ _))); [reflexivity |].
  rewrite copyObject_with_onError. unfold copy at 1 2.
  destruct (is_error (fst (Read config uint8_t I 2))); [reflexivity |].
  unfold request at 1 2.
  destruct (is_error (fst (reply node _ _))); [reflexivity |].
  rewrite copyObject_ignoreMissing.
  assert (Hrest : forall w',
             configurePDO_mappings config node next I onCompleted w'
             = run_steps config node
                 (Write uint8_t (u16 (I + 512)) 0 0
                  :: coded_mapping_steps I (configured_mapping config I)
                  ++ [Copy uint32_t I 1])
                 value onCompleted (next onCompleted) w')
    by (intros w'; apply configurePDO_mappings_coded).
  destruct (locally_absent _); [apply Hrest |].
  unfold copy at 1 2.
  destruct (is_error (fst (Read config uint8_t I 3))); [reflexivity |].
  unfold request at 1 2.
  destruct (is_error (fst (reply node _ _))); [reflexivity |].
  apply Hrest.
Qed.

(** The sub-index loop of [configureParameterSDO] when it goes on with the
    next object. *)
Lemma configureParameterSDO_then next index (K : Callback) more kept done subIndices :
  (forall w, next K w = run_steps config node more kept K done w) ->
  subIndices <> [] ->
  forall w,
    configureParameterSDO config node next index subIndices K false w
    = run_steps config node (map (CopyDeclared index) subIndices ++ more) kept K done w.
Proof.
  intros Hnext.
  induction subIndices as [| subIndex rest IH]; intros Hne w; [congruence |].
  cbn [configureParameterSDO map app run_steps].
  destruct (supported_type (getTypeOfObject config index subIndex)) as [T |];
    [| reflexivity].
  apply copyObject_with_handler.
  intros ec w'. destruct (is_error ec); [reflexivity |].
  destruct rest as [| subIndex' rest'].
  - apply Hnext.
  - apply IH. discriminate.
Qed.

Lemma in_control_range_false index :
  in_control_range index = false ->
  (RECEIVE_PDO_CONTROL_START <=? index) && (index <=? RECEIVE_PDO_CONTROL_END) = false
  /\ (TRANSMIT_PDO_CONTROL_START <=? index) && (index <=? TRANSMIT_PDO_CONTROL_END) = false.
Proof. unfold in_control_range. apply orb_false_iff. Qed.

Lemma configureSDO_parameter_steps (K : Callback) kept objects :
  parameters_only objects ->
  forall w,
    configureSDO config node objects K w
    = run_steps config node (parameter_steps objects) kept K (K no_error) w.
Proof.
  induction 1 as [| [index subIndices] objects [Hcontrol Hsubs] _ IH]; intros w;
    [reflexivity |].
  cbn [fst snd] in Hcontrol, Hsubs.
  destruct (in_control_range_false index Hcontrol) as [Hrx Htx].
  cbn [configureSDO parameter_steps flat_map fst snd]. rewrite Hrx, Htx.
  change ((RECEIVE_PDO_MAPPING_START <=? index) && (index <=? TRANSMIT_PDO_MAPPING_END))
    with (in_mapping_range index).
  destruct (in_mapping_range index) eqn:Hmapping.
  - apply IH.
  - apply configureParameterSDO_then; [exact IH | apply Hsubs; reflexivity].
Qed.

(** X13.  A configuration without PDO control objects is sent as one
    sequence of typed copies: object by object and sub-index by sub-index in
    the order of the list, each copy after the one before has succeeded;
    objects in the PDO mapping range are passed over without a request; the
    first failing copy ends the run with its error, and after the last copy
    the completion is called once without error.  An empty list completes at
    once. *)
Theorem configure_sends_parameters_in_order (res : Callback) w :
  parameters_only (getSDOIndicesForDriverConfiguration config) ->
  configure config node res w
  = run_steps config node (parameter_steps (getSDOIndicesForDriverConfiguration config))
      0 res (res no_error) w.
Proof.
  intros Hparams. unfold configure, m_sdosToConfigure.
  destruct (getSDOIndicesForDriverConfiguration config) as [| object objects] eqn:Hobjects;
    [reflexivity |].
  replace (0 <? Z.of_nat (List.length (object :: objects))) with true
    by (symmetry; apply Z.ltb_lt; cbn [List.length]; lia).
  apply configureSDO_parameter_steps. exact Hparams.
Qed.

Lemma sent_app reqs reqs' w : sent (reqs ++ reqs') w = sent reqs' (sent reqs w).
Proof. unfold sent. cbn. rewrite app_assoc. reflexivity. Qed.

Lemma sent_nil w : sent [] w = w.
Proof. unfold sent. rewrite app_nil_r. destruct w; reflexivity. Qed.

(** With a node that accepts every request and local values that can all
    be read, the copies of an object are its writes. *)
Lemma copies_accepted index kept abort (done : Run) subIndices :
  accepts_all node ->
  Forall (fun subIndex =>
            exists T,
              supported_type (getTypeOfObject config index subIndex) = Some T
              /\ is_error (fst (Read config T index subIndex)) = false) subIndices ->
  forall more w,
    run_steps config node (map (CopyDeclared index) subIndices ++ more) kept abort done w
    = run_steps config node more kept abort done
        (sent (flat_map
                 (fun subIndex =>
                    match supported_type (getTypeOfObject config index subIndex) with
                    | Some T => [SdoWrite T index subIndex
                                   (snd (Read config T index subIndex))]
                    | None => []
                    end) subIndices) w).
Proof.
  intros Haccepts.
  induction 1 as [| subIndex rest (T & HT & Hread) _ IH]; intros more w.
  - cbn. rewrite sent_nil. reflexivity.
  - cbn [map app run_steps flat_map]. rewrite HT.
    unfold copy. rewrite Hread. unfold request. rewrite Haccepts.
    rewrite IH, sent_app. reflexivity.
Qed.

Lemma parameters_accepted kept abort (done : Run) objects :
  accepts_all node -> all_copyable config objects ->
  forall w,
    run_steps config node (parameter_steps objects) kept abort done w
    = done (sent (parameter_writes config objects) w).
Proof.
  intros Haccepts.
  induction 1 as [| [index subIndices] objects Hcopyable _ IH]; intros w.
  - cbn. rewrite sent_nil. reflexivity.
  - cbn [parameter_steps parameter_writes flat_map fst snd] in *.
    destruct (in_mapping_range index); [apply IH |].
    rewrite copies_accepted by (try exact Haccepts; apply Hcopyable; reflexivity).
    change (flat_map _ objects) with (parameter_steps objects) at 1.
    rewrite IH, sent_app. reflexivity.
Qed.

(** X14.  The requests of a parameter configuration on a node that accepts
    them.  If no PDO control object is configured, every configured
    sub-index outside the mapping range has one of the seven supported types
    and a readable local value, and the node accepts every request, then
    [configure] sends exactly one write for each such sub-index, in the
    order of the list, with the local value read with the C++ type of the
    declared type, and nothing else; then it calls the completion once,
    without error. *)
Theorem configure_writes_every_parameter_once (res : Callback) w :
  parameters_only (getSDOIndicesForDriverConfiguration config) ->
  all_copyable config (getSDOIndicesForDriverConfiguration config) ->
  accepts_all node ->
  configure config node res w
  = res no_error
      (sent (parameter_writes config (getSDOIndicesForDriverConfiguration config)) w).
Proof.
  intros Hparams Hcopyable Haccepts. unfold configure, m_sdosToConfigure.
  destruct (getSDOIndicesForDriverConfiguration config) as [| object objects] eqn:Hobjects.
  - cbn. rewrite sent_nil. reflexivity.
  - replace (0 <? Z.of_nat (List.length (object :: objects))) with true
      by (symmetry; apply Z.ltb_lt; cbn [List.length]; lia).
    rewrite (configureSDO_parameter_steps res 0) by exact Hparams.
    apply parameters_accepted; assumption.
Qed.

End ConfigEngineRuns.

Section ConfigEngineRunExamples.
Import ErrorCode DCFConfigMaster DCFDriver Protocol Sequences.

Lemma parameter_config_parameters_only :
  parameters_only (getSDOIndicesForDriverConfiguration Sample.parameter_config).
Proof.
  repeat constructor; cbn; discriminate.
Qed.

Lemma configure_sends_parameters_in_order_witness :
  configure Sample.parameter_config Sample.accepting_node Completed Sample.start
  = run_steps Sample.parameter_config Sample.accepting_node
      [CopyDeclared 0x6081 0; CopyDeclared 0x6083 0; CopyDeclared 0x6083 1]
      0 Completed (Completed no_error) Sample.start.
Proof.
  apply (configure_sends_parameters_in_order Sample.parameter_config
           Sample.accepting_node Completed Sample.start).
  exact parameter_config_parameters_only.
Defined.

Lemma configure_writes_every_parameter_once_witness :
  configure Sample.parameter_config Sample.accepting_node Completed Sample.start
  = Completed no_error
      (sent [ SdoWrite uint32_t 0x6081 0 0x6081;
              SdoWrite uint8_t 0x6083 0 0x6083;
              SdoWrite uint8_t 0x6083 1 0x6084 ] Sample.start).
Proof.
  apply (configure_writes_every_parameter_once Sample.parameter_config
           Sample.accepting_node Completed Sample.start).
  - exact parameter_config_parameters_only.
  - unfold all_copyable.
    cbn [getSDOIndicesForDriverConfiguration Sample.parameter_config].
    constructor; [intros Hrange; vm_compute in Hrange; discriminate Hrange |].
    constructor; [intros _; constructor; [eexists; split; reflexivity | constructor] |].
    constructor; [| constructor].
    intros _. constructor; [eexists; split; reflexivity |].
    constructor; [eexists; split; reflexivity | constructor].
  - intros history req. reflexivity.
Defined.

End ConfigEngineRunExamples.

(* ===================================================================== *)
(** * The drivers the master creates                                      *)
(* ===================================================================== *)
Section MasterDiscovery.
Import ErrorCode DCFConfigMaster MasterSetup Slaves Followers.

Variable GetUploadFile : Z -> Z -> option String.string.
Variable m_loadConfigStartedCallback : bool.
Variable loadable : String.string -> String.string -> bool.
Variable m_driverFactory : bool.

Lemma scan_thrown idx files l :
  fold_left (initializeDevice GetUploadFile m_loadConfigStartedCallback loadable
               m_driverFactory idx files) l None = None.
Proof. induction l as [| x l IH]; [reflexivity | exact IH]. Qed.

Lemma scan_registers idx files l : forall m started m' started',
  fold_left (initializeDevice GetUploadFile m_loadConfigStartedCallback loadable
               m_driverFactory idx files) l (Some (m, started)) = Some (m', started') ->
  (forall id, m_drivers m' !! id
              = if bool_decide (id ∈ l) && listed GetUploadFile idx id
                then Some (mk_DCFDriver 0 0) else m_drivers m !! id)
  /\ (forall id, id ∈ m_devicesToBoot m'
                 <-> id ∈ m_devicesToBoot m
                     \/ (id ∈ l /\ listed GetUploadFile idx id = true))
  /\ m_firstNodeIDUsing_RPDO_COB_ID m' = m_firstNodeIDUsing_RPDO_COB_ID m
  /\ events m' = events m
  /\ started' = started ++ (if m_loadConfigStartedCallback
                            then List.filter (listed GetUploadFile idx) l else []).
Proof.
  induction l as [| x l IH]; intros m started m' started' Hrun.
  - injection Hrun as <- <-. cbn.
    split; [reflexivity |]. split; [intros id; set_solver |].
    split; [reflexivity |]. split; [reflexivity |].
    destruct m_loadConfigStartedCallback; rewrite app_nil_r; reflexivity.
  - cbn [fold_left] in Hrun. cbn [List.filter].
    unfold initializeDevice at 2 in Hrun.
    unfold listed at 3. 
    destruct (GetUploadFile idx x) as [filename |] eqn:Hfile.
    + destruct (negb (DCFDriver.is_empty filename)) eqn:Hname.
      * destruct (loadable _ _ && m_driverFactory);
          [| rewrite scan_thrown in Hrun; discriminate Hrun].
        destruct (IH _ _ _ _ Hrun) as (Hd & Hb & Hr & He & Hs).
        split; [| split; [| split; [exact Hr | split; [exact He |]]]].
        -- intros id. rewrite Hd. cbn [registerDriver with_devicesToBoot with_drivers m_drivers].
           destruct (decide (id = x)) as [-> | Hne].
           ++ rewrite lookup_insert_eq.
              rewrite (bool_decide_eq_true_2 (x ∈ x :: l)) by left.
              unfold listed at 2. rewrite Hfile, Hname. cbn [andb].
              destruct (_ && _); reflexivity.
           ++ rewrite lookup_insert_ne by congruence.
              replace (bool_decide (id ∈ x :: l)) with (bool_decide (id ∈ l));
                [reflexivity |].
              apply bool_decide_ext. rewrite elem_of_cons. tauto.
        -- intros id. rewrite Hb.
           cbn [registerDriver with_devicesToBoot with_drivers m_devicesToBoot].
           rewrite elem_of_union, elem_of_singleton, elem_of_cons.
           split.
           ++ intros [[-> | Hin] | [Hin Hl]]; [| tauto | tauto].
              right. split; [left; reflexivity |].
              unfold listed. rewrite Hfile. exact Hname.
           ++ intros [Hin | [[-> | Hin] Hl]]; tauto.
        -- rewrite Hs. destruct m_loadConfigStartedCallback; [| reflexivity].
           rewrite <- app_assoc. reflexivity.
      * destruct (IH _ _ _ _ Hrun) as (Hd & Hb & Hr & He & Hs).
        assert (Hx : listed GetUploadFile idx x = false)
          by (unfold listed; rewrite Hfile; exact Hname).
        split; [| split; [| split; [exact Hr | split; [exact He | exact Hs]]]].
        -- intros id. rewrite Hd.
           destruct (decide (id = x)) as [-> | Hne].
           ++ rewrite Hx, !andb_false_r. reflexivity.
           ++ replace (bool_decide (id ∈ x :: l)) with (bool_decide (id ∈ l));
                [reflexivity |].
              apply bool_decide_ext. rewrite elem_of_cons. tauto.
        -- intros id. rewrite Hb, elem_of_cons.
           split; [tauto |].
           intros [Hin | [[-> | Hin] Hl]]; [tauto | congruence | tauto].
    + destruct (IH _ _ _ _ Hrun) as (Hd & Hb & Hr & He & Hs).
      assert (Hx : listed GetUploadFile idx x = false)
        by (unfold listed; rewrite Hfile; reflexivity).
      split; [| split; [| split; [exact Hr | split; [exact He | exact Hs]]]].
      * intros id. rewrite Hd.
        destruct (decide (id = x)) as [-> | Hne].
        -- rewrite Hx, !andb_false_r. reflexivity.
        -- replace (bool_decide (id ∈ x :: l)) with (bool_decide (id ∈ l));
             [reflexivity |].
           apply bool_decide_ext. rewrite elem_of_cons. tauto.
      * intros id. rewrite Hb, elem_of_cons.
        split; [tauto |].
        intros [Hin | [[-> | Hin] Hl]]; [tauto | congruence | tauto].
Qed.

Lemma in_node_range id : bool_decide (id ∈ seqZ 1 127) = (1 <=? id) && (id <=? 127).
Proof.
  apply eq_true_iff_eq.
  rewrite bool_decide_eq_true, elem_of_seqZ, andb_true_iff, !Z.leb_le. lia.
Qed.

(** X15.  The drivers the master creates.  When [configureDrivers] returns,
    a driver is registered for exactly the node IDs 1..127 for which the
    master's dictionary names a file in 0x1F20 or 0x1F22 (beside the drivers
    registered before), each new driver with empty follower slots, and
    exactly these nodes are put into the pending-boot set; an entry with an
    empty file name or without a file is passed over, and the scan goes on
    behind it.  The COB-ID registry and the callbacks of the master are not
    touched.  The load-started callback, if installed, is called once per
    file: for the textual configurations in ascending order, then for the
    binary ones.  On a master without drivers the result is the fresh start
    of the follower inference. *)
Theorem configureDrivers_registers_listed_slaves (m m' : Master) (started : list Z) :
  configureDrivers GetUploadFile m_loadConfigStartedCallback loadable m_driverFactory m
  = Some (m', started) ->
  (forall id, m_drivers m' !! id
              = if slave GetUploadFile id then Some (mk_DCFDriver 0 0)
                else m_drivers m !! id)
  /\ (forall id, id ∈ m_devicesToBoot m'
                 <-> id ∈ m_devicesToBoot m \/ slave GetUploadFile id = true)
  /\ m_firstNodeIDUsing_RPDO_COB_ID m' = m_firstNodeIDUsing_RPDO_COB_ID m
  /\ events m' = events m
  /\ started = (if m_loadConfigStartedCallback
                then List.filter (listed GetUploadFile 0x1F20) (seqZ 1 127)
                     ++ List.filter (listed GetUploadFile 0x1F22) (seqZ 1 127)
                else [])
  /\ (m_drivers m = ∅ -> m_firstNodeIDUsing_RPDO_COB_ID m = ∅ -> fresh m').
Proof.
  unfold configureDrivers, initializeDevicesForBinaryDCF, initializeDevicesFromTextualDCF.
  intros Hrun.
  destruct (fold_left (initializeDevice GetUploadFile m_loadConfigStartedCallback loadable
               m_driverFactory 0x1F20 _) (seqZ 1 127) (Some (m, []))) as [[m1 started1] |]
    eqn:Htext; [| rewrite scan_thrown in Hrun; discriminate Hrun].
  destruct (scan_registers _ _ _ _ _ _ _ Htext) as (Hd1 & Hb1 & Hr1 & He1 & Hs1).
  destruct (scan_registers _ _ _ _ _ _ _ Hrun) as (Hd2 & Hb2 & Hr2 & He2 & Hs2).
  assert (Hdrivers : forall id,
            m_drivers m' !! id
            = if slave GetUploadFile id then Some (mk_DCFDriver 0 0)
              else m_drivers m !! id).
  { intros id. rewrite Hd2, Hd1, in_node_range. unfold slave.
    destruct ((1 <=? id) && (id <=? 127)), (listed GetUploadFile 0x1F20 id),
      (listed GetUploadFile 0x1F22 id); reflexivity. }
  split; [exact Hdrivers |].
  split.
  { intros id. rewrite Hb2, Hb1. unfold slave.
    rewrite <- in_node_range, !andb_true_iff, orb_true_iff, bool_decide_eq_true. tauto. }
  split; [rewrite Hr2; exact Hr1 |].
  split; [rewrite He2; exact He1 |].
  split.
  { rewrite Hs2, Hs1. destruct m_loadConfigStartedCallback; reflexivity. }
  intros Hnone Hregistry. split; [rewrite Hr2, Hr1; exact Hregistry |].
  intros a da. rewrite Hdrivers, Hnone, lookup_empty.
  destruct (slave GetUploadFile a) eqn:Hslave; [| discriminate].
  intros [= <-]. unfold slave in Hslave.
  rewrite !andb_true_iff, !Z.leb_le in Hslave.
  split; [tauto | split; reflexivity].
Qed.

Lemma scan_nothing_listed idx files l st :
  (forall id, id ∈ l -> listed GetUploadFile idx id = false) ->
  fold_left (initializeDevice GetUploadFile m_loadConfigStartedCallback loadable
               m_driverFactory idx files) l (Some st) = Some st.
Proof.
  revert st. induction l as [| x l IH]; intros st Hnone; [reflexivity |].
  cbn [fold_left].
  assert (Hx : initializeDevice GetUploadFile m_loadConfigStartedCallback loadable
                 m_driverFactory idx files (Some st) x = Some st).
  { pose proof (Hnone x ltac:(left)) as Hx. unfold listed in Hx.
    unfold initializeDevice. destruct st as [m started].
    destruct (GetUploadFile idx x) as [filename |]; [| reflexivity].
    rewrite Hx. reflexivity. }
  rewrite Hx. apply IH. intros id Hin. apply Hnone. right. exact Hin.
Qed.

(** X16.  A master whose dictionary names no configuration file for any
    node.  [configureDrivers] registers nothing and calls nothing, without
    looking at the driver factory; and with an empty pending-boot set no
    boot notification, of whatever node and status, calls the "all booted"
    callback: such a system never reports that it is booted. *)
Theorem no_slaves_never_all_booted (m : Master) (boots : list Boot.BootEvent) :
  (forall id, slave GetUploadFile id = false) ->
  m_devicesToBoot m = ∅ ->
  Forall (fun b => 1 <= fst b <= 127) boots ->
  configureDrivers GetUploadFile m_loadConfigStartedCallback loadable m_driverFactory m
  = Some (m, [])
  /\ Boot.all_booted_count (Boot.run_boots boots m) = Boot.all_booted_count m
  /\ m_devicesToBoot (Boot.run_boots boots m) = ∅.
Proof.
  intros Hnone Hempty Hvalid.
  assert (Hlisted : forall idx, idx = 0x1F20 \/ idx = 0x1F22 ->
            forall id, id ∈ seqZ 1 127 -> listed GetUploadFile idx id = false).
  { intros idx Hidx id Hin. specialize (Hnone id). unfold slave in Hnone.
    rewrite <- in_node_range, bool_decide_eq_true_2 in Hnone by exact Hin.
    cbn [andb] in Hnone. apply orb_false_iff in Hnone.
    destruct Hidx as [-> | ->]; tauto. }
  split.
  { unfold configureDrivers, initializeDevicesForBinaryDCF, initializeDevicesFromTextualDCF.
    rewrite scan_nothing_listed by (apply Hlisted; left; reflexivity).
    apply scan_nothing_listed. apply Hlisted. right. reflexivity. }
  split.
  { apply run_boots_at_most_once; assumption. }
  apply leibniz_equiv, equiv_empty.
  assert (Hsub : forall bs m0, m_devicesToBoot (Boot.run_boots bs m0) ⊆ m_devicesToBoot m0).
  { induction bs as [| b bs IH]; intros m0; [reflexivity |].
    cbn [Boot.run_boots fold_left]. etransitivity; [apply IH | apply OnBoot_subset]. }
  rewrite <- Hempty. apply Hsub.
Qed.

End MasterDiscovery.

Section MasterDiscoveryExamples.
Import ErrorCode DCFConfigMaster MasterSetup Slaves Followers.

Lemma configureDrivers_registers_listed_slaves_witness :
  exists m',
    configureDrivers Sample.upload_files_345 true (fun _ _ => true) true Sample.empty_master
    = Some (m', [3; 4; 5])
    /\ fresh m'.
Proof.
  eexists. split; [vm_compute; reflexivity |].
  eapply (configureDrivers_registers_listed_slaves Sample.upload_files_345 true
            (fun _ _ => true) true Sample.empty_master);
    [vm_compute; reflexivity | reflexivity | reflexivity].
Defined.

Lemma no_slaves_never_all_booted_witness :
  configureDrivers (fun _ _ => None) true (fun _ _ => true) false Sample.empty_master
  = Some (Sample.empty_master, [])
  /\ Boot.all_booted_count (Boot.run_boots Sample.boots_345 Sample.empty_master) = 0%nat.
Proof.
  destruct (no_slaves_never_all_booted (fun _ _ => None) true (fun _ _ => true) false
              Sample.empty_master Sample.boots_345) as (Hnothing & Hcount & _).
  - intros id. unfold Slaves.slave, Slaves.listed. rewrite andb_false_r. reflexivity.
  - reflexivity.
  - repeat constructor; cbn; lia.
  - split; [exact Hnothing | exact Hcount].
Defined.

End MasterDiscoveryExamples.

(* ===================================================================== *)
(** * The milestone waits for every pending node                          *)
(* ===================================================================== *)
Section BootMilestone.
Import ErrorCode DCFConfigMaster Boot.

Lemma OnBoot_pending_set id es m :
  m_devicesToBoot (OnBoot id es m)
  = if es =? 0 then m_devicesToBoot m ∖ {[id]} else m_devicesToBoot m.
Proof.
  unfold OnBoot.
  set (m1 := if m_bootCompletedCallback m then emit (BootCompletedCallback id) m else m).
  assert (H1 : m_devicesToBoot m1 = m_devicesToBoot m)
    by (subst m1; destruct (m_bootCompletedCallback m); reflexivity).
  destruct (es =? 0); cbn [andb]; [| exact H1].
  destruct (0 <? Z.of_nat (size (m_devicesToBoot m1))) eqn:Hsize.
  - destruct (_ && _); cbn; rewrite H1; reflexivity.
  - rewrite H1 in *. apply Z.ltb_ge in Hsize.
    assert (Hempty : m_devicesToBoot m = ∅)
      by (apply leibniz_equiv, size_empty_iff; lia).
    rewrite Hempty. set_solver.
Qed.

(** X17.  The "all booted" callback waits for every pending node.  While a
    node of the pending-boot set has not reported a boot without error, no
    boot notification calls the callback with ID 0, whatever the other
    nodes report and however often; the node stays in the set.  A failed
    boot (status other than 0) never takes a node out of the set. *)
Theorem all_booted_waits_for_every_node (k : Z) (boots : list BootEvent) (m : Master) :
  k ∈ m_devicesToBoot m ->
  Forall (fun b => 1 <= fst b <= 127) boots ->
  (forall b, b ∈ boots -> fst b = k -> snd b <> 0) ->
  k ∈ m_devicesToBoot (run_boots boots m)
  /\ all_booted_count (run_boots boots m) = all_booted_count m
  /\ (forall id es, es <> 0 -> m_devicesToBoot (OnBoot id es m) = m_devicesToBoot m).
Proof.
  intros Hk Hvalid Hfailed.
  split; [| split].
  - revert m Hk. induction Hvalid as [| [id es] boots Hid _ IH]; intros m Hk; [exact Hk |].
    cbn [run_boots fold_left fst snd]. apply IH.
    + intros b Hb. apply Hfailed. right. exact Hb.
    + rewrite OnBoot_pending_set. destruct (Z.eqb_spec es 0) as [-> | _]; [| exact Hk].
      apply elem_of_difference. split; [exact Hk |].
      rewrite elem_of_singleton. intros <-.
      exact (Hfailed (k, 0) ltac:(left) eq_refl eq_refl).
  - revert m Hk. induction Hvalid as [| [id es] boots Hid _ IH]; intros m Hk; [reflexivity |].
    cbn [run_boots fold_left fst snd]. cbn [fst] in Hid.
    assert (Hk' : k ∈ m_devicesToBoot (OnBoot id es m)).
    { rewrite OnBoot_pending_set. destruct (Z.eqb_spec es 0) as [-> | _]; [| exact Hk].
      apply elem_of_difference. split; [exact Hk |].
      rewrite elem_of_singleton. intros <-.
      exact (Hfailed (k, 0) ltac:(left) eq_refl eq_refl). }
    change (fold_left _ boots (OnBoot id es m)) with (run_boots boots (OnBoot id es m)).
    rewrite IH; [| intros b Hb; apply Hfailed; right; exact Hb | exact Hk'].
    destruct (OnBoot_step id es m ltac:(lia)) as [_ [Hsame | [_ Hempty]]]; [exact Hsame |].
    rewrite Hempty in Hk'. set_solver.
  - intros id es Hes. rewrite OnBoot_pending_set.
    destruct (Z.eqb_spec es 0); [contradiction | reflexivity].
Qed.

Lemma all_booted_waits_for_every_node_witness :
  5 ∈ m_devicesToBoot
        (run_boots [(3, 0); (5, 66); (4, 0); (3, 0); (5, 1)] Sample.master_345)
  /\ all_booted_count
       (run_boots [(3, 0); (5, 66); (4, 0); (3, 0); (5, 1)] Sample.master_345)
     = 0%nat.
Proof.
  destruct (all_booted_waits_for_every_node 5
              [(3, 0); (5, 66); (4, 0); (3, 0); (5, 1)] Sample.master_345)
    as (Hin & Hcount & _).
  - vm_compute. set_solver.
  - repeat constructor; cbn; lia.
  - intros b Hb Hfst.
    repeat (apply elem_of_cons in Hb as [-> | Hb]); cbn in *;
      try discriminate; try lia.
    inversion Hb.
  - split; [exact Hin | exact Hcount].
Defined.

End BootMilestone.

(* ===================================================================== *)
(** * The follower inference, run again and for binary DCFs               *)
(* ===================================================================== *)
Section FollowerInferenceRuns.
Import ErrorCode DCFConfigMaster DCFDriver Followers.

Variable config : DCFDriverConfig.

Lemma link_again main follower drivers :
  main <> follower ->
  link main follower (link main follower drivers) = link main follower drivers.
Proof.
  intros Hne. apply map_eq. intros x.
  rewrite (lookup_link main follower (link main follower drivers)) by exact Hne.
  rewrite !(lookup_link main follower drivers) by exact Hne.
  repeat case_decide; try congruence;
    match goal with
    | |- context [drivers !! ?k] => destruct (drivers !! k) as [[a b] |]; reflexivity
    end.
Qed.

Lemma link_registered main follower drivers a :
  main <> follower ->
  is_Some (link main follower drivers !! a) <-> is_Some (drivers !! a).
Proof.
  intros Hne. rewrite lookup_link by exact Hne.
  destruct (decide (a = main)) as [-> | _]; [apply fmap_is_Some |].
  destruct (decide (a = follower)) as [-> | _]; [apply fmap_is_Some | reflexivity].
Qed.

(** What [resolveFollowerRelationship] returns, case by case. *)
Lemma resolveFollowerRelationship_cases cobID m m' :
  resolveFollowerRelationship config cobID m = Some m' ->
  let first := getFirstNodeIDUsing_RPDO_COB_ID m cobID in
  (first = 0 /\ m' = setFirstNodeIDUsing_RPDO_COB_ID (id config) cobID m)
  \/ (first <> 0 /\ first < id config /\ is_Some (m_drivers m !! first)
      /\ m' = with_drivers (link first (id config)) m)
  \/ (first <> 0 /\ id config < first /\ is_Some (m_drivers m !! first)
      /\ m' = with_drivers (link (id config) first) m)
  \/ (first <> 0 /\ first = id config /\ m' = m).
Proof.
  intros Hrun first. unfold resolveFollowerRelationship in Hrun. fold first in Hrun.
  destruct (Z.eqb_spec first 0) as [Hzero | Hfirst].
  { injection Hrun as <-. left. split; [exact Hzero | reflexivity]. }
  right.
  destruct (Z.ltb_spec first (id config)) as [Hlt | Hge].
  { left. unfold getDriver in Hrun. cbn in Hrun.
    rewrite lookup_alter_ne in Hrun by lia.
    destruct (m_drivers m !! first) as [peer |] eqn:Hpeer; [| discriminate Hrun].
    injection Hrun as <-. repeat split; try assumption; try lia; eauto. }
  right.
  destruct (Z.ltb_spec (id config) first) as [Hgt | Hle].
  { left. unfold getDriver in Hrun. cbn in Hrun.
    rewrite lookup_alter_ne in Hrun by lia.
    destruct (m_drivers m !! first) as [peer |] eqn:Hpeer; [| discriminate Hrun].
    injection Hrun as <-. split; [exact Hfirst |]. split; [exact Hgt |].
    split; [eauto |].
    unfold with_drivers, link; cbn. f_equal. apply alter_alter_ne. lia. }
  right. injection Hrun as <-. repeat split; try assumption; lia.
Qed.

(** X18.  The follower inference of a driver can be run again: on the
    master it has left, it returns that master unchanged, so configuring a
    node after every boot keeps the relationships as they are.  A run never
    removes or replaces the registry entry of a node, registers or removes
    no driver, and changes no driver but the one that runs it and the first
    node registered for its COB-ID. *)
Theorem follower_inference_can_be_repeated (index : Z) (m m' : Master) :
  configureFollowerRelationship config index m = Some m' ->
  let cobID := claimed_cobID (config, index) in
  configureFollowerRelationship config index m' = Some m'
  /\ (forall c n, m_firstNodeIDUsing_RPDO_COB_ID m !! c = Some n -> n <> 0 ->
                  m_firstNodeIDUsing_RPDO_COB_ID m' !! c = Some n)
  /\ (forall a, is_Some (m_drivers m' !! a) <-> is_Some (m_drivers m !! a))
  /\ (forall a, a <> id config -> a <> getFirstNodeIDUsing_RPDO_COB_ID m cobID ->
                m_drivers m' !! a = m_drivers m !! a).
Proof.
  unfold configureFollowerRelationship, claimed_cobID. cbn [fst snd].
  destruct (Read config uint32_t index 1) as [ec value]. cbn [snd].
  destruct (is_error ec); [discriminate |].
  set (cobID := Z.land value 0x1FFFFFFF). intros Hrun.
  destruct (resolveFollowerRelationship_cases cobID m m' Hrun)
    as [(Hfirst & ->) | [(Hfirst & Hlt & Hpeer & ->) | [(Hfirst & Hgt & Hpeer & ->)
       | (Hfirst & Hself & ->)]]].
  - split; [| split; [| split]].
    + unfold resolveFollowerRelationship, getFirstNodeIDUsing_RPDO_COB_ID. cbn.
      rewrite lookup_insert_eq.
      destruct (Z.eqb_spec (id config) 0) as [Hid | Hid].
      * unfold setFirstNodeIDUsing_RPDO_COB_ID, with_registry. cbn.
        rewrite insert_insert_eq. reflexivity.
      * rewrite Z.ltb_irrefl. reflexivity.
    + intros c n Hc Hn. cbn. rewrite lookup_insert_ne; [exact Hc |].
      intros <-. unfold getFirstNodeIDUsing_RPDO_COB_ID in Hfirst.
      rewrite Hc in Hfirst. contradiction.
    + reflexivity.
    + reflexivity.
  - split; [| split; [| split]].
    + unfold resolveFollowerRelationship.
      change (getFirstNodeIDUsing_RPDO_COB_ID (with_drivers _ m) cobID)
        with (getFirstNodeIDUsing_RPDO_COB_ID m cobID).
      set (first := getFirstNodeIDUsing_RPDO_COB_ID m cobID) in *.
      replace (first =? 0) with false by (symmetry; apply Z.eqb_neq; exact Hfirst).
      replace (first <? id config) with true by (symmetry; apply Z.ltb_lt; exact Hlt).
      unfold getDriver. cbn. rewrite lookup_alter_ne by lia.
      assert (Hstill : is_Some (link first (id config) (m_drivers m) !! first))
        by (apply link_registered; [lia | exact Hpeer]).
      destruct Hstill as [peer ->].
      unfold with_drivers; cbn. do 2 f_equal.
      apply (link_again first (id config)). lia.
    + intros c n Hc _. exact Hc.
    + intros a. cbn. apply link_registered. lia.
    + intros a Hid Ha. cbn. rewrite lookup_link by lia.
      rewrite decide_False by exact Ha. rewrite decide_False by exact Hid. reflexivity.
  - split; [| split; [| split]].
    + unfold resolveFollowerRelationship.
      change (getFirstNodeIDUsing_RPDO_COB_ID (with_drivers _ m) cobID)
        with (getFirstNodeIDUsing_RPDO_COB_ID m cobID).
      set (first := getFirstNodeIDUsing_RPDO_COB_ID m cobID) in *.
      replace (first =? 0) with false by (symmetry; apply Z.eqb_neq; exact Hfirst).
      replace (first <? id config) with false by (symmetry; apply Z.ltb_ge; lia).
      replace (id config <? first) with true by (symmetry; apply Z.ltb_lt; exact Hgt).
      unfold getDriver. cbn. rewrite lookup_alter_ne by lia.
      assert (Hstill : is_Some (link (id config) first (m_drivers m) !! first))
        by (apply link_registered; [lia | exact Hpeer]).
      destruct Hstill as [peer ->].
      unfold with_drivers; cbn. do 2 f_equal.
      rewrite alter_alter_ne by lia.
      apply (link_again (id config) first). lia.
    + intros c n Hc _. exact Hc.
    + intros a. cbn. apply link_registered. lia.
    + intros a Hid Ha. cbn. rewrite lookup_link by lia.
      rewrite decide_False by exact Hid. rewrite decide_False by exact Ha. reflexivity.
  - split; [exact Hrun | split; [| split]].
    + intros c n Hc _. exact Hc.
    + reflexivity.
    + reflexivity.
Qed.

(** ** The inference for binary DCFs *)

Lemma assignRoles_cases otherNodeID m r :
  assignRoles config otherNodeID m = Some r ->
  r = m
  \/ (otherNodeID <> id config /\ is_Some (m_drivers m !! otherNodeID)
      /\ r = with_drivers
               (link (Z.min (id config) otherNodeID) (Z.max (id config) otherNodeID)) m).
Proof.
  unfold assignRoles. intros Hrun.
  destruct (Z.ltb_spec otherNodeID (id config)) as [Hlt | Hge].
  { right. unfold getDriver in Hrun. cbn in Hrun.
    rewrite lookup_alter_ne in Hrun by lia.
    destruct (m_drivers m !! otherNodeID) as [peer |] eqn:Hpeer; [| discriminate Hrun].
    injection Hrun as <-. split; [lia |]. split; [eauto |].
    rewrite Z.min_r, Z.max_l by lia. reflexivity. }
  destruct (Z.ltb_spec (id config) otherNodeID) as [Hgt | Hle].
  { right. unfold getDriver in Hrun. cbn in Hrun.
    rewrite lookup_alter_ne in Hrun by lia.
    destruct (m_drivers m !! otherNodeID) as [peer |] eqn:Hpeer; [| discriminate Hrun].
    injection Hrun as <-. split; [lia |]. split; [eauto |].
    rewrite Z.min_l, Z.max_r by lia.
    unfold with_drivers, link; cbn. f_equal. apply alter_alter_ne. lia. }
  left. injection Hrun as <-. reflexivity.
Qed.

Lemma scanOtherCobConfigs_cases m cobConfigIndexForNode cobID indices r :
  scanOtherCobConfigs config m cobConfigIndexForNode cobID indices = Return r ->
  r = Some m \/ exists otherNodeID, r = assignRoles config otherNodeID m.
Proof.
  induction indices as [| otherCobConfigIndex more IH]; cbn [scanOtherCobConfigs];
    [discriminate |].
  destruct (otherCobConfigIndex =? cobConfigIndexForNode); [exact IH |].
  destruct (od m otherCobConfigIndex 1) as [error value].
  destruct (is_error error); [intros [= <-]; left; reflexivity |].
  destruct (Z.land value 2047 =? cobID); [| exact IH].
  destruct (od m _ 0) as [error' value'].
  destruct (is_error error'); [intros [= <-]; left; reflexivity |].
  destruct (negb _); [intros [= <-]; left; reflexivity |].
  intros [= <-]. right. eexists. reflexivity.
Qed.

Lemma scanNodeConfigs_cases m indices r :
  scanNodeConfigs config m indices = r ->
  r = Some m \/ exists otherNodeID, r = assignRoles config otherNodeID m.
Proof.
  induction indices as [| nodeConfigIndex more IH]; cbn [scanNodeConfigs];
    [intros <-; left; reflexivity |].
  destruct (od m nodeConfigIndex 0) as [error value].
  destruct (is_error error); [intros <-; left; reflexivity |].
  destruct (_ =? _); [| exact IH].
  destruct (od m _ 1) as [error' value'].
  destruct (is_error error'); [intros <-; left; reflexivity |].
  destruct (scanOtherCobConfigs config m _ _ _) as [| r'] eqn:Hscan; [exact IH |].
  intros <-. exact (scanOtherCobConfigs_cases _ _ _ _ _ Hscan).
Qed.

(** X19.  The follower inference for binary DCFs changes at most one pair.
    When it returns, the master is as before, or the driver is linked with
    one other registered driver, the one with the smaller node ID as main
    and the other as its follower; no other driver and nothing else of the
    master (COB-ID registry, pending-boot set, callbacks) changes. *)
Theorem binary_inference_links_one_pair (m m' : Master) :
  configureFollowerRelationship_binary config m = Some m' ->
  m' = m
  \/ exists otherNodeID,
       otherNodeID <> id config
       /\ is_Some (m_drivers m !! otherNodeID)
       /\ m' = with_drivers
                 (link (Z.min (id config) otherNodeID) (Z.max (id config) otherNodeID)) m.
Proof.
  unfold configureFollowerRelationship_binary. intros Hrun.
  destruct (scanNodeConfigs_cases _ _ _ Hrun) as [[= <-] | [otherNodeID Hroles]];
    [left; reflexivity |].
  symmetry in Hroles.
  destruct (assignRoles_cases _ _ _ Hroles) as [-> | Hlinked];
    [left; reflexivity | right; exists otherNodeID; exact Hlinked].
Qed.

End FollowerInferenceRuns.

Section FollowerInferenceRunExamples.
Import ErrorCode DCFConfigMaster DCFDriver Followers.

Lemma follower_inference_can_be_repeated_witness :
  let m1 := default Sample.master_345
              (configureFollowerRelationship (Sample.drive_config 3 0x203) 0x1400
                 Sample.master_345) in
  let m2 := default m1
              (configureFollowerRelationship (Sample.drive_config 4 0x203) 0x1400 m1) in
  m_drivers m2 !! 4 = Some (mk_DCFDriver 0 3)
  /\ configureFollowerRelationship (Sample.drive_config 4 0x203) 0x1400 m2 = Some m2.
Proof.
  intros m1 m2. split; [vm_compute; reflexivity |].
  refine (proj1 (follower_inference_can_be_repeated (Sample.drive_config 4 0x203) 0x1400
                   m1 m2 _)).
  vm_compute. reflexivity.
Defined.

Lemma binary_inference_links_one_pair_witness :
  let m := Sample.binary_master_34 in
  let config := Sample.drive_config 3 0x203 in
  let m' := default m (configureFollowerRelationship_binary config m) in
  m_drivers m' !! 3 = Some (mk_DCFDriver 4 0)
  /\ (m' = m
      \/ exists otherNodeID,
           otherNodeID <> id config
           /\ is_Some (m_drivers m !! otherNodeID)
           /\ m' = with_drivers
                     (link (Z.min (id config) otherNodeID) (Z.max (id config) otherNodeID))
                     m).
Proof.
  intros m config m'. split; [vm_compute; reflexivity |].
  apply (binary_inference_links_one_pair config m m').
  vm_compute. reflexivity.
Defined.

End FollowerInferenceRunExamples.

(* ===================================================================== *)
(** * The configured objects of a device description                      *)
(* ===================================================================== *)
Section ConfiguredObjects.
Import DCFDriverConfigImpl.

(** The three bits of lely/co/obj.h: CO_ACCESS_READ, CO_ACCESS_WRITE and
    CO_OBJ_FLAGS_VAL_SET_EXPLICITLY. *)
Variable R W E : Z.

Lemma objects_of_flat_map (dev : CODev) :
  getSDOIndicesForDriverConfiguration R W E dev
  = flat_map (fun sdoIndex =>
                match find_obj dev sdoIndex with
                | Some sdoObject =>
                    match configured_subIndices R W E sdoObject with
                    | [] => []
                    | _ :: _ => [(sdoIndex, configured_subIndices R W E sdoObject)]
                    end
                | None => []
                end) (map getIdx dev).
Proof.
  unfold getSDOIndicesForDriverConfiguration.
  assert (Hfold : forall l acc,
            fold_left
              (fun result sdoIndex =>
                 match find_obj dev sdoIndex with
                 | Some sdoObject =>
                     match configured_subIndices R W E sdoObject with
                     | [] => result
                     | _ :: _ => result ++ [(sdoIndex, configured_subIndices R W E sdoObject)]
                     end
                 | None => result
                 end) l acc
            = acc ++ flat_map
                       (fun sdoIndex =>
                          match find_obj dev sdoIndex with
                          | Some sdoObject =>
                              match configured_subIndices R W E sdoObject with
                              | [] => []
                              | _ :: _ => [(sdoIndex, configured_subIndices R W E sdoObject)]
                              end
                          | None => []
                          end) l).
  { induction l as [| sdoIndex l IH]; intros acc; cbn [fold_left flat_map].
    - rewrite app_nil_r. reflexivity.
    - rewrite IH. destruct (find_obj dev sdoIndex) as [sdoObject |]; [| reflexivity].
      destruct (configured_subIndices R W E sdoObject); [reflexivity |].
      rewrite <- app_assoc. reflexivity. }
  apply Hfold.
Qed.

Lemma find_obj_Some dev idx obj :
  find_obj dev idx = Some obj -> In obj dev /\ getIdx obj = idx.
Proof.
  unfold find_obj. intros Hfind. apply find_some in Hfind.
  rewrite Z.eqb_eq in Hfind. exact Hfind.
Qed.

Lemma find_first {A} (p : A -> bool) (key : A -> Z) (l : list A) (x : A) k :
  (forall y, p y = (key y =? k)) ->
  NoDup (map key l) -> In x l -> key x = k -> List.find p l = Some x.
Proof.
  intros Hp. induction l as [| y l IH]; intros Hnodup Hin Hkey; [destruct Hin |].
  cbn [map] in Hnodup. apply NoDup_cons in Hnodup as [Hnotin Hnodup].
  cbn [List.find]. rewrite Hp.
  destruct Hin as [-> | Hin].
  - replace (key x =? k) with true by (symmetry; apply Z.eqb_eq; exact Hkey).
    reflexivity.
  - destruct (Z.eqb_spec (key y) k) as [Hy | _]; [| apply IH; assumption].
    exfalso. apply Hnotin. rewrite Hy, <- Hkey.
    apply list_elem_of_In, in_map, Hin.
Qed.

(** X20.  The objects the driver configures, as read from the device
    description.  Every entry of the list has at least one sub-index; every
    listed sub-index exists in the description, is readable and writable and
    has its value set explicitly, and [getTypeOfObject] returns its declared
    type; the entries come in the order of the description.  In a description
    without repeated indices and sub-indices, conversely, every such
    sub-index is listed under its object.  For an object or a sub-index the
    description does not have, [getTypeOfObject] returns 0. *)
Theorem configured_objects_of_the_description (dev : CODev) :
  (forall index subIndices,
     In (index, subIndices) (getSDOIndicesForDriverConfiguration R W E dev) ->
     subIndices <> []
     /\ forall subIndex,
          In subIndex subIndices ->
          exists obj sub,
            In obj dev /\ getIdx obj = index
            /\ In sub (subs obj) /\ getSubidx sub = subIndex
            /\ is_configured R W E sub = true
            /\ getTypeOfObject dev index subIndex = getType sub)
  /\ sublist (map fst (getSDOIndicesForDriverConfiguration R W E dev)) (map getIdx dev)
  /\ (NoDup (map getIdx dev) ->
      forall obj sub,
        In obj dev -> NoDup (map getSubidx (subs obj)) ->
        In sub (subs obj) -> is_configured R W E sub = true ->
        exists subIndices,
          In (getIdx obj, subIndices) (getSDOIndicesForDriverConfiguration R W E dev)
          /\ In (getSubidx sub) subIndices)
  /\ (forall index subIndex,
        (forall obj sub, In obj dev -> In sub (subs obj) ->
                         getIdx obj = index -> getSubidx sub <> subIndex) ->
        getTypeOfObject dev index subIndex = 0).
Proof.
  rewrite objects_of_flat_map.
  split; [| split; [| split]].
  - intros index subIndices Hin. apply in_flat_map in Hin as (sdoIndex & _ & Hin).
    destruct (find_obj dev sdoIndex) as [obj |] eqn:Hobj; [| destruct Hin].
    destruct (configured_subIndices R W E obj) as [| s0 rest] eqn:Hsubs; [destruct Hin |].
    destruct Hin as [[= <- <-] | []].
    split; [discriminate |].
    intros subIndex Hsub. rewrite <- Hsubs in Hsub.
    unfold configured_subIndices in Hsub. apply filter_In in Hsub as [_ Hsub].
    destruct (find_sub obj subIndex) as [sub |] eqn:Hfind; [| discriminate Hsub].
    destruct (find_obj_Some _ _ _ Hobj) as [Hdev Hidx].
    unfold find_sub in Hfind. pose proof (find_some _ _ Hfind) as [Hsubin Hkey].
    rewrite Z.eqb_eq in Hkey.
    exists obj, sub. repeat split; try assumption.
    unfold getTypeOfObject. rewrite Hobj. unfold find_sub. rewrite Hfind. reflexivity.
  - generalize (map getIdx dev) at 1 2. intros l.
    induction l as [| sdoIndex l IH]; [constructor |].
    cbn [flat_map]. rewrite map_app.
    destruct (find_obj dev sdoIndex) as [obj |]; [| apply sublist_cons, IH].
    destruct (configured_subIndices R W E obj); [apply sublist_cons, IH |].
    apply sublist_skip, IH.
  - intros Hnodup obj sub Hobj Hsubs Hsub Hconf.
    assert (Hfind : find_obj dev (getIdx obj) = Some obj)
      by (apply (find_first _ getIdx dev obj (getIdx obj)); auto).
    assert (Hfindsub : find_sub obj (getSubidx sub) = Some sub)
      by (apply (find_first _ getSubidx (subs obj) sub (getSubidx sub)); auto).
    assert (Hlisted : In (getSubidx sub) (configured_subIndices R W E obj)).
    { unfold configured_subIndices. apply filter_In.
      split; [apply in_map, Hsub |]. rewrite Hfindsub. exact Hconf. }
    exists (configured_subIndices R W E obj). split; [| exact Hlisted].
    apply in_flat_map. exists (getIdx obj). split; [apply in_map, Hobj |].
    rewrite Hfind.
    destruct (configured_subIndices R W E obj); [destruct Hlisted | left; reflexivity].
  - intros index subIndex Hmissing. unfold getTypeOfObject.
    destruct (find_obj dev index) as [obj |] eqn:Hobj; [| reflexivity].
    destruct (find_obj_Some _ _ _ Hobj) as [Hdev Hidx].
    destruct (find_sub obj subIndex) as [sub |] eqn:Hfind; [| reflexivity].
    unfold find_sub in Hfind. apply find_some in Hfind as [Hsubin Hkey].
    rewrite Z.eqb_eq in Hkey. exfalso. exact (Hmissing obj sub Hdev Hsubin Hidx Hkey).
Qed.

End ConfiguredObjects.
